(** * databricks-notebook: the translation workflow and its diff report

    A shallow embedding of [src/databricks_notebook/__init__.py] (and of
    the older [src/notebook.py], whose bodies are the same up to the
    host cache), with the properties of the polling loop, the upload
    payload, the data source selection, the host cache and the diff
    renderer. *)

Set Warnings "-register-all,-rewrite-rw,-inexact-float,-clear-no-such-hyp".
From Stdlib Require Import ZArith NArith Ascii String DecimalString DecimalPos DecimalZ Floats.
From Stdlib Require Import ssreflect.
From stdpp Require Import gmap list sorting.



(** ** Python values *)

(** A Python [str] is a sequence of Unicode code points. *)
Abbreviation str := (list N).

(** An ASCII literal. *)
Definition py (s : string) : str := N_of_ascii <$> list_ascii_of_string s.

(** The double quote, U+0022. *)
Definition dq : str := [34%N].

(** [str(z)] / [f"{z}"] for an [int]. *)
Definition str_of_int (z : Z) : str := py (NilZero.string_of_int (Z.to_int z)).

(** [''.join(l)] *)
Definition join (l : list str) : str := concat l.

(** [c] is a line boundary for [str.splitlines]. *)
Definition is_linebreak (c : N) : bool :=
  bool_decide (c ∈ [10; 11; 12; 13; 28; 29; 30; 133; 8232; 8233]%N).

(** [c.isspace()] for a single character. *)
Definition isspace (c : N) : bool :=
  bool_decide (c ∈ [9; 10; 11; 12; 13; 28; 29; 30; 31; 32; 133; 160; 5760;
                    8192; 8193; 8194; 8195; 8196; 8197; 8198; 8199; 8200; 8201; 8202;
                    8232; 8233; 8239; 8287; 12288]%N).

(** [s.splitlines()]: [line] is the line being read. A line boundary ends
    it ("\r\n" counts as one boundary); what follows the last boundary is
    a line only when it is not empty. *)
Fixpoint splitlines_from (line : str) (s : str) : list str :=
  match s with
  | [] => match line with [] => [] | _ => [line] end
  | c :: s' =>
      if is_linebreak c then
        line :: match c, s' with
                | 13%N, 10%N :: s'' => splitlines_from [] s''
                | _, _ => splitlines_from [] s'
                end
      else splitlines_from (line ++ [c]) s'
  end.

Definition splitlines (s : str) : list str := splitlines_from [] s.

(** [s.rstrip()] *)
Fixpoint rstrip (s : str) : str :=
  match s with
  | [] => []
  | c :: s' =>
      match rstrip s' with
      | [] => if isspace c then [] else [c]
      | r => c :: r
      end
  end.

(** [s.startswith(prefix)] *)
Definition startswith (s prefix : str) : bool :=
  bool_decide (take (length prefix) s = prefix).

(** [range(lo, hi)] *)
Definition range (lo hi : nat) : list nat := seq lo (hi - lo).

(** [enumerate(l)], counting from [start]. *)
Fixpoint enumerate_from {A} (start : nat) (l : list A) : list (nat * A) :=
  match l with
  | [] => []
  | x :: l' => (start, x) :: enumerate_from (S start) l'
  end.

Definition enumerate {A} (l : list A) : list (nat * A) := enumerate_from 0 l.

(** The exceptions the module can raise or let through. *)
Inductive exn :=
| ValueError (msg : str)
| KeyError (key : str)
| IndexError
| TransportError (info : str)
| OverflowError (msg : str)
| OSError (errno : Z) (strerror : str)
| RecursionError.

(** A call returns, raises, or does not come back (it waits for ever for
    a reply the service never gives). *)
Inductive outcome (A : Type) :=
| Ok (a : A)
| Raise (e : exn)
| NoAnswer.
Arguments Ok {A} a.
Arguments Raise {A} e.
Arguments NoAnswer {A}.

(** Calls without effects are sequenced on their outcomes. *)
#[export] Instance outcome_ret : MRet outcome := λ A a, Ok a.
#[export] Instance outcome_bind : MBind outcome := λ A B f m,
  match m with
  | Ok a => f a
  | Raise e => Raise e
  | NoAnswer => NoAnswer
  end.

(** A step of the embedding of [difflib] that has no exception of its
    own: its [None] (an index out of range, an exhausted loop bound) is
    shown below never to occur, and is rendered as a call that does not
    come back. *)
Definition computed {A} (o : option A) : outcome A :=
  match o with
  | Some a => Ok a
  | None => NoAnswer
  end.

(** JSON request bodies, as the [dict]/[list] literals of the module build
    them. *)
Inductive json :=
| JBool (b : bool)
| JInt (z : Z)
| JStr (s : str)
| JList (l : list json)
| JDict (l : list (str * json)).

(** ** [difflib] (CPython 3.11), as far as [Differ().compare] uses it

    Computations are in [option]: [None] stands for an exception of the
    Python code (an index out of range, a name that is not bound) or for a
    loop bound of the model that was too small. The properties below show
    that [None] is never the result. *)

Abbreviation Match := (nat * nat * nat)%type.

Inductive opcode_tag := Replace | Delete | Insert | Equal.

Abbreviation opcode := (opcode_tag * nat * nat * nat * nat)%type.

(** Tuples are ordered lexicographically; [list.sort()] puts the matching
    blocks in this order. *)
Definition Match_le (x y : Match) : Prop :=
  let '(i1, j1, k1) := x in
  let '(i2, j2, k2) := y in
  i1 < i2 ∨ (i1 = i2 ∧ (j1 < j2 ∨ (j1 = j2 ∧ k1 ≤ k2))).

#[export] Instance Match_le_dec x y : Decision (Match_le x y).
Proof. destruct x as [[??]?], y as [[??]?]. apply _. Defined.

(** [float(n)] for an [int]: the nearest binary64 value. *)
Definition float_of_nat (n : nat) : float :=
  SF2Prim (SpecFloat.binary_normalize FloatOps.prec FloatOps.emax (Z.of_nat n) 0 false).

Definition _calculate_ratio (matches length : nat) : float :=
  match length with
  | O => 1.0%float
  | _ => (2.0 * float_of_nat matches / float_of_nat length)%float
  end.

Module SequenceMatcher.
Section SequenceMatcher.
Context `{Countable A}.

(** [SequenceMatcher(isjunk, a, b, autojunk)] *)
Variable isjunk : option (A → bool).
Variable autojunk : bool.

(** [__chain_b]: the positions of each element of [b], without the junk
    and the popular elements; the junk elements; the popular elements. *)
Definition chain_b (b : list A) : gmap A (list nat) * gset A * gset A :=
  let b2j : gmap A (list nat) :=
    foldl (λ (b2j : gmap A (list nat)) '(i, elt),
             <[elt := default [] (b2j !! elt) ++ [i]]> b2j) ∅ (enumerate b) in
  let junk : gset A :=
    match isjunk with
    | Some f => filter (λ elt, f elt = true) (dom b2j)
    | None => ∅
    end in
  let b2j : gmap A (list nat) := filter (λ p, p.1 ∉ junk) b2j in
  let n := length b in
  let popular : gset A :=
    if autojunk && bool_decide (200 ≤ n) then
      let ntest := n / 100 + 1 in
      dom (filter (λ p : A * list nat, ntest < length p.2) b2j)
    else ∅ in
  let b2j : gmap A (list nat) := filter (λ p, p.1 ∉ popular) b2j in
  (b2j, junk, popular).

Definition b2j_of (b : list A) : gmap A (list nat) := (chain_b b).1.1.
Definition bjunk_of (b : list A) : gset A := (chain_b b).1.2.
Definition isbjunk (b : list A) (x : A) : bool := bool_decide (x ∈ bjunk_of b).

(** The loop [for j in b2j.get(a[i], nothing)] of [find_longest_match];
    [best] is [(besti, bestj, bestsize)]. [k] is at most [i+1] and [j+1],
    so that [i-k+1] is [i+1-k]. *)
Fixpoint flm_row (i blo bhi : nat) (j2len : gmap nat nat) (js : list nat)
    (newj2len : gmap nat nat) (best : Match) : gmap nat nat * Match :=
  match js with
  | [] => (newj2len, best)
  | j :: js' =>
      if bool_decide (j < blo) then flm_row i blo bhi j2len js' newj2len best
      else if bool_decide (bhi ≤ j) then (newj2len, best)
      else
        let k := match j with O => 0 | S j' => default 0 (j2len !! j') end + 1 in
        let newj2len := <[j := k]> newj2len in
        let best := if bool_decide (best.2 < k) then (i + 1 - k, j + 1 - k, k) else best in
        flm_row i blo bhi j2len js' newj2len best
  end.

(** The loop [for i in range(alo, ahi)]. *)
Fixpoint flm_rows (a : list A) (b2j : gmap A (list nat)) (blo bhi : nat)
    (rows : list nat) (j2len : gmap nat nat) (best : Match) : option Match :=
  match rows with
  | [] => Some best
  | i :: rows' =>
      x ← a !! i;
      let '(newj2len, best) :=
        flm_row i blo bhi j2len (default [] (b2j !! x)) ∅ best in
      flm_rows a b2j blo bhi rows' newj2len best
  end.

(** The loops that extend the match to the left: over elements that are
    not junk ([junk = false]), then over junk ([junk = true]). The
    recursion is on [besti]: at 0 the condition [besti > alo] fails. *)
Fixpoint extend_left (a b : list A) (junk : bool) (alo blo : nat)
    (besti bestj bestsize : nat) : option Match :=
  match besti with
  | O => Some (besti, bestj, bestsize)
  | S besti' =>
      if bool_decide (alo < besti ∧ blo < bestj) then
        y ← b !! (bestj - 1);
        if bool_decide (isbjunk b y = junk) then
          x ← a !! besti';
          if bool_decide (x = y)
          then extend_left a b junk alo blo besti' (bestj - 1) (bestsize + 1)
          else Some (besti, bestj, bestsize)
        else Some (besti, bestj, bestsize)
      else Some (besti, bestj, bestsize)
  end.

(** The loops that extend the match to the right; [gap] is
    [ahi - (besti + bestsize)]: at 0 the condition
    [besti+bestsize < ahi] fails. *)
Fixpoint extend_right (a b : list A) (junk : bool) (ahi bhi : nat)
    (besti bestj : nat) (gap : nat) (bestsize : nat) : option Match :=
  match gap with
  | O => Some (besti, bestj, bestsize)
  | S gap' =>
      if bool_decide (besti + bestsize < ahi ∧ bestj + bestsize < bhi) then
        y ← b !! (bestj + bestsize);
        if bool_decide (isbjunk b y = junk) then
          x ← a !! (besti + bestsize);
          if bool_decide (x = y)
          then extend_right a b junk ahi bhi besti bestj gap' (bestsize + 1)
          else Some (besti, bestj, bestsize)
        else Some (besti, bestj, bestsize)
      else Some (besti, bestj, bestsize)
  end.

Definition find_longest_match (a b : list A) (alo ahi blo bhi : nat) : option Match :=
  '(besti, bestj, bestsize) ← flm_rows a (b2j_of b) blo bhi (range alo ahi) ∅ (alo, blo, 0);
  '(besti, bestj, bestsize) ← extend_left a b false alo blo besti bestj bestsize;
  '(besti, bestj, bestsize) ←
     extend_right a b false ahi bhi besti bestj (ahi - (besti + bestsize)) bestsize;
  '(besti, bestj, bestsize) ← extend_left a b true alo blo besti bestj bestsize;
  extend_right a b true ahi bhi besti bestj (ahi - (besti + bestsize)) bestsize.

(** The loop [while queue] of [get_matching_blocks]. [queue.pop()] takes
    the element appended last: the head of the list here. *)
Fixpoint gmb_loop (a b : list A) (turns : nat) (queue : list (nat * nat * nat * nat))
    (matching_blocks : list Match) : option (list Match) :=
  match queue with
  | [] => Some matching_blocks
  | (alo, ahi, blo, bhi) :: queue =>
      match turns with
      | O => None
      | S turns =>
          '(i, j, k) ← find_longest_match a b alo ahi blo bhi;
          if bool_decide (k ≠ 0) then
            let matching_blocks := matching_blocks ++ [(i, j, k)] in
            let queue :=
              if bool_decide (alo < i ∧ blo < j) then (alo, i, blo, j) :: queue else queue in
            let queue :=
              if bool_decide (i + k < ahi ∧ j + k < bhi) then (i + k, ahi, j + k, bhi) :: queue
              else queue in
            gmb_loop a b turns queue matching_blocks
          else gmb_loop a b turns queue matching_blocks
      end
  end.

(** The loop that collapses adjacent equal blocks. *)
Definition collapse_step (st : nat * nat * nat * list Match) (m : Match)
    : nat * nat * nat * list Match :=
  let '(i1, j1, k1, non_adjacent) := st in
  let '(i2, j2, k2) := m in
  if bool_decide (i1 + k1 = i2 ∧ j1 + k1 = j2) then (i1, j1, k1 + k2, non_adjacent)
  else
    (i2, j2, k2, if bool_decide (k1 ≠ 0) then non_adjacent ++ [(i1, j1, k1)] else non_adjacent).

Definition get_matching_blocks (a b : list A) : option (list Match) :=
  let la := length a in
  let lb := length b in
  matching_blocks ← gmb_loop a b (2 * la + 1) [(0, la, 0, lb)] [];
  let matching_blocks := merge_sort Match_le matching_blocks in
  let '(i1, j1, k1, non_adjacent) := foldl collapse_step (0, 0, 0, []) matching_blocks in
  let non_adjacent :=
    if bool_decide (k1 ≠ 0) then non_adjacent ++ [(i1, j1, k1)] else non_adjacent in
  Some (non_adjacent ++ [(la, lb, 0)]).

Definition opcode_step (st : nat * nat * list opcode) (m : Match)
    : nat * nat * list opcode :=
  let '(i, j, answer) := st in
  let '(ai, bj, size) := m in
  let answer :=
    if bool_decide (i < ai ∧ j < bj) then answer ++ [(Replace, i, ai, j, bj)]
    else if bool_decide (i < ai) then answer ++ [(Delete, i, ai, j, bj)]
    else if bool_decide (j < bj) then answer ++ [(Insert, i, ai, j, bj)]
    else answer in
  let '(i, j) := (ai + size, bj + size) in
  let answer :=
    if bool_decide (size ≠ 0) then answer ++ [(Equal, ai, i, bj, j)] else answer in
  (i, j, answer).

Definition get_opcodes (a b : list A) : option (list opcode) :=
  matching_blocks ← get_matching_blocks a b;
  Some (foldl opcode_step (0, 0, []) matching_blocks).2.

Definition ratio (a b : list A) : option float :=
  matching_blocks ← get_matching_blocks a b;
  let matches := foldr Nat.add 0 (snd <$> matching_blocks) in
  Some (_calculate_ratio matches (length a + length b)).

Definition quick_ratio (a b : list A) : float :=
  let fullbcount : gmap A nat :=
    foldl (λ (m : gmap A nat) elt, <[elt := default 0 (m !! elt) + 1]> m) ∅ b in
  let '(avail, matches) :=
    foldl (λ (st : gmap A Z * nat) elt,
             let '(avail, matches) := st in
             let numb : Z :=
               match avail !! elt with
               | Some numb => numb
               | None => Z.of_nat (default 0 (fullbcount !! elt))
               end in
             (<[elt := (numb - 1)%Z]> avail,
              if bool_decide (0 < numb)%Z then matches + 1 else matches))
          (∅, 0) a in
  _calculate_ratio matches (length a + length b).

Definition real_quick_ratio (a b : list A) : float :=
  let la := length a in
  let lb := length b in
  _calculate_ratio (la `min` lb) (la + lb).

End SequenceMatcher.
End SequenceMatcher.
Import SequenceMatcher.

(** [for x in l: st = f(st, x)] where the body may fail. *)
Fixpoint foldlM {S X} (f : S → X → option S) (st : S) (l : list X) : option S :=
  match l with
  | [] => Some st
  | x :: l' => st' ← f st x; foldlM f st' l'
  end.

(** *** [class Differ] *)

Module Differ.

Definition _keep_original_ws (s tag_s : str) : str :=
  (λ p : N * N, if bool_decide (p.2 = 32%N) && isspace p.1 then p.1 else p.2)
  <$> zip s tag_s.

Definition _qformat (aline bline atags btags : str) : list str :=
  let atags := rstrip (_keep_original_ws aline atags) in
  let btags := rstrip (_keep_original_ws bline btags) in
  [py "- " ++ aline]
  ++ (if bool_decide (atags ≠ []) then [py "? " ++ atags ++ [10%N]] else [])
  ++ [py "+ " ++ bline]
  ++ (if bool_decide (btags ≠ []) then [py "? " ++ btags ++ [10%N]] else []).

(** The loop over the opcodes of the synch pair, which builds [atags] and
    [btags]. *)
Definition tags_step (st : str * str) (op : opcode) : str * str :=
  let '(atags, btags) := st in
  let '(tag, ai1, ai2, bj1, bj2) := op in
  let la := ai2 - ai1 in
  let lb := bj2 - bj1 in
  match tag with
  | Replace => (atags ++ replicate la 94%N, btags ++ replicate lb 94%N)
  | Delete => (atags ++ replicate la 45%N, btags)
  | Insert => (atags, btags ++ replicate lb 43%N)
  | Equal => (atags ++ replicate la 32%N, btags ++ replicate lb 32%N)
  end.

Definition _dump (tag : str) (x : list str) (lo hi : nat) : option (list str) :=
  mapM (λ i, line ← x !! i; Some (tag ++ py " " ++ line)) (range lo hi).

Definition _plain_replace (a : list str) (alo ahi : nat) (b : list str) (blo bhi : nat)
    : option (list str) :=
  if bool_decide (alo < ahi ∧ blo < bhi) then
    if bool_decide (bhi - blo < ahi - alo) then
      first ← _dump (py "+") b blo bhi;
      second ← _dump (py "-") a alo ahi;
      Some (first ++ second)
    else
      first ← _dump (py "-") a alo ahi;
      second ← _dump (py "+") b blo bhi;
      Some (first ++ second)
  else None.

Definition _fancy_helper (_fancy_replace : nat → nat → nat → nat → outcome (list str))
    (a : list str) (alo ahi : nat) (b : list str) (blo bhi : nat) : outcome (list str) :=
  if bool_decide (alo < ahi) then
    if bool_decide (blo < bhi) then _fancy_replace alo ahi blo bhi
    else computed (_dump (py "-") a alo ahi)
  else if bool_decide (blo < bhi) then computed (_dump (py "+") b blo bhi)
  else Ok [].

Section Differ.
(** [Differ(linejunk, charjunk)] *)
Variable linejunk : option (str → bool).
Variable charjunk : option (N → bool).

(** What the search of [_fancy_replace] keeps: [best_ratio], the pair
    [(best_i, best_j)] once it is bound, and [(eqi, eqj)]. *)
Definition fancy_state : Type := float * option (nat * nat) * option (nat * nat).

(** The body of the inner loop, for the lines [ai = a[i]] and [bj]. *)
Definition fancy_cell (a : list str) (j : nat) (bj : str) (st : fancy_state) (i : nat)
    : option fancy_state :=
  let '(best_ratio, best, eq) := st in
  ai ← a !! i;
  if bool_decide (ai = bj) then
    Some (best_ratio, best, match eq with None => Some (i, j) | Some _ => eq end)
  else if PrimFloat.ltb best_ratio (real_quick_ratio ai bj)
          && PrimFloat.ltb best_ratio (quick_ratio ai bj) then
    r ← ratio charjunk true ai bj;
    if PrimFloat.ltb best_ratio r then Some (r, Some (i, j), eq) else Some st
  else Some st.

Definition fancy_search (a : list str) (alo ahi : nat) (b : list str) (blo bhi : nat)
    : option fancy_state :=
  foldlM (λ st j, bj ← b !! j; foldlM (fancy_cell a j bj) st (range alo ahi))
         (0.74%float, None, None) (range blo bhi).

(** [_fancy_replace] calls itself, through [_fancy_helper], on the lines
    before and on the lines after the pair it synchs on, and these calls
    are nested generators: the interpreter raises [RecursionError] when
    their nesting passes its recursion limit. [room] is the number of
    nested calls of [_fancy_replace] which that limit still admits when
    [compare] runs (with the default limit of 1000 frames and the two
    generator frames that a level takes, somewhat under 500). *)
Fixpoint _fancy_replace (room : nat) (a : list str) (b : list str)
    (alo ahi blo bhi : nat) : outcome (list str) :=
  match room with
  | O => Raise RecursionError
  | S room' =>
      '(best_ratio, best, eq) ← computed (fancy_search a alo ahi b blo bhi);
      let cutoff := 0.75%float in
      let synch (best_i best_j : nat) (identical : bool) : outcome (list str) :=
        before ← _fancy_helper (_fancy_replace room' a b) a alo best_i b blo best_j;
        aelt ← computed (a !! best_i);
        belt ← computed (b !! best_j);
        middle ←
          computed
            (if identical then Some [py "  " ++ aelt]
             else
               opcodes ← get_opcodes charjunk true aelt belt;
               let '(atags, btags) := foldl tags_step ([], []) opcodes in
               Some (_qformat aelt belt atags btags));
        after ← _fancy_helper (_fancy_replace room' a b) a (best_i + 1) ahi b (best_j + 1) bhi;
        Ok (before ++ middle ++ after) in
      if PrimFloat.ltb best_ratio cutoff then
        match eq with
        | None => computed (_plain_replace a alo ahi b blo bhi)
        | Some (eqi, eqj) => synch eqi eqj true
        end
      else
        '(best_i, best_j) ← computed best;
        synch best_i best_j false
  end.

Definition compare (room : nat) (a b : list str) : outcome (list str) :=
  opcodes ← computed (get_opcodes linejunk true a b);
  gs ←
    mapM (λ op : opcode,
            let '(tag, alo, ahi, blo, bhi) := op in
            match tag with
            | Replace => _fancy_replace room a b alo ahi blo bhi
            | Delete => computed (_dump (py "-") a alo ahi)
            | Insert => computed (_dump (py "+") b blo bhi)
            | Equal => computed (_dump (py " ") a alo ahi)
            end) opcodes;
  Ok (concat gs).

End Differ.
End Differ.
Local Open Scope Z_scope.

(** ** The data model (shapes of the parsed response bodies) *)

Record DataSource := { ds_id : Z; ds_type : str }.

Record Project := { project_id : Z }.

(** What a dict holds under a key it may lack: nothing, JSON null, or a
    string. *)
Inductive entry :=
| Missing
| Null
| Text (s : str).

Record TranslatedModel := {
  asset_name : str;
  source_sql : str;
  target_sql : entry;
  translation_status : str }.

Record TranslationJob := {
  status : str;
  translated_models : list TranslatedModel }.

(** What [response.json()] holds, by endpoint. *)
Inductive body :=
| OrgBody (api_token : str) (org_id : Z)
| DataSourcesBody (l : list DataSource)
| ProjectBody (p : Project)
| UploadBody
| TaskBody (task_id : Z)
| JobBody (r : TranslationJob).

Local Close Scope Z_scope.

(** ** The report: [_render_translated_model_as_html] and
    [_translation_results_html]

    The two functions have the same text in both modules, up to one
    character of the style sheet. *)

(** The [style] literal of [_translation_results_html]; the marker of a
    collapsed section is the only place where the two modules differ. *)
Definition style_html (marker : str) : str :=
  py "
    <style>
        .collapsible {
            background-color: #f1f1f1;
            color: #333;
            cursor: pointer;
            padding: 18px;
            width: 100%;
            border: 1px solid #ddd;
            text-align: left;
            outline: none;
            font-size: 16px;
            font-family: sans-serif;
            margin-top: 10px;
            transition: background-color 0.3s;
        }
        .collapsible:hover {
            background-color: #e0e0e0;
        }
        .collapsible.active {
            background-color: #d0d0d0;
        }
        .collapsible::before {
            content: '"
  ++ marker
  ++ py " ';
            display: inline-block;
            margin-right: 8px;
            transition: transform 0.3s;
        }
        .collapsible.active::before {
            transform: rotate(90deg);
        }
        .content {
            padding: 0 18px;
            max-height: 0;
            overflow: hidden;
            transition: max-height 0.3s ease-out;
            background-color: white;
        }
        .content.active {
            max-height: 10000px;
            padding: 18px;
        }
    </style>
    ".

(** The [script] literal of [_translation_results_html]. *)
Definition script_html : str :=
  py "
    <script>
        function toggleCollapse(element) {
            element.classList.toggle('active');
            const content = element.nextElementSibling;
            content.classList.toggle('active');
        }
    </script>
    ".

(** The f-string appended for a model. *)
Definition section_html (asset_name rendered : str) : str :=
  py "
        <button class="
  ++ dq
  ++ py "collapsible"
  ++ dq
  ++ py " onclick="
  ++ dq
  ++ py "toggleCollapse(this)"
  ++ dq
  ++ py ">
            "
  ++ asset_name
  ++ py "
        </button>
        <div class="
  ++ dq
  ++ py "content"
  ++ dq
  ++ py ">
            "
  ++ rendered
  ++ py "
        </div>
        ".

(** What is returned when there is no model. *)
Definition no_queries_message : str :=
  py "No queries were translated.".

(** The f-string [html] of [_render_translated_model_as_html]. *)
Definition model_html (status : str) (source_html target_html : list str) : str :=
  py "
    <style>
        .sql-container {
            display: flex;
            gap: 20px;
            font-family: monospace;
        }
        .sql-column {
            flex: 1;
            border: 1px solid #ddd;
            padding: 15px;
            background-color: #f5f5f5;
            overflow-x: auto;
        }
        .sql-column h3 {
            margin-top: 0;
            color: #333;
            font-family: sans-serif;
        }
        .line {
            font-size: 12px;
            line-height: 1.6;
            padding: 2px 4px;
            white-space: pre-wrap;
        }
        .unchanged {
            background-color: transparent;
        }
        .removed {
            background-color: #ffecec;
            color: #d73a49;
        }
        .added {
            background-color: #e6ffec;
            color: #22863a;
        }
    </style>

    <p>Translation Status: <span class="
  ++ dq
  ++ py "status"
  ++ dq
  ++ py ">"
  ++ status
  ++ py "</span></p>
    <div class="
  ++ dq
  ++ py "sql-container"
  ++ dq
  ++ py ">
        <div class="
  ++ dq
  ++ py "sql-column"
  ++ dq
  ++ py ">
            <h3>Snowflake SQL</h3>
            "
  ++ join source_html
  ++ py "
        </div>
        <div class="
  ++ dq
  ++ py "sql-column"
  ++ dq
  ++ py ">
            <h3>Databricks SQL</h3>
            "
  ++ join target_html
  ++ py "
        </div>
    </div>
    ".

(** The f-strings appended for the lines of the diff. *)
Definition unchanged_line (content : str) : str :=
  py "<div class="
  ++ dq
  ++ py "line unchanged"
  ++ dq
  ++ py ">"
  ++ content
  ++ py "</div>".

Definition removed_line (content : str) : str :=
  py "<div class="
  ++ dq
  ++ py "line removed"
  ++ dq
  ++ py ">"
  ++ content
  ++ py "</div>".

Definition added_line (content : str) : str :=
  py "<div class="
  ++ dq
  ++ py "line added"
  ++ dq
  ++ py ">"
  ++ content
  ++ py "</div>".

(** The body of the loop [while i < len(diff)]: every branch ends with
    [i += 1], so the loop visits the lines of [diff] in order. *)
Definition render_line (st : list str * list str) (line : str) : list str * list str :=
  let '(source_html, target_html) := st in
  if startswith line (py "  ") then
    let content := drop 2 line in
    (source_html ++ [unchanged_line content], target_html ++ [unchanged_line content])
  else if startswith line (py "- ") then
    let content := drop 2 line in
    (source_html ++ [removed_line content], target_html)
  else if startswith line (py "+ ") then
    let content := drop 2 line in
    (source_html, target_html ++ [added_line content])
  else if startswith line (py "? ") then (source_html, target_html)
  else (source_html, target_html).

(** [model['target_sql'] or '']: a missing key raises, null and the empty
    string give the empty string. *)
Definition target_sql_or_empty (model : TranslatedModel) : outcome str :=
  match target_sql model with
  | Missing => Raise (KeyError (py "target_sql"))
  | Null => Ok []
  | Text s => Ok s
  end.

(** [_render_translated_model_as_html] up to the end of its loop: the
    lines of the two texts, their diff, and the two columns
    [(source_html, target_html)]. [room] is the recursion room of the
    interpreter, see [Differ._fancy_replace]. *)
Definition source_lines_of (model : TranslatedModel) : list str :=
  splitlines (source_sql model).

Definition target_lines_of (model : TranslatedModel) : outcome (list str) :=
  target_sql ← target_sql_or_empty model;
  Ok (splitlines target_sql).

Definition diff_of (room : nat) (model : TranslatedModel) : outcome (list str) :=
  let source_lines := source_lines_of model in
  target_lines ← target_lines_of model;
  Differ.compare None None room source_lines target_lines.

Definition diff_columns (room : nat) (model : TranslatedModel)
    : outcome (list str * list str) :=
  diff ← diff_of room model;
  Ok (foldl render_line ([], []) diff).

Definition _render_translated_model_as_html (room : nat) (model : TranslatedModel)
    : outcome str :=
  let status := translation_status model in
  columns ← diff_columns room model;
  Ok (model_html status columns.1 columns.2).

(** [_translation_results_html]; [marker] is the character(s) of the
    style sheet in which the modules differ. *)
Definition translation_results_html (room : nat) (marker : str)
    (translation_results : TranslationJob) : outcome str :=
  html ← mapM (λ model,
                 let asset_name := asset_name model in
                 rendered ← _render_translated_model_as_html room model;
                 Ok (section_html asset_name rendered))
              (translated_models translation_results);
  if bool_decide (translated_models translation_results = []) then
    Ok no_queries_message
  else
    Ok (join (join [style_html marker; script_html] :: html)).

Definition _translation_results_html (room : nat) : TranslationJob → outcome str :=
  translation_results_html room [9654%N].

Local Open Scope Z_scope.
(** ** The world the module runs in *)

Inductive http_method := GET | POST.

Record request := {
  req_method : http_method;
  req_url : str;
  req_headers : gmap str str;
  req_json : option json }.

(** What the remote service does with the next request: it answers with a
    body, or the transport raises. *)
Inductive reply :=
| Answer (b : body)
| Fails (e : exn).

(** The two module globals, the remote service as the sequence of replies
    it is going to give, and what the module has done so far: the requests
    it sent, the sleeps it took, what it printed and what it displayed. *)
Record world := {
  _notebook_host : option str;
  _current_api_key : option str;
  script : list reply;
  calls : list request;
  sleeps : list Z;
  stdout : list str;
  displayed : list str }.

Definition M (A : Type) : Type := world → outcome A * world.

#[export] Instance M_ret : MRet M := λ A a w, (Ok a, w).
#[export] Instance M_bind : MBind M := λ A B f m w,
  match m w with
  | (Ok a, w') => f a w'
  | (Raise e, w') => (Raise e, w')
  | (NoAnswer, w') => (NoAnswer, w')
  end.

Definition raise {A} (e : exn) : M A := λ w, (Raise e, w).
Definition no_answer {A} : M A := λ w, (NoAnswer, w).

Definition set_notebook_host (h : option str) (w : world) : world :=
  {| _notebook_host := h; _current_api_key := _current_api_key w;
     script := script w; calls := calls w; sleeps := sleeps w;
     stdout := stdout w; displayed := displayed w |}.

Definition set_current_api_key (k : option str) (w : world) : world :=
  {| _notebook_host := _notebook_host w; _current_api_key := k;
     script := script w; calls := calls w; sleeps := sleeps w;
     stdout := stdout w; displayed := displayed w |}.

(** A call without effects, in a world. *)
Definition lift_pure {A} (o : outcome A) : M A := λ w, (o, w).

(** [print(s)] *)
Definition print (s : str) : M unit := λ w,
  (Ok (),
   {| _notebook_host := _notebook_host w; _current_api_key := _current_api_key w;
      script := script w; calls := calls w; sleeps := sleeps w;
      stdout := stdout w ++ [s]; displayed := displayed w |}).

(** [time.sleep(seconds)] for an [int]: the length is first converted
    to nanoseconds in 64 bits, where a length beyond 9223372036 seconds
    overflows; then a negative length is refused; then the platform is
    asked to sleep, and it refuses ([EINVAL]) a length that takes its
    clock past what it can hold. [longest_sleep] is the longest sleep the
    platform accepts during the run (on Linux, 9223372035 seconds less
    the monotonic clock). *)
Definition sleep (longest_sleep : Z) (seconds : Z) : M unit := λ w,
  if bool_decide (seconds < -9223372036 ∨ 9223372036 < seconds)
  then (Raise (OverflowError (py "timestamp too large to convert to C _PyTime_t")), w)
  else if bool_decide (seconds < 0)
  then (Raise (ValueError (py "sleep length must be non-negative")), w)
  else if bool_decide (longest_sleep < seconds)
  then (Raise (OSError 22 (py "Invalid argument")), w)
  else
  (Ok (),
   {| _notebook_host := _notebook_host w; _current_api_key := _current_api_key w;
      script := script w; calls := calls w; sleeps := sleeps w ++ [seconds];
      stdout := stdout w; displayed := displayed w |}).

(** [display(HTML(html))] *)
Definition display_HTML (html : str) : M unit := λ w,
  (Ok (),
   {| _notebook_host := _notebook_host w; _current_api_key := _current_api_key w;
      script := script w; calls := calls w; sleeps := sleeps w;
      stdout := stdout w; displayed := displayed w ++ [html] |}).

(** One round trip: the request is recorded and the next reply of the
    service is consumed. *)
Definition send (r : request) : M body := λ w,
  let w1 rest :=
    {| _notebook_host := _notebook_host w; _current_api_key := _current_api_key w;
       script := rest; calls := calls w ++ [r]; sleeps := sleeps w;
       stdout := stdout w; displayed := displayed w |} in
  match script w with
  | [] => (NoAnswer, w1 [])
  | Answer b :: rest => (Ok b, w1 rest)
  | Fails e :: rest => (Raise e, w1 rest)
  end.

(** [post_data(url, json_data=..., headers=...)] and
    [get_data(url, headers=...)] of the transport helpers, followed by
    [.json()]. *)
Definition post_data (url : str) (json_data : option json) (headers : gmap str str) : M body :=
  send {| req_method := POST; req_url := url; req_headers := headers; req_json := json_data |}.

Definition get_data (url : str) (headers : gmap str str) : M body :=
  send {| req_method := GET; req_url := url; req_headers := headers; req_json := None |}.

(** Field lookups on a parsed body; a body without the field raises. *)
Definition org_fields (b : body) : M (str * Z) :=
  match b with
  | OrgBody api_token org_id => mret (api_token, org_id)
  | _ => raise (KeyError (py "api_token"))
  end.

Definition data_sources_of (b : body) : M (list DataSource) :=
  match b with
  | DataSourcesBody l => mret l
  | _ => raise (KeyError (py "type"))
  end.

Definition project_field (b : body) : M Project :=
  match b with
  | ProjectBody p => mret p
  | _ => raise (KeyError (py "project"))
  end.

Definition task_id_field (b : body) : M Z :=
  match b with
  | TaskBody t => mret t
  | _ => raise (KeyError (py "task_id"))
  end.

Definition job_of (b : body) : M TranslationJob :=
  match b with
  | JobBody r => mret r
  | _ => raise (KeyError (py "status"))
  end.

(** ** The module [databricks_notebook] *)

Definition DEFAULT_HOST : str := py "https://app.datafold.com".

Definition _get_host (host : option str) : M str := λ w,
  match host with
  | Some h => (Ok h, set_notebook_host (Some h) w)
  | None =>
      match _notebook_host w with
      | Some h => (Ok h, w)
      | None => (Ok DEFAULT_HOST, w)
      end
  end.

Definition _set_current_api_key (api_key : str) : M unit := λ w,
  (Ok (), set_current_api_key (Some api_key) w).

(** The [payload] literal of [_upload_queries]. *)
Definition upload_payload (queries : list str) : json :=
  JDict [(py "files",
          JList ((λ iq : nat * str,
                    JDict [(py "filename",
                            JStr (py "query_" ++ str_of_int (Z.of_nat (fst iq) + 1) ++ py ".sql"));
                           (py "content", JStr (snd iq))])
                 <$> enumerate queries))].

(** The [payload] literal of [_create_dma_project]. *)
Definition project_payload (name : str) (source_ds_id target_ds_id : Z) : json :=
  JDict [(py "name", JStr name);
         (py "from_data_source_id", JInt source_ds_id);
         (py "to_data_source_id", JInt target_ds_id);
         (py "version", JInt 2);
         (py "settings",
          JDict [(py "error_on_zero_diff", JBool false);
                 (py "transform_group_creation_strategy", JStr (py "group_individual_operations"));
                 (py "experimental",
                  JDict [(py "import_sql_files_as_script_objects", JBool true);
                         (py "infer_schema_from_scripts", JBool true);
                         (py "generate_synthetic_data", JBool true)])])].

(** [[d for d in data_sources if ...][0]['id']] *)
Definition first_id (l : list DataSource) : M Z :=
  match l with
  | [] => raise IndexError
  | d :: _ => mret (ds_id d)
  end.

Definition select_source (data_sources : list DataSource) : M Z :=
  first_id (filter (λ d, ds_type d ≠ py "databricks") data_sources).

Definition select_target (data_sources : list DataSource) : M Z :=
  first_id (filter (λ d, ds_type d = py "databricks") data_sources).

Definition is_terminal (status : str) : bool :=
  bool_decide (status ∈ [py "done"; py "failed"]).

Section Module.
(** The helpers of [databricks_notebook.utils] that only build values;
    the module treats their results as opaque. *)
Variable prepare_api_url : str → str → str.
Variable prepare_headers : str → gmap str str.
(** The recursion room of the interpreter in which the module runs, see
    [Differ._fancy_replace], and the longest sleep of its platform, see
    [sleep]. *)
Variable room : nat.
Variable longest_sleep : Z.

Definition json_headers (api_key : str) : gmap str str :=
  <[py "Content-Type" := py "application/json"]> (prepare_headers api_key).

Definition create_organization (org_token : str) (host : option str) : M (str * Z) :=
  host ← _get_host host;
  let url := prepare_api_url host (py "org") in
  let headers : gmap str str :=
    <[py "Authorization" := py "Bearer " ++ org_token]>
      (<[py "Content-Type" := py "application/json"]> ∅) in
  _ ← print (py "Creating Organization...");
  response ← post_data url None headers;
  result ← org_fields response;
  let api_key := result.1 in
  _ ← _set_current_api_key api_key;
  let org_id := result.2 in
  _ ← print (py "Organization created with id " ++ str_of_int org_id);
  mret (api_key, org_id).

Definition _get_current_api_key (org_token : option str) (host : option str)
  : M (option str) := λ w,
  match _current_api_key w with
  | Some k => (Ok (Some k), w)
  | None =>
      match org_token with
      | Some org_token =>
          (host ← _get_host host;
           r ← create_organization org_token (Some host);
           _ ← _set_current_api_key r.1;
           mret (Some r.1)) w
      | None => (Ok None, w)
      end
  end.

Definition _get_data_sources (api_key : str) (host : option str) : M (list DataSource) :=
  host ← _get_host host;
  let url := prepare_api_url host (py "api/v1/data_sources") in
  let headers := prepare_headers api_key in
  response ← get_data url headers;
  data_sources_of response.

Definition _create_dma_project (api_key : str) (source_ds_id target_ds_id : Z)
    (name : str) (host : option str) : M Project :=
  host ← _get_host host;
  let url := prepare_api_url host (py "api/internal/dma/projects") in
  let headers := json_headers api_key in
  let payload := project_payload name source_ds_id target_ds_id in
  response ← post_data url (Some payload) headers;
  project_field response.

Definition _upload_queries (api_key : str) (project_id : Z) (queries : list str)
    (host : option str) : M body :=
  host ← _get_host host;
  let url := prepare_api_url host
    (py "api/internal/dma/v2/projects/" ++ str_of_int project_id ++ py "/files") in
  let headers := json_headers api_key in
  let payload := upload_payload queries in
  post_data url (Some payload) headers.

Definition _start_translation (api_key : str) (project_id : Z) (host : option str) : M Z :=
  host ← _get_host host;
  let url := prepare_api_url host
    (py "api/internal/dma/v2/projects/" ++ str_of_int project_id ++ py "/translate/jobs") in
  let headers := json_headers api_key in
  response ← post_data url (Some (JDict [(py "project_id", JInt project_id)])) headers;
  task_id_field response.

(** The [while True] loop of [_wait_for_translation_results]. Every turn
    consumes one reply, so the loop is run on the number of replies the
    service still gives; with none left it waits for ever. *)
Fixpoint poll (turns : nat) (url : str) (headers : gmap str str) (poll_interval : Z)
  : M TranslationJob :=
  match turns with
  | O => no_answer
  | S turns' =>
      response ← get_data url headers;
      result ← job_of response;
      let status := status result in
      if is_terminal status then mret result
      else _ ← sleep longest_sleep poll_interval; poll turns' url headers poll_interval
  end.

Definition _wait_for_translation_results (api_key : str) (project_id translation_id : Z)
    (poll_interval : Z) (host : option str) : M TranslationJob :=
  host ← _get_host host;
  let url := prepare_api_url host
    (py "api/internal/dma/v2/projects/" ++ str_of_int project_id
     ++ py "/translate/jobs/" ++ str_of_int translation_id) in
  let headers := json_headers api_key in
  ((λ w, poll (S (length (script w))) url headers poll_interval w) : M TranslationJob).

Definition translate_queries (api_key : str) (queries : list str) (host : option str)
  : M (Z * Z) :=
  host ← _get_host host;
  data_sources ← _get_data_sources api_key (Some host);
  source_data_source_id ← select_source data_sources;
  target_data_source_id ← select_target data_sources;
  _ ← print (py "Creating Translation Project...");
  project ← _create_dma_project api_key source_data_source_id target_data_source_id
              (py "Databricks Notebook Project") (Some host);
  let project_id := project_id project in
  _ ← print (py "Translation Project created with id " ++ str_of_int project_id ++ py ".");
  _ ← print (py "Uploading queries to translate...");
  _ ← _upload_queries api_key project_id queries (Some host);
  _ ← print (py "Uploaded queries to translate.");
  translation_id ← _start_translation api_key project_id (Some host);
  _ ← print (py "Started translation with id " ++ str_of_int translation_id);
  mret (project_id, translation_id).

Definition view_translation_results_as_html (api_key : str) (project_id translation_id : Z)
    (host : option str) : M str :=
host ← _get_host host;
_ ← print (py "Waiting for Translation Results...");
translation_results ←
  _wait_for_translation_results api_key project_id translation_id 5 (Some host);
_ ← print (py "Translation Results:");
lift_pure (_translation_results_html room translation_results).

Definition translate_queries_and_render_results (queries : list str)
    (org_token : option str) (host : option str) : M unit :=
api_key ← _get_current_api_key org_token host;
match api_key with
| None =>
    raise (ValueError (py "API key is not set. Please call create_organization or set the API key manually."))
| Some api_key =>
    r ← translate_queries api_key queries host;
    let project_id := r.1 in
    let translation_id := r.2 in
    html ← view_translation_results_as_html api_key project_id translation_id None;
    display_HTML html
end.

End Module.

(** ** The older module [notebook.py]

    The same operations without the host cache: the host is a required
    first argument and is used as it is given. *)
Module Notebook.
Section Module.
Variable prepare_api_url : str → str → str.
Variable prepare_headers : str → gmap str str.
(** The recursion room of the interpreter in which the module runs, see
    [Differ._fancy_replace], and the longest sleep of its platform, see
    [sleep]. *)
Variable room : nat.
Variable longest_sleep : Z.

Definition create_organization (host : str) (org_token : str) : M (str * Z) :=
  let url := prepare_api_url host (py "org") in
  let headers : gmap str str :=
    <[py "Authorization" := py "Bearer " ++ org_token]>
      (<[py "Content-Type" := py "application/json"]> ∅) in
  _ ← print (py "Creating organization...");
  response ← post_data url None headers;
  result ← org_fields response;
  let api_key := result.1 in
  let org_id := result.2 in
  _ ← print (py "Organization created with id " ++ str_of_int org_id);
  mret (api_key, org_id).

Definition _get_data_sources (host : str) (api_key : str) : M (list DataSource) :=
  let url := prepare_api_url host (py "api/v1/data_sources") in
  let headers := prepare_headers api_key in
  response ← get_data url headers;
  data_sources_of response.

Definition _create_dma_project (host : str) (api_key : str)
    (source_ds_id target_ds_id : Z) (name : str) : M Project :=
  let url := prepare_api_url host (py "api/internal/dma/projects") in
  let headers := json_headers prepare_headers api_key in
  let payload := project_payload name source_ds_id target_ds_id in
  response ← post_data url (Some payload) headers;
  project_field response.

Definition _upload_queries (host : str) (api_key : str) (project_id : Z)
    (queries : list str) : M body :=
  let url := prepare_api_url host
    (py "api/internal/dma/v2/projects/" ++ str_of_int project_id ++ py "/files") in
  let headers := json_headers prepare_headers api_key in
  let payload := upload_payload queries in
  post_data url (Some payload) headers.

Definition _start_translation (host : str) (api_key : str) (project_id : Z) : M Z :=
  let url := prepare_api_url host
    (py "api/internal/dma/v2/projects/" ++ str_of_int project_id ++ py "/translate/jobs") in
  let headers := json_headers prepare_headers api_key in
  response ← post_data url (Some (JDict [(py "project_id", JInt project_id)])) headers;
  task_id_field response.

Definition _wait_for_translation_results (host : str) (api_key : str)
    (project_id translation_id : Z) (poll_interval : Z) : M TranslationJob :=
  let url := prepare_api_url host
    (py "api/internal/dma/v2/projects/" ++ str_of_int project_id
     ++ py "/translate/jobs/" ++ str_of_int translation_id) in
  let headers := json_headers prepare_headers api_key in
  λ w, poll longest_sleep (S (length (script w))) url headers poll_interval w.

Definition translate_queries (host : str) (api_key : str) (queries : list str)
  : M (Z * Z) :=
  data_sources ← _get_data_sources host api_key;
  source_data_source_id ← select_source data_sources;
  target_data_source_id ← select_target data_sources;
  _ ← print (py "Creating project...");
  project ← _create_dma_project host api_key source_data_source_id target_data_source_id
              (py "Databricks Notebook Project");
  let project_id := project_id project in
  _ ← print (py "Project created with id " ++ str_of_int project_id);
  _ ← print (py "Uploading queries to translate...");
  _ ← _upload_queries host api_key project_id queries;
  _ ← print (py "Queries uploaded");
  translation_id ← _start_translation host api_key project_id;
  _ ← print (py "Started translation with id " ++ str_of_int translation_id);
  mret (project_id, translation_id).

Definition _translation_results_html : TranslationJob → outcome str :=
  translation_results_html room [226%N; 8211%N; 182%N].

Definition view_translation_results_as_html (host : str) (api_key : str)
    (project_id translation_id : Z) : M str :=
  _ ← print (py "Waiting for translation results...");
  translation_results ← _wait_for_translation_results host api_key project_id translation_id 5;
  _ ← print (py "Translation results:");
  lift_pure (_translation_results_html translation_results).

End Module.
End Notebook.

(** ** Runs and statements *)

(** The module state at import time: both globals are [None] and nothing
    has happened yet. *)
Definition initial_world (service : list reply) : world :=
  {| _notebook_host := None; _current_api_key := None; script := service;
     calls := []; sleeps := []; stdout := []; displayed := [] |}.



(** The lengths [time.sleep] accepts for an [int] number of seconds, on a
    platform whose longest sleep is [longest_sleep]. *)
Definition sleepable (longest_sleep : Z) (seconds : Z) : Prop :=
  0 ≤ seconds ∧ seconds ≤ 9223372036 ∧ seconds ≤ longest_sleep.

(** What a caller of the polling operation can rely on: a result that is
    returned carries a terminal status; and once the service answers with
    a terminal status, after any number of other statuses, that very
    result is returned (not raised), one fetch per status seen and one
    sleep per non-terminal status. The poll interval has to be one that
    [time.sleep] accepts as soon as there is a status to wait after. *)
Definition polls_until_terminal (longest_sleep : Z) (poll_interval : Z)
    (wait : M TranslationJob) : Prop :=
  (∀ w r w', wait w = (Ok r, w') → status r = py "done" ∨ status r = py "failed")
  ∧ (∀ w pending r rest,
       script w = (Answer ∘ JobBody <$> pending) ++ Answer (JobBody r) :: rest →
       Forall (λ j, status j ≠ py "done" ∧ status j ≠ py "failed") pending →
       status r = py "done" ∨ status r = py "failed" →
       (pending ≠ [] → sleepable longest_sleep poll_interval) →
       ∃ w', wait w = (Ok r, w') ∧ script w' = rest
             ∧ sleeps w' = sleeps w ++ replicate (length pending) poll_interval
             ∧ ∃ fetches, calls w' = calls w ++ fetches
                          ∧ length fetches = S (length pending)).

Definition job (s : string) (models : list TranslatedModel) : TranslationJob :=
  {| status := py s; translated_models := models |}.

Definition snowflake_and_databricks : list DataSource :=
  [ {| ds_id := 1; ds_type := py "snowflake" |};
    {| ds_id := 2; ds_type := py "databricks" |} ].

(** The body of the request that creates the project: the second request
    [translate_queries] sends. *)
Definition project_request (w : world) : option json :=
  r ← calls w !! 1%nat; req_json r.

(** What [translate_queries] does against a service that answers its four
    requests: it returns the project and task ids, and it has created the
    project from [source] to [target]. *)
Definition translates_from_to (data_sources : list DataSource) (source target : Z)
    (run : M (Z * Z)) : Prop :=
  ∀ p t, ∃ w',
    run (initial_world [Answer (DataSourcesBody data_sources); Answer (ProjectBody p);
                            Answer UploadBody; Answer (TaskBody t)])
    = (Ok (project_id p, t), w')
    ∧ project_request w'
      = Some (project_payload (py "Databricks Notebook Project") source target).

(** The file entry the payload holds for the query at (0-based) position
    [i]. *)
Definition query_file (i : nat) (query : str) : json :=
  JDict [(py "filename", JStr (py "query_" ++ str_of_int (Z.of_nat i + 1) ++ py ".sql"));
         (py "content", JStr query)].

(** What [_upload_queries] does with a list of queries: against a service
    that answers, it returns the answer, having sent a single POST whose
    body holds one file per query, in input order, the file at 0-based
    position [i] being named [query_<i+1>.sql] and holding query [i]. *)
Definition uploads_one_file_per_query (queries : list str) (upload : M body) : Prop :=
  ∀ w b rest, script w = Answer b :: rest →
    ∃ w' r files,
      upload w = (Ok b, w')
      ∧ calls w' = calls w ++ [r]
      ∧ req_method r = POST
      ∧ req_json r = Some (JDict [(py "files", JList files)])
      ∧ length files = length queries
      ∧ ∀ i, files !! i = query_file i <$> queries !! i.


Local Close Scope Z_scope.

(** [l[lo:hi]] *)
Definition slice {X} (lo hi : nat) (l : list X) : list X := take (hi - lo) (drop lo l).

(** The two columns the loop of the renderer builds from a diff. *)
Definition cols (diff : list str) : list str * list str := foldl render_line ([], []) diff.

(** The source column shows exactly the lines [la], each once and in
    order, as unchanged or removed; the target column shows exactly the
    lines [lb], as unchanged or added. *)
Definition shows (columns : list str * list str) (la lb : list str) : Prop :=
  Forall2 (λ html line, html = unchanged_line line ∨ html = removed_line line) columns.1 la
  ∧ Forall2 (λ html line, html = unchanged_line line ∨ html = added_line line) columns.2 lb.

Definition renders (diff : list str) (la lb : list str) : Prop := shows (cols diff) la lb.

Local Open Scope Z_scope.

Local Close Scope Z_scope.

(** What a call of the differ on the lines [la] and [lb] comes to: it
    returns a diff that renders both sequences, or it raises
    [RecursionError], which needs more lines on both sides than the
    recursion room [room] holds. Nothing else happens. *)
Definition settles (room : nat) (o : outcome (list str)) (la lb : list str) : Prop :=
  (∃ d, o = Ok d ∧ renders d la lb)
  ∨ (o = Raise RecursionError ∧ room < min (length la) (length lb)).

Local Open Scope Z_scope.

(** The diff of [model] fits in the recursion room: the model has the key
    [target_sql] and the shorter of its two texts has at most [room]
    lines. *)
Definition renderable (room : nat) (model : TranslatedModel) : Prop :=
  ∃ target_lines,
    target_lines_of model = Ok target_lines
    ∧ (min (length (source_lines_of model)) (length target_lines) ≤ room)%nat.

(** Two lines that differ in one letter. *)
Definition line_a : str := py "SELECT col_a FROM t".
Definition line_b : str := py "SELECT col_b FROM t".

(** The ratio of the two similar lines. *)
Definition similar_ratio : float :=
  Eval vm_compute in default 0%float (ratio None true line_a line_b).

(** A source of [n] times the first line and a target of [n] times the
    second: the differ synchs on the first pair and recurses on the
    [n - 1] pairs that follow, and so on, [n] levels deep. *)
Definition similar_lines (n : nat) : TranslatedModel :=
  {| asset_name := py "q";
     source_sql := join (replicate n (line_a ++ [10%N]));
     target_sql := Text (join (replicate n (line_b ++ [10%N])));
     translation_status := py "done" |}.

(** A model without the key [target_sql]. *)
Definition no_target_key : TranslatedModel :=
  {| asset_name := py "q"; source_sql := py "SELECT 1"; target_sql := Missing;
     translation_status := py "failed" |}.

(** [html] is the [div] of an unchanged line. *)
Definition is_unchanged (html : str) : bool :=
  startswith html (py "<div class=" ++ dq ++ py "line unchanged" ++ dq ++ py ">").

Local Open Scope Z_scope.

(** The host an operation uses in world [w] when it is called with
    [host]. *)
Definition resolved_host (host : option str) (w : world) : str :=
  match host with
  | Some h => h
  | None => default DEFAULT_HOST (_notebook_host w)
  end.

Definition GET_request (url : str) (headers : gmap str str) : request :=
  {| req_method := GET; req_url := url; req_headers := headers; req_json := None |}.

Definition POST_request (url : str) (headers : gmap str str) (body : option json) : request :=
  {| req_method := POST; req_url := url; req_headers := headers; req_json := body |}.

(** The four requests of [translate_queries], for the host [h], the ids
    [source] and [target] it selected and the project the service
    created. *)
Definition translation_requests (prepare_api_url : str → str → str)
    (prepare_headers : str → gmap str str) (h api_key : str) (queries : list str)
    (source target project : Z) : list request :=
  [ GET_request (prepare_api_url h (py "api/v1/data_sources")) (prepare_headers api_key);
    POST_request (prepare_api_url h (py "api/internal/dma/projects"))
      (json_headers prepare_headers api_key)
      (Some (project_payload (py "Databricks Notebook Project") source target));
    POST_request
      (prepare_api_url h
         (py "api/internal/dma/v2/projects/" ++ str_of_int project ++ py "/files"))
      (json_headers prepare_headers api_key) (Some (upload_payload queries));
    POST_request
      (prepare_api_url h
         (py "api/internal/dma/v2/projects/" ++ str_of_int project ++ py "/translate/jobs"))
      (json_headers prepare_headers api_key)
      (Some (JDict [(py "project_id", JInt project)])) ].

(** The path polled for a translation job. *)
Definition job_path (project_id translation_id : Z) : str :=
  py "api/internal/dma/v2/projects/" ++ str_of_int project_id
  ++ py "/translate/jobs/" ++ str_of_int translation_id.

(** The headers of the request that creates the organization. *)
Definition org_headers (org_token : str) : gmap str str :=
  <[py "Authorization" := py "Bearer " ++ org_token]>
    (<[py "Content-Type" := py "application/json"]> ∅).




(** The file names of an upload payload. *)
Definition uploaded_filenames (payload : json) : list str :=
  match payload with
  | JDict [(_, JList files)] =>
      omap (λ file, match file with
                    | JDict ((_, JStr name) :: _) => Some name
                    | _ => None
                    end) files
  | _ => []
  end.

(** What displaying a report comes to: the run ends as the rendering of
    the report did, and only a rendered report is displayed. *)
Definition after_display (report : outcome str) : outcome unit :=
  _ ← report; Ok ().

Definition displayed_report (report : outcome str) : list str :=
  match report with
  | Ok html => [html]
  | _ => []
  end.

(** The exception of [time.sleep] for a length that it refuses before it
    asks the platform: one that is negative, or beyond 9223372036 seconds
    either way. *)
Definition sleep_error (seconds : Z) : exn :=
  if bool_decide (seconds < -9223372036 ∨ 9223372036 < seconds)
  then OverflowError (py "timestamp too large to convert to C _PyTime_t")
  else ValueError (py "sleep length must be non-negative").
(** * Properties *)

Arguments py : simpl never.
Arguments str_of_int : simpl never.

Ltac munfold :=
  unfold mbind, M_bind, mret, M_ret, raise, no_answer in *.

(** ** The host cache *)



Lemma set_notebook_host_same w : set_notebook_host (_notebook_host w) w = w.
Proof. by destruct w. Qed.

Lemma get_host_world host w :
  ∃ h, _get_host host w
       = (Ok h, set_notebook_host (from_option Some (_notebook_host w) host) w).
Proof.
  destruct host as [h|]; [by exists h|]. unfold _get_host. cbn.
  rewrite set_notebook_host_same. destruct (_notebook_host w); eauto.
Qed.




(** ** Polling *)

Lemma is_terminal_spec s :
  is_terminal s = true ↔ s = py "done" ∨ s = py "failed".
Proof.
  unfold is_terminal.
  rewrite bool_decide_eq_true !elem_of_cons elem_of_nil. tauto.
Qed.

Lemma is_terminal_false s :
  is_terminal s = false ↔ s ≠ py "done" ∧ s ≠ py "failed".
Proof.
  rewrite -not_true_iff_false is_terminal_spec. tauto.
Qed.

Lemma poll_returns_terminal longest turns url headers iv w r w' :
  poll longest turns url headers iv w = (Ok r, w') → is_terminal (status r) = true.
Proof.
  revert w. induction turns as [|n IH]; intros w; cbn [poll]; munfold; [done|].
  unfold get_data, send. destruct (script w) as [|[b|e] rest]; [done| |done].
  destruct b as [? ?|?|?| |?|j]; try done. cbn [job_of]. munfold.
  destruct (is_terminal (status j)) eqn:E.
  - intros H. by simplify_eq.
  - unfold sleep. do 3 (case_bool_decide; [done|]). apply IH.
Qed.

Lemma sleep_run (longest seconds : Z) (w : world) :
  sleepable longest seconds →
  sleep longest seconds w
  = (Ok (),
     {| _notebook_host := _notebook_host w; _current_api_key := _current_api_key w;
        script := script w; calls := calls w; sleeps := sleeps w ++ [seconds];
        stdout := stdout w; displayed := displayed w |}).
Proof.
  intros (Hlo & Hhi & Hlongest). unfold sleep.
  rewrite bool_decide_eq_false_2; [lia|]. rewrite bool_decide_eq_false_2; [lia|].
  by rewrite bool_decide_eq_false_2; [lia|].
Qed.

Lemma poll_run longest url headers iv pending : ∀ turns w r rest,
  script w = (Answer ∘ JobBody <$> pending) ++ Answer (JobBody r) :: rest →
  Forall (λ j, is_terminal (status j) = false) pending →
  is_terminal (status r) = true →
  (pending ≠ [] → sleepable longest iv) →
  (length pending < turns)%nat →
  poll longest turns url headers iv w
  = (Ok r,
     {| _notebook_host := _notebook_host w; _current_api_key := _current_api_key w;
        script := rest;
        calls := calls w ++ replicate (S (length pending))
                   {| req_method := GET; req_url := url; req_headers := headers;
                      req_json := None |};
        sleeps := sleeps w ++ replicate (length pending) iv;
        stdout := stdout w; displayed := displayed w |}).
Proof.
  induction pending as [|j pending IH]; intros turns w r rest Hs Hp Hr Hiv Hlt;
    (destruct turns as [|turns]; [simpl in Hlt; lia|]);
    cbn [poll]; munfold; unfold get_data, send; rewrite Hs; cbn.
  - rewrite Hr. by rewrite app_nil_r.
  - apply Forall_cons in Hp as [Hj Hp]. rewrite Hj.
    rewrite sleep_run; [by apply Hiv|].
    erewrite IH; [|done|done|done|by intros _; apply Hiv|simpl in Hlt; lia].
    cbn. by rewrite -!app_assoc.
Qed.

Lemma poll_polls_until_terminal longest (url : world → str) headers iv
    (f : world → world) :
  (∀ w, script (f w) = script w ∧ sleeps (f w) = sleeps w ∧ calls (f w) = calls w) →
  polls_until_terminal longest iv
    (λ w, poll longest (S (length (script (f w)))) (url w) headers iv (f w)).
Proof.
  intros Hf. split.
  - intros w r w' H. apply is_terminal_spec. by eapply poll_returns_terminal.
  - intros w pending r rest Hs Hp Hr Hiv.
    destruct (Hf w) as (Hfs & Hfl & Hfc).
    eexists. split; [|split; [|split]].
    + apply poll_run; [by rewrite Hfs| |by apply is_terminal_spec|done|].
      * eapply Forall_impl; [done|]. intros j. by rewrite is_terminal_false.
      * rewrite Hfs Hs length_app length_fmap /=. lia.
    + done.
    + by rewrite /= Hfl.
    + eexists. split; [by rewrite /= Hfc|]. by rewrite /= length_replicate.
Qed.

Lemma polls_until_terminal_ext longest iv (wait wait' : M TranslationJob) :
  (∀ w, wait w = wait' w) →
  polls_until_terminal longest iv wait' → polls_until_terminal longest iv wait.
Proof.
  intros E [H1 H2]. split.
  - intros w r w'. rewrite E. apply H1.
  - intros w pending r rest Hs Hp Hr Hiv.
    destruct (H2 w pending r rest Hs Hp Hr Hiv) as (w' & Hw & Hrest).
    exists w'. by rewrite E.
Qed.

Lemma wait_polls_until_terminal
    (prepare_api_url : str → str → str) (prepare_headers : str → gmap str str)
    (longest_sleep : Z)
    (api_key : str) (project_id translation_id poll_interval : Z) (h : str) :
  (∀ host,
     polls_until_terminal longest_sleep poll_interval
       (_wait_for_translation_results prepare_api_url prepare_headers longest_sleep
          api_key project_id translation_id poll_interval host))
  ∧ polls_until_terminal longest_sleep poll_interval
      (Notebook._wait_for_translation_results prepare_api_url prepare_headers longest_sleep
         h api_key project_id translation_id poll_interval).
Proof.
  split.
  - intros host.
    eapply polls_until_terminal_ext;
      [|apply (poll_polls_until_terminal longest_sleep
                 (λ w, prepare_api_url
                         (from_option id (default DEFAULT_HOST (_notebook_host w)) host)
                         (py "api/internal/dma/v2/projects/" ++ str_of_int project_id
                          ++ py "/translate/jobs/" ++ str_of_int translation_id))
                 (json_headers prepare_headers api_key) poll_interval
                 (λ w, set_notebook_host (from_option Some (_notebook_host w) host) w));
        done].
    intros w. unfold _wait_for_translation_results. munfold.
    destruct host as [x|]; [done|]. unfold _get_host. cbn.
    rewrite set_notebook_host_same. by destruct (_notebook_host w).
  - apply (poll_polls_until_terminal longest_sleep (λ _, _) _ _ id). done.
Qed.

(** C1. The polling operation, in both modules, returns only a result
    whose status is "done" or "failed"; and a "failed" (or "done") status
    met after any number of other statuses is returned as a normal
    result, never raised, with one sleep per non-terminal status seen
    (the poll interval being one that [time.sleep] and the platform
    accept when there is such a status; a terminal first status is
    returned for any interval). *)
Theorem polling_returns_only_terminal_status
    (prepare_api_url : str → str → str) (prepare_headers : str → gmap str str)
    (longest_sleep : Z)
    (api_key : str) (project_id translation_id poll_interval : Z) (h : str) :
  (∀ host,
     polls_until_terminal longest_sleep poll_interval
       (_wait_for_translation_results prepare_api_url prepare_headers longest_sleep
          api_key project_id translation_id poll_interval host))
  ∧ polls_until_terminal longest_sleep poll_interval
      (Notebook._wait_for_translation_results prepare_api_url prepare_headers longest_sleep
         h api_key project_id translation_id poll_interval).
Proof. apply wait_polls_until_terminal. Qed.

Lemma polling_returns_only_terminal_status_witness :
  ∃ w', _wait_for_translation_results (λ host path, host ++ py "/" ++ path) (λ _, ∅)
          9000000000 (py "key") 7 9 5 None
          (initial_world [Answer (JobBody (job "running" [])); Answer (JobBody (job "failed" []))])
        = (Ok (job "failed" []), w')
        ∧ sleeps w' = [5].
Proof.
  destruct (polling_returns_only_terminal_status
              (λ host path, host ++ py "/" ++ path) (λ _, ∅) 9000000000 (py "key") 7 9 5 [])
    as [Hpkg _].
  destruct (Hpkg None) as [_ Hrun].
  destruct (Hrun (initial_world [Answer (JobBody (job "running" []));
                                 Answer (JobBody (job "failed" []))])
              [job "running" []] (job "failed" []) [])
    as (w' & Hw & _ & Hsl & _).
  - reflexivity.
  - repeat constructor; discriminate.
  - right; reflexivity.
  - intros _. unfold sleepable. lia.
  - exists w'. split; [exact Hw|exact Hsl].
Defined.

(** C2. For the statuses pending, pending, done returned by three
    successive fetches, and a poll interval that [time.sleep] accepts,
    the polling operation of both modules fetches exactly three times,
    sleeps exactly twice (for the poll interval) and returns the result
    whose status is "done". *)
Theorem polling_pending_pending_done
    (prepare_api_url : str → str → str) (prepare_headers : str → gmap str str)
    (longest_sleep : Z)
    (api_key : str) (project_id translation_id poll_interval : Z)
    (host : option str) (h : str) (m1 m2 m3 : list TranslatedModel) (w : world) :
  sleepable longest_sleep poll_interval →
  script w = [Answer (JobBody (job "pending" m1)); Answer (JobBody (job "pending" m2));
              Answer (JobBody (job "done" m3))] →
  ∀ wait,
    wait = _wait_for_translation_results prepare_api_url prepare_headers longest_sleep
             api_key project_id translation_id poll_interval host
    ∨ wait = Notebook._wait_for_translation_results prepare_api_url prepare_headers
               longest_sleep h api_key project_id translation_id poll_interval →
    ∃ w' r1 r2 r3,
      wait w = (Ok (job "done" m3), w')
      ∧ calls w' = calls w ++ [r1; r2; r3]
      ∧ sleeps w' = sleeps w ++ [poll_interval; poll_interval]
      ∧ script w' = [].
Proof.
  intros Hiv Hs wait Hwait.
  assert (polls_until_terminal longest_sleep poll_interval wait) as [_ Hrun].
  { destruct (wait_polls_until_terminal prepare_api_url prepare_headers longest_sleep api_key
                project_id translation_id poll_interval h) as [H1 H2].
    by destruct Hwait as [-> | ->]. }
  destruct (Hrun w [job "pending" m1; job "pending" m2] (job "done" m3) [])
    as (w' & Hw & Hrest & Hsl & fetches & Hc & Hlen); [done| |by left|by intros _|].
  { repeat constructor; discriminate. }
  destruct fetches as [|r1 [|r2 [|r3 [|]]]]; try discriminate.
  by exists w', r1, r2, r3.
Qed.

Lemma polling_pending_pending_done_witness :
  ∃ w' r1 r2 r3,
    _wait_for_translation_results (λ host path, host ++ py "/" ++ path) (λ _, ∅)
      9000000000 (py "key") 7 9 5 None
      (initial_world [Answer (JobBody (job "pending" [])); Answer (JobBody (job "pending" []));
                      Answer (JobBody (job "done" []))])
    = (Ok (job "done" []), w')
    ∧ calls w' = [r1; r2; r3] ∧ sleeps w' = [5; 5] ∧ script w' = [].
Proof.
  apply (polling_pending_pending_done (λ host path, host ++ py "/" ++ path) (λ _, ∅)
           9000000000 (py "key") 7 9 5 None [] [] [] []
           (initial_world [Answer (JobBody (job "pending" [])); Answer (JobBody (job "pending" []));
                           Answer (JobBody (job "done" []))]));
    [unfold sleepable; lia|reflexivity|left; reflexivity].
Defined.

(** ** Data source selection *)

Lemma filter_first {A} (P : A → Prop) `{∀ x, Decision (P x)} before d after :
  Forall (λ x, ¬ P x) before → P d →
  ∃ l, filter P (before ++ d :: after) = d :: l.
Proof.
  intros Hb Hd. induction Hb as [|x before Hx Hb IH].
  - rewrite /= filter_cons_True //. eauto.
  - by rewrite /= filter_cons_False.
Qed.

Lemma select_source_first before d after w :
  Forall (λ x, ds_type x = py "databricks") before →
  ds_type d ≠ py "databricks" →
  select_source (before ++ d :: after) w = (Ok (ds_id d), w).
Proof.
  intros Hb Hd. unfold select_source.
  destruct (filter_first (λ x, ds_type x ≠ py "databricks") before d after)
    as [l ->]; [|done..].
  eapply Forall_impl; [done|]. naive_solver.
Qed.

Lemma select_target_first before d after w :
  Forall (λ x, ds_type x ≠ py "databricks") before →
  ds_type d = py "databricks" →
  select_target (before ++ d :: after) w = (Ok (ds_id d), w).
Proof.
  intros Hb Hd. unfold select_target.
  by destruct (filter_first (λ x, ds_type x = py "databricks") before d after)
    as [l ->].
Qed.

Arguments project_payload : simpl never.
Arguments upload_payload : simpl never.
Arguments select_source : simpl never.
Arguments select_target : simpl never.

(** C6. [translate_queries], in both modules, takes as source the id of
    the first data source whose type is not "databricks" and as target the
    id of the first one whose type is "databricks", and creates the
    project from the one to the other. *)
Theorem data_source_selection_first_match
    (prepare_api_url : str → str → str) (prepare_headers : str → gmap str str)
    (api_key : str) (queries : list str) (host : option str) (h : str)
    (data_sources before_s after_s before_t after_t : list DataSource)
    (s t : DataSource) :
  data_sources = before_s ++ s :: after_s →
  Forall (λ x, ds_type x = py "databricks") before_s →
  ds_type s ≠ py "databricks" →
  data_sources = before_t ++ t :: after_t →
  Forall (λ x, ds_type x ≠ py "databricks") before_t →
  ds_type t = py "databricks" →
  translates_from_to data_sources (ds_id s) (ds_id t)
    (translate_queries prepare_api_url prepare_headers api_key queries host)
  ∧ translates_from_to data_sources (ds_id s) (ds_id t)
      (Notebook.translate_queries prepare_api_url prepare_headers h api_key queries).
Proof.
  intros Hs Hbs Hts Ht Hbt Htt.
  assert (∀ w, select_source data_sources w = (Ok (ds_id s), w)) as Hsrc.
  { intros w. rewrite Hs. by apply select_source_first. }
  assert (∀ w, select_target data_sources w = (Ok (ds_id t), w)) as Htgt.
  { intros w. rewrite Ht. by apply select_target_first. }
  split; intros p tid.
  - unfold translate_queries, _get_data_sources, _create_dma_project, _upload_queries,
      _start_translation.
    munfold. destruct host as [x|]; cbn; rewrite Hsrc Htgt; cbn; eauto.
  - unfold Notebook.translate_queries, Notebook._get_data_sources,
      Notebook._create_dma_project, Notebook._upload_queries, Notebook._start_translation.
    munfold. cbn. rewrite Hsrc Htgt. cbn. eauto.
Qed.

(** For the sources [{id:1,type:"snowflake"},{id:2,type:"databricks"}] the
    source id resolves to 1 and the target id to 2. *)
Lemma data_source_selection_first_match_witness :
  translates_from_to snowflake_and_databricks 1 2
    (translate_queries (λ host path, host ++ path) (λ _, ∅) (py "key")
              [py "SELECT 1"] None)
  ∧ translates_from_to snowflake_and_databricks 1 2
      (Notebook.translate_queries (λ host path, host ++ path) (λ _, ∅)
                DEFAULT_HOST (py "key") [py "SELECT 1"]).
Proof.
  apply (data_source_selection_first_match (λ host path, host ++ path) (λ _, ∅)
           (py "key") [py "SELECT 1"] None DEFAULT_HOST snowflake_and_databricks
           [] [{| ds_id := 2; ds_type := py "databricks" |}]
           [{| ds_id := 1; ds_type := py "snowflake" |}] []
           {| ds_id := 1; ds_type := py "snowflake" |}
           {| ds_id := 2; ds_type := py "databricks" |});
    [reflexivity|constructor|discriminate|reflexivity
    |repeat constructor; discriminate|reflexivity].
Defined.

(** ** The upload payload *)

Lemma enumerate_from_lookup {A} (l : list A) start i :
  enumerate_from start l !! i = (λ x, ((start + i)%nat, x)) <$> l !! i.
Proof.
  revert start i. induction l as [|x l IH]; intros start [|i]; cbn; try done.
  - by rewrite Nat.add_0_r.
  - rewrite IH. by replace (S start + i)%nat with (start + S i)%nat by lia.
Qed.

Lemma enumerate_from_length {A} (l : list A) start :
  length (enumerate_from start l) = length l.
Proof. revert start. induction l; intros; cbn; auto. Qed.

Lemma upload_payload_files queries :
  ∃ files,
    upload_payload queries = JDict [(py "files", JList files)]
    ∧ length files = length queries
    ∧ ∀ i, files !! i = query_file i <$> queries !! i.
Proof.
  eexists. split; [reflexivity|]. split.
  - by rewrite length_fmap enumerate_from_length.
  - intros i. rewrite list_lookup_fmap enumerate_from_lookup.
    by destruct (queries !! i).
Qed.

(** C7. The upload payload of [_upload_queries], in both modules, holds
    one file per query in input order, file [i] (0-based) named
    [query_<i+1>.sql] with query [i] as content; no query gives no file
    and no error; and ["SELECT 1", "SELECT 2"] gives [query_1.sql] and
    [query_2.sql] with these contents, in that order. *)
Theorem upload_payload_one_file_per_query
    (prepare_api_url : str → str → str) (prepare_headers : str → gmap str str)
    (api_key : str) (project_id : Z) (host : option str) (h : str) :
  (∀ queries,
     uploads_one_file_per_query queries
       (_upload_queries prepare_api_url prepare_headers api_key project_id queries host)
     ∧ uploads_one_file_per_query queries
         (Notebook._upload_queries prepare_api_url prepare_headers h api_key project_id
            queries))
  ∧ upload_payload [] = JDict [(py "files", JList [])]
  ∧ upload_payload [py "SELECT 1"; py "SELECT 2"]
    = JDict [(py "files",
              JList [JDict [(py "filename", JStr (py "query_1.sql"));
                            (py "content", JStr (py "SELECT 1"))];
                     JDict [(py "filename", JStr (py "query_2.sql"));
                            (py "content", JStr (py "SELECT 2"))]])].
Proof.
  split; [|split; reflexivity].
  intros queries.
  destruct (upload_payload_files queries) as (files & Hp & Hlen & Hfiles).
  split; intros w b rest Hs.
  - unfold _upload_queries. munfold.
    destruct (get_host_world host w) as [x ->].
    unfold post_data, send. cbn. rewrite Hs Hp.
    eexists _, _, files. by repeat split.
  - unfold Notebook._upload_queries, post_data, send. rewrite Hs Hp.
    eexists _, _, files. by repeat split.
Qed.

Lemma upload_payload_one_file_per_query_witness :
  ∃ w' r files,
    _upload_queries (λ host path, host ++ path) (λ _, ∅) (py "key") 7
      [py "SELECT 1"; py "SELECT 2"] None (initial_world [Answer UploadBody])
    = (Ok UploadBody, w')
    ∧ calls w' = [r]
    ∧ req_method r = POST
    ∧ req_json r = Some (JDict [(py "files", JList files)])
    ∧ length files = 2%nat
    ∧ ∀ i, files !! i = query_file i <$> [py "SELECT 1"; py "SELECT 2"] !! i.
Proof.
  destruct (upload_payload_one_file_per_query (λ host path, host ++ path) (λ _, ∅)
              (py "key") 7 None []) as [H _].
  destruct (H [py "SELECT 1"; py "SELECT 2"]) as [Hpkg _].
  exact (Hpkg (initial_world [Answer UploadBody]) UploadBody [] eq_refl).
Defined.

(** ** The report on an empty result, and the missing API key *)

(** C8. When the translated models of the result are the empty sequence,
    [_translation_results_html] (of both modules) returns exactly the
    string "No queries were translated.": no style, no script, no
    section. *)
Theorem no_models_gives_the_fixed_message (room : nat)
    (translation_results : TranslationJob) :
  translated_models translation_results = [] →
  _translation_results_html room translation_results
  = Ok (py "No queries were translated.")
  ∧ Notebook._translation_results_html room translation_results
    = Ok (py "No queries were translated.").
Proof.
  intros Hnil.
  unfold _translation_results_html, Notebook._translation_results_html,
    translation_results_html.
  by rewrite Hnil.
Qed.

Lemma no_models_gives_the_fixed_message_witness :
  _translation_results_html 0 (job "done" []) = Ok (py "No queries were translated.")
  ∧ Notebook._translation_results_html 0 (job "done" [])
    = Ok (py "No queries were translated.").
Proof. apply (no_models_gives_the_fixed_message 0 (job "done" [])). reflexivity. Defined.

(** C9. With no API key cached and no organization token given,
    [translate_queries_and_render_results] raises [ValueError] at once:
    the world is left as it was, so no request was sent. *)
Theorem no_api_key_is_a_checked_error
    (prepare_api_url : str → str → str) (prepare_headers : str → gmap str str)
    (room : nat) (longest_sleep : Z) (queries : list str) (host : option str)
    (w : world) :
  _current_api_key w = None →
  translate_queries_and_render_results prepare_api_url prepare_headers room longest_sleep
    queries None host w
  = (Raise (ValueError (py "API key is not set. Please call create_organization or set the API key manually.")),
     w).
Proof.
  intros Hkey.
  unfold translate_queries_and_render_results, _get_current_api_key. munfold.
  by rewrite Hkey.
Qed.

Lemma no_api_key_is_a_checked_error_witness :
  ∃ e w',
    translate_queries_and_render_results (λ host path, host ++ path) (λ _, ∅) 400
      9000000000 [py "SELECT 1"] None (Some (py "https://example.test"))
      (initial_world [Answer (OrgBody (py "k") 1)])
    = (Raise (ValueError e), w')
    ∧ calls w' = [] ∧ script w' = [Answer (OrgBody (py "k") 1)].
Proof.
  eexists _, _. split.
  - apply (no_api_key_is_a_checked_error (λ host path, host ++ path) (λ _, ∅) 400
             9000000000 [py "SELECT 1"] (Some (py "https://example.test"))
             (initial_world [Answer (OrgBody (py "k") 1)])).
    reflexivity.
  - split; reflexivity.
Defined.

(** * [difflib]: the matching blocks are sound and the opcodes tile *)

Local Close Scope Z_scope.

(** ** The index [b2j] *)

(** The positions of [x] in [l], counted from [start], in increasing
    order. *)
Fixpoint positions_from {A} `{EqDecision A} (start : nat) (x : A) (l : list A) : list nat :=
  match l with
  | [] => []
  | y :: l' =>
      (if bool_decide (y = x) then [start] else []) ++ positions_from (S start) x l'
  end.

Section B2j.
Context `{Countable A}.
Implicit Types (a b : list A) (x : A).

Lemma elem_of_positions_from start x l j :
  j ∈ positions_from start x l ↔ start ≤ j ∧ l !! (j - start) = Some x.
Proof.
  revert start. induction l as [|y l IH]; intros start; cbn.
  - rewrite elem_of_nil. naive_solver.
  - rewrite elem_of_app IH. case_bool_decide as Hy.
    + rewrite list_elem_of_singleton. split.
      * intros [->|[Hle Hl]].
        -- rewrite Nat.sub_diag. naive_solver.
        -- split; [lia|]. by replace (j - start) with (S (j - S start)) by lia.
      * intros [Hle Hl]. destruct (decide (j = start)) as [->|]; [by left|right].
        split; [lia|]. by replace (j - start) with (S (j - S start)) in Hl by lia.
    + rewrite elem_of_nil. split.
      * intros [[]|[Hle Hl]].
        split; [lia|]. by replace (j - start) with (S (j - S start)) by lia.
      * intros [Hle Hl]. right. destruct (decide (j = start)) as [->|].
        -- rewrite Nat.sub_diag in Hl. naive_solver.
        -- split; [lia|]. by replace (j - start) with (S (j - S start)) in Hl by lia.
Qed.

Lemma positions_from_sorted start x l :
  StronglySorted lt (positions_from start x l).
Proof.
  revert start. induction l as [|y l IH]; intros start; cbn; [constructor|].
  case_bool_decide; cbn; [|done].
  constructor; [done|]. apply Forall_forall. intros j Hj%elem_of_positions_from. lia.
Qed.

Lemma b2j_fold_lookup (m : gmap A (list nat)) start l x :
  foldl (λ (b2j : gmap A (list nat)) '(i, elt),
           <[elt := default [] (b2j !! elt) ++ [i]]> b2j) m (enumerate_from start l) !! x
  = match positions_from start x l with
    | [] => m !! x
    | js => Some (default [] (m !! x) ++ js)
    end.
Proof.
  revert m start. induction l as [|y l IH]; intros m start; cbn; [done|].
  rewrite IH. case_bool_decide as Hy.
  - subst y. rewrite lookup_insert_eq. cbn.
    destruct (positions_from (S start) x l); cbn; by rewrite -?app_assoc.
  - rewrite lookup_insert_ne //.
Qed.

Lemma b2j_of_lookup isjunk autojunk b x js :
  b2j_of isjunk autojunk b !! x = Some js →
  js = positions_from 0 x b.
Proof.
  unfold b2j_of, chain_b. cbn.
  intros [[Hl _]%map_lookup_filter_Some _]%map_lookup_filter_Some.
  unfold enumerate in Hl. rewrite b2j_fold_lookup lookup_empty in Hl.
  destruct (positions_from 0 x b); naive_solver.
Qed.

Lemma b2j_of_elem isjunk autojunk b x js j :
  b2j_of isjunk autojunk b !! x = Some js → j ∈ js → b !! j = Some x.
Proof.
  intros ->%b2j_of_lookup [_ Hj]%elem_of_positions_from.
  by rewrite Nat.sub_0_r in Hj.
Qed.

Lemma b2j_of_nil isjunk autojunk x : b2j_of isjunk autojunk [] !! x = None.
Proof.
  destruct (b2j_of isjunk autojunk [] !! x) as [js|] eqn:E; [|done].
  unfold b2j_of, chain_b in E. cbn in E.
  apply map_lookup_filter_Some in E as [[E _]%map_lookup_filter_Some _].
  by rewrite lookup_empty in E.
Qed.

End B2j.

(** ** [find_longest_match] *)

Section LongestMatch.
Context `{Countable A}.
Variable isjunk : option (A → bool).
Variable autojunk : bool.
Variables a b : list A.

(** [a[i:i+k]] and [b[j:j+k]] exist and are equal. *)
Definition same_block (i j k : nat) : Prop :=
  ∀ d, d < k → ∃ x, a !! (i + d) = Some x ∧ b !! (j + d) = Some x.

(** A match inside the window [a[alo:ahi]], [b[blo:bhi]]. *)
Definition good_match (alo ahi blo bhi : nat) (m : Match) : Prop :=
  let '(i, j, k) := m in
  alo ≤ i ∧ i + k ≤ ahi ∧ blo ≤ j ∧ j + k ≤ bhi ∧ same_block i j k.

(** [a[i-k+1:i+1]] and [b[j-k+1:j+1]] are equal, within the lower
    bounds. *)
Definition run_ok (alo blo : nat) (i j k : nat) : Prop :=
  0 < k ∧ alo + k ≤ i + 1 ∧ blo + k ≤ j + 1
  ∧ ∀ d, d < k → ∃ x, a !! (i - d) = Some x ∧ b !! (j - d) = Some x.

Lemma run_ok_good alo ahi blo bhi i j k :
  run_ok alo blo i j k → i < ahi → j < bhi →
  good_match alo ahi blo bhi (i + 1 - k, j + 1 - k, k).
Proof.
  intros (Hk & Hi & Hj & Hrun) Hia Hjb. repeat split; try lia.
  intros d Hd. destruct (Hrun (k - 1 - d)) as (x & Hx & Hy); [lia|].
  exists x. split.
  - by replace (i + 1 - k + d) with (i - (k - 1 - d)) by lia.
  - by replace (j + 1 - k + d) with (j - (k - 1 - d)) by lia.
Qed.

Lemma run_ok_extend alo blo i j x (j2len : gmap nat nat) :
  alo ≤ i → blo ≤ j →
  a !! i = Some x → b !! j = Some x →
  (∀ j' k, j2len !! j' = Some k → 0 < i ∧ run_ok alo blo (i - 1) j' k) →
  run_ok alo blo i j (match j with O => 0 | S j' => default 0 (j2len !! j') end + 1).
Proof.
  intros Hi Hj Ha Hb Hprev.
  assert (run_ok alo blo i j 1) as Hone.
  { repeat split; try lia. intros d Hd. exists x.
    by replace (i - d) with i by lia; replace (j - d) with j by lia. }
  destruct j as [|j']; [done|].
  destruct (j2len !! j') as [k|] eqn:E; [|done]. cbn.
  destruct (Hprev _ _ E) as (Hi0 & Hk & Hik & Hjk & Hrun).
  repeat split; try lia.
  intros [|d] Hd.
  - exists x. by rewrite !Nat.sub_0_r.
  - destruct (Hrun d) as (y & Hy1 & Hy2); [lia|]. exists y.
    by replace (i - S d) with (i - 1 - d) by lia.
Qed.

Lemma flm_row_spec alo ahi blo bhi i x j2len js :
  alo ≤ i → i < ahi → a !! i = Some x →
  (∀ j, j ∈ js → b !! j = Some x) →
  (∀ j k, j2len !! j = Some k → 0 < i ∧ run_ok alo blo (i - 1) j k) →
  ∀ newj2len best,
    (∀ j k, newj2len !! j = Some k → run_ok alo blo i j k) →
    good_match alo ahi blo bhi best →
    (∀ j k, (flm_row i blo bhi j2len js newj2len best).1 !! j = Some k →
            run_ok alo blo i j k)
    ∧ good_match alo ahi blo bhi (flm_row i blo bhi j2len js newj2len best).2.
Proof.
  intros Hi Hia Ha Hjs Hprev.
  induction js as [|j js IH]; intros newj2len best Hnew Hbest; cbn; [done|].
  case_bool_decide as Hlo; [apply IH; [set_solver|done..]|].
  case_bool_decide as Hhi; [done|].
  assert (run_ok alo blo i j
            (match j with O => 0 | S j' => default 0 (j2len !! j') end + 1)) as Hrun.
  { apply (run_ok_extend _ _ _ _ x); [done|lia|done|apply Hjs; set_solver|done]. }
  apply IH; [set_solver| |].
  - intros j' k. rewrite lookup_insert. case_decide; [|by apply Hnew].
    by intros [= <-]; subst.
  - case_bool_decide; [|done]. apply run_ok_good; [done|done|lia].
Qed.

Lemma flm_rows_spec alo ahi blo bhi rows : ∀ i0 j2len best,
  rows = seq i0 (length rows) →
  alo ≤ i0 → i0 + length rows ≤ ahi → ahi ≤ length a →
  (∀ j k, j2len !! j = Some k → 0 < i0 ∧ run_ok alo blo (i0 - 1) j k) →
  good_match alo ahi blo bhi best →
  ∃ m, flm_rows a (b2j_of isjunk autojunk b) blo bhi rows j2len best = Some m
       ∧ good_match alo ahi blo bhi m.
Proof.
  induction rows as [|i rows IH]; intros i0 j2len best Hrows Hlo Hhi Hla Hprev Hbest;
    cbn; [eauto|].
  cbn in Hrows, Hhi. injection Hrows as -> Hrows.
  destruct (lookup_lt_is_Some_2 a i0) as [x Hx]; [lia|]. rewrite Hx. cbn.
  destruct (flm_row_spec alo ahi blo bhi i0 x j2len
              (default [] (b2j_of isjunk autojunk b !! x))
              Hlo ltac:(lia) Hx) with (newj2len := (∅ : gmap nat nat)) (best := best)
    as [Hnew Hbest'].
  - destruct (b2j_of isjunk autojunk b !! x) as [js|] eqn:E; cbn.
    + intros j Hj. by eapply b2j_of_elem.
    + set_solver.
  - done.
  - done.
  - done.
  - destruct (flm_row _ _ _ _ _ _ _) as [newj2len best'].
    apply (IH (S i0)); [done|lia|lia|done| |done].
    intros j k Hjk. split; [lia|]. rewrite /= Nat.sub_0_r. by apply Hnew.
Qed.

Lemma same_block_cons_left i j k x :
  a !! i = Some x → b !! j = Some x → same_block (S i) (S j) k → same_block i j (k + 1).
Proof.
  intros Ha Hb Hsame [|d] Hd.
  - exists x. by rewrite !Nat.add_0_r.
  - destruct (Hsame d) as (y & Hy1 & Hy2); [lia|]. exists y.
    by rewrite -!Nat.add_succ_comm.
Qed.

Lemma same_block_snoc i j k x :
  a !! (i + k) = Some x → b !! (j + k) = Some x → same_block i j k → same_block i j (k + 1).
Proof.
  intros Ha Hb Hsame d Hd. destruct (decide (d = k)) as [->|]; [by exists x|].
  apply Hsame. lia.
Qed.

Lemma extend_left_spec junk alo ahi blo bhi :
  ahi ≤ length a → bhi ≤ length b →
  ∀ besti bestj bestsize,
    good_match alo ahi blo bhi (besti, bestj, bestsize) →
    ∃ m, extend_left isjunk autojunk a b junk alo blo besti bestj bestsize = Some m
         ∧ good_match alo ahi blo bhi m.
Proof.
  intros Hla Hlb.
  induction besti as [|besti' IH]; intros bestj bestsize Hgood; cbn; [eauto|].
  case_bool_decide as Hguard; [|eauto].
  destruct Hguard as [Hgi Hgj].
  destruct Hgood as (Hi & Hik & Hj & Hjk & Hsame).
  destruct (lookup_lt_is_Some_2 b (bestj - 1)) as [y Hy]; [lia|].
  destruct (lookup_lt_is_Some_2 a besti') as [x Hx]; [lia|].
  rewrite Hy Hx. cbn.
  case_bool_decide; [|by eexists; split; [done|repeat split]].
  case_bool_decide as Hxy; [|by eexists; split; [done|repeat split]].
  subst y. apply IH. repeat split; try lia.
  apply (same_block_cons_left _ _ _ x); [done..|].
  by replace (S (bestj - 1)) with bestj by lia.
Qed.

Lemma extend_right_spec junk alo ahi blo bhi besti bestj :
  ahi ≤ length a → bhi ≤ length b →
  ∀ gap bestsize,
    good_match alo ahi blo bhi (besti, bestj, bestsize) →
    ∃ m, extend_right isjunk autojunk a b junk ahi bhi besti bestj gap bestsize = Some m
         ∧ good_match alo ahi blo bhi m.
Proof.
  intros Hla Hlb.
  induction gap as [|gap IH]; intros bestsize Hgood; cbn; [eauto|].
  case_bool_decide as Hguard; [|eauto].
  destruct Hguard as [Hgi Hgj].
  destruct Hgood as (Hi & Hik & Hj & Hjk & Hsame).
  destruct (lookup_lt_is_Some_2 b (bestj + bestsize)) as [y Hy]; [lia|].
  destruct (lookup_lt_is_Some_2 a (besti + bestsize)) as [x Hx]; [lia|].
  rewrite Hy Hx. cbn.
  case_bool_decide; [|by eexists; split; [done|repeat split]].
  case_bool_decide as Hxy; [|by eexists; split; [done|repeat split]].
  subst y. apply IH. repeat split; try lia.
  by apply (same_block_snoc _ _ _ x).
Qed.

Lemma find_longest_match_spec alo ahi blo bhi :
  alo ≤ ahi → ahi ≤ length a → blo ≤ bhi → bhi ≤ length b →
  ∃ m, find_longest_match isjunk autojunk a b alo ahi blo bhi = Some m
       ∧ good_match alo ahi blo bhi m.
Proof.
  intros Ha Hla Hb Hlb. unfold find_longest_match.
  destruct (flm_rows_spec alo ahi blo bhi (range alo ahi) alo ∅ (alo, blo, 0))
    as ([[i1 j1] k1] & -> & H1).
  { by rewrite /range length_seq. }
  { done. }
  { rewrite /range length_seq. lia. }
  { done. }
  { intros j k. by rewrite lookup_empty. }
  { repeat split; try lia. intros d Hd. lia. }
  cbn.
  destruct (extend_left_spec false alo ahi blo bhi Hla Hlb _ _ _ H1)
    as ([[i2 j2] k2] & -> & H2). cbn.
  destruct (extend_right_spec false alo ahi blo bhi i2 j2 Hla Hlb (ahi - (i2 + k2)) _ H2)
    as ([[i3 j3] k3] & -> & H3). cbn.
  destruct (extend_left_spec true alo ahi blo bhi Hla Hlb _ _ _ H3)
    as ([[i4 j4] k4] & -> & H4). cbn.
  apply (extend_right_spec true alo ahi blo bhi i4 j4 Hla Hlb _ _ H4).
Qed.

End LongestMatch.

(** ** [get_matching_blocks] *)

Abbreviation rect := (nat * nat * nat * nat)%type.

(** The window a match covers. *)
Definition rect_of (m : Match) : rect :=
  let '(i, j, k) := m in (i, i + k, j, j + k).

(** [r] lies before [r'] in both sequences. *)
Definition before (r r' : rect) : Prop :=
  let '(_, ahi, _, bhi) := r in
  let '(alo', _, blo', _) := r' in
  ahi ≤ alo' ∧ bhi ≤ blo'.

Definition sep (r r' : rect) : Prop := before r r' ∨ before r' r.

Definition sub (r r' : rect) : Prop :=
  let '(alo, ahi, blo, bhi) := r in
  let '(alo', ahi', blo', bhi') := r' in
  alo' ≤ alo ∧ ahi ≤ ahi' ∧ blo' ≤ blo ∧ bhi ≤ bhi'.

(** Pairwise separated windows. *)
Inductive separated : list rect → Prop :=
| separated_nil : separated []
| separated_cons r l : Forall (sep r) l → separated l → separated (r :: l).

Definition qmeasure (queue : list rect) : nat :=
  foldr (λ r n, let '(alo, ahi, _, _) := r in 2 * (ahi - alo) + 1 + n) 0 queue.

Lemma qmeasure_cons alo ahi blo bhi queue :
  qmeasure ((alo, ahi, blo, bhi) :: queue) = 2 * (ahi - alo) + 1 + qmeasure queue.
Proof. reflexivity. Qed.

Lemma sep_sym r r' : sep r r' → sep r' r.
Proof. unfold sep. tauto. Qed.

Lemma sep_sub r R y : sub r R → sep R y → sep r y.
Proof.
  destruct r as [[[??]?]?], R as [[[??]?]?], y as [[[??]?]?].
  unfold sub, sep, before. lia.
Qed.

Lemma separated_Permutation l l' : l ≡ₚ l' → separated l → separated l'.
Proof.
  induction 1 as [|r l l' Hp IH|r r' l|l1 l2 l3 _ IH1 _ IH2]; intros Hs.
  - done.
  - inversion_clear Hs as [|?? Hr Hl]. constructor; [by rewrite -Hp|auto].
  - inversion_clear Hs as [|?? Hr Hl]. inversion_clear Hl as [|?? Hr' Hl'].
    inversion_clear Hr as [|?? Hrr Hr''].
    constructor; [constructor; [by apply sep_sym|done]|by constructor].
  - auto.
Qed.

Lemma separated_app_sub extras R rest :
  separated extras → Forall (λ r, sub r R) extras →
  Forall (sep R) rest → separated rest →
  separated (extras ++ rest).
Proof.
  intros Hs Hsub HR Hrest. induction Hs as [|r l Hr Hl IH]; [done|].
  apply Forall_cons in Hsub as [Hsubr Hsub]. cbn. constructor; [|auto].
  apply Forall_app. split; [done|].
  eapply Forall_impl; [exact HR|]. intros y. by apply sep_sub.
Qed.

Section MatchingBlocks.
Context `{Countable A}.
Variable isjunk : option (A → bool).
Variable autojunk : bool.
Variables a b : list A.

Definition rect_ok (r : rect) : Prop :=
  let '(alo, ahi, blo, bhi) := r in
  alo ≤ ahi ∧ ahi ≤ length a ∧ blo ≤ bhi ∧ bhi ≤ length b.

(** A matching block: not empty, inside the sequences, and equal on both
    sides. *)
Definition block_ok (m : Match) : Prop :=
  0 < m.2 ∧ good_match a b 0 (length a) 0 (length b) m.

Definition gmb_inv (queue : list rect) (blocks : list Match) : Prop :=
  Forall rect_ok queue ∧ Forall block_ok blocks
  ∧ separated ((rect_of <$> blocks) ++ queue).

Lemma gmb_loop_spec turns : ∀ queue blocks,
  gmb_inv queue blocks → qmeasure queue ≤ turns →
  ∃ blocks', gmb_loop isjunk autojunk a b turns queue blocks = Some blocks'
             ∧ gmb_inv [] blocks'.
Proof.
  induction turns as [|turns IH]; intros queue blocks Hinv Hm.
  { destruct queue as [|[[[alo ahi] blo] bhi] queue]; [by exists blocks|].
    rewrite qmeasure_cons in Hm. lia. }
  destruct queue as [|[[[alo ahi] blo] bhi] queue]; [by exists blocks|].
  destruct Hinv as (Hq & Hb & Hsep).
  apply Forall_cons in Hq as [(Ha & Hla & Hbb & Hlb) Hq].
  cbn [gmb_loop].
  destruct (find_longest_match_spec isjunk autojunk a b alo ahi blo bhi)
    as ([[i j] k] & -> & Hi & Hik & Hj & Hjk & Hsame); [done..|].
  rewrite qmeasure_cons in Hm. cbn [mbind option_bind].
  apply (separated_Permutation _ ((alo, ahi, blo, bhi) :: (rect_of <$> blocks) ++ queue))
    in Hsep; [|by rewrite Permutation_middle].
  inversion_clear Hsep as [|?? HR Hrest].
  case_bool_decide as Hk.
  2:{ apply IH; [|lia]. by repeat split. }
  assert (block_ok (i, j, k)) as Hblock.
  { split; [cbn; lia|]. repeat split; try lia. done. }
  set (R := (alo, ahi, blo, bhi)) in *.
  set (M := rect_of (i, j, k)).
  set (L := (alo, i, blo, j)).
  set (Rt := (i + k, ahi, j + k, bhi)).
  assert (sub M R ∧ sub L R ∧ sub Rt R) as (HM & HL & HRt).
  { unfold sub, M, L, Rt, R. cbn. lia. }
  assert (sep M L ∧ sep M Rt ∧ sep Rt L) as (HLM & HRM & HRL).
  { unfold sep, before, M, L, Rt. cbn. lia. }
  assert (rect_ok L ∧ rect_ok Rt) as [HLok HRok].
  { unfold rect_ok, L, Rt. lia. }
  apply IH.
  - split; [|split].
    + repeat case_bool_decide; repeat (apply Forall_cons; split); done.
    + apply Forall_app. split; [done|]. by apply Forall_singleton.
    + rewrite fmap_app. cbn [fmap list_fmap]. fold M.
      repeat case_bool_decide.
      * apply (separated_Permutation ([M; Rt; L] ++ (rect_of <$> blocks) ++ queue)).
        { by rewrite Permutation_app_swap_app -app_assoc. }
        apply (separated_app_sub _ R);
          [|repeat (apply Forall_cons; split); done|done|done].
        repeat (constructor; [repeat (apply Forall_cons; split); done|]); constructor.
      * apply (separated_Permutation ([M; Rt] ++ (rect_of <$> blocks) ++ queue)).
        { by rewrite Permutation_app_swap_app -app_assoc. }
        apply (separated_app_sub _ R);
          [|repeat (apply Forall_cons; split); done|done|done].
        repeat (constructor; [repeat (apply Forall_cons; split); done|]); constructor.
      * apply (separated_Permutation ([M; L] ++ (rect_of <$> blocks) ++ queue)).
        { by rewrite Permutation_app_swap_app -app_assoc. }
        apply (separated_app_sub _ R);
          [|repeat (apply Forall_cons; split); done|done|done].
        repeat (constructor; [repeat (apply Forall_cons; split); done|]); constructor.
      * apply (separated_Permutation ([M] ++ (rect_of <$> blocks) ++ queue)).
        { by rewrite Permutation_app_swap_app -app_assoc. }
        apply (separated_app_sub _ R);
          [|repeat (apply Forall_cons; split); done|done|done].
        repeat (constructor; [repeat (apply Forall_cons; split); done|]); constructor.
  - repeat case_bool_decide; rewrite ?qmeasure_cons; lia.
Qed.

(** Blocks in increasing order, none overlapping the one before, each
    sound; [i0] and [j0] are where the block before ended. *)
Fixpoint chained (i0 j0 : nat) (l : list Match) : Prop :=
  match l with
  | [] => True
  | (i, j, k) :: l' =>
      i0 ≤ i ∧ j0 ≤ j ∧ 0 < k ∧ i + k ≤ length a ∧ j + k ≤ length b
      ∧ same_block a b i j k ∧ chained (i + k) (j + k) l'
  end.

(** The block held by the loop that collapses adjacent blocks. *)
Definition pending (i1 j1 k1 : nat) : list Match :=
  if bool_decide (k1 ≠ 0) then [(i1, j1, k1)] else [].

Lemma sorted_chained s :
  StronglySorted Match_le s → Forall block_ok s → separated (rect_of <$> s) →
  ∀ i0 j0, Forall (λ m : Match, i0 ≤ m.1.1 ∧ j0 ≤ m.1.2) s → chained i0 j0 s.
Proof.
  induction s as [|[[i j] k] s IH]; intros Hsort Hok Hsep i0 j0 Hlow; [done|].
  apply StronglySorted_inv in Hsort as [Hsort Hle].
  apply Forall_cons in Hok as [(Hk & _ & Hik & _ & Hjk & Hsame) Hok].
  apply Forall_cons in Hlow as [[Hi0 Hj0] _].
  inversion_clear Hsep as [|?? Hr Hs]. cbn in *.
  repeat split; try done. apply IH; try done.
  apply Forall_forall. intros [[i' j'] k'] Hin. cbn.
  pose proof (proj1 (Forall_forall _ _) Hle _ Hin) as Hlex.
  pose proof (proj1 (Forall_forall _ _) Hok _ Hin) as (Hk' & _).
  assert (sep (i, i + k, j, j + k) (rect_of (i', j', k'))) as Hsp.
  { eapply (proj1 (Forall_forall _ _) Hr). apply list_elem_of_fmap. by eexists. }
  unfold sep, before, Match_le in *. cbn in *. lia.
Qed.

Lemma chained_positive i0 j0 l i j k :
  chained i0 j0 l → (i, j, k) ∈ l → 0 < k.
Proof.
  revert i0 j0. induction l as [|[[i' j'] k'] l IH]; intros i0 j0 Hc Hin.
  - by apply elem_of_nil in Hin.
  - destruct Hc as (_ & _ & Hk & _ & _ & _ & Hc).
    apply elem_of_cons in Hin as [[= -> -> ->]|Hin]; [done|eauto].
Qed.

Lemma chained_merge l1 l2 i j k k' : ∀ i0 j0,
  chained i0 j0 (l1 ++ (i, j, k) :: (i + k, j + k, k') :: l2) →
  chained i0 j0 (l1 ++ (i, j, k + k') :: l2).
Proof.
  induction l1 as [|[[i1 j1] k1] l1 IH]; intros i0 j0; cbn.
  - intros (Hi & Hj & Hk & Hik & Hjk & Hsame & _ & _ & Hk' & Hik' & Hjk' & Hsame' & Hc).
    repeat split; try lia.
    + intros d Hd. destruct (decide (d < k)) as [Hlt|Hge]; [by apply Hsame|].
      destruct (Hsame' (d - k)) as (x & Hx & Hy); [lia|]. exists x.
      by replace (i + d) with (i + k + (d - k)) by lia;
         replace (j + d) with (j + k + (d - k)) by lia.
    + by rewrite !Nat.add_assoc.
  - intros (? & ? & ? & ? & ? & ? & Hc). repeat split; try done. by apply IH.
Qed.

Lemma collapse_chained s : ∀ i1 j1 k1 na,
  chained 0 0 (na ++ pending i1 j1 k1 ++ s) →
  ∃ i1' j1' k1' na',
    foldl collapse_step (i1, j1, k1, na) s = (i1', j1', k1', na')
    ∧ chained 0 0 (na' ++ pending i1' j1' k1').
Proof.
  induction s as [|[[i2 j2] k2] s IH]; intros i1 j1 k1 na Hc; cbn [foldl].
  { rewrite app_nil_r in Hc. by eexists _, _, _, _. }
  assert (0 < k2) as Hk2.
  { eapply chained_positive; [done|]. rewrite !elem_of_app elem_of_cons. auto. }
  unfold collapse_step at 2. case_bool_decide as Hadj.
  - destruct Hadj as [<- <-]. apply IH.
    unfold pending in *. rewrite bool_decide_eq_true_2; [lia|].
    case_bool_decide as Hk1.
    + by apply chained_merge.
    + replace k1 with 0 in * by lia. by rewrite !Nat.add_0_r in Hc |- *.
  - apply IH. unfold pending in *. rewrite (bool_decide_eq_true_2 (k2 ≠ 0)); [lia|].
    case_bool_decide; [|done]. by rewrite -app_assoc.
Qed.

#[local] Instance Match_le_total : Total Match_le.
Proof. intros [[??]?] [[??]?]. unfold Match_le. lia. Qed.

#[local] Instance Match_le_trans : Transitive Match_le.
Proof. intros [[??]?] [[??]?] [[??]?]. unfold Match_le. lia. Qed.

Lemma get_matching_blocks_spec :
  ∃ core,
    get_matching_blocks isjunk autojunk a b = Some (core ++ [(length a, length b, 0)])
    ∧ chained 0 0 core.
Proof.
  unfold get_matching_blocks.
  destruct (gmb_loop_spec (2 * length a + 1) [(0, length a, 0, length b)] [])
    as (blocks & -> & _ & Hok & Hsep).
  { split; [|split].
    - apply Forall_singleton. unfold rect_ok. lia.
    - constructor.
    - repeat constructor. }
  { rewrite qmeasure_cons. cbn. lia. }
  cbn [mbind option_bind]. rewrite app_nil_r in Hsep.
  set (s := merge_sort Match_le blocks).
  assert (chained 0 0 s) as Hc.
  { apply sorted_chained.
    - apply StronglySorted_merge_sort; apply _.
    - unfold s. by rewrite merge_sort_Permutation.
    - apply (separated_Permutation (rect_of <$> blocks)); [|done].
      unfold s. by rewrite merge_sort_Permutation.
    - apply Forall_forall. intros ? _. lia. }
  destruct (collapse_chained s 0 0 0 []) as (i1 & j1 & k1 & na & -> & Hna); [done|].
  exists (na ++ pending i1 j1 k1). split; [|done].
  unfold pending. case_bool_decide; by rewrite ?app_nil_r.
Qed.

End MatchingBlocks.

(** ** Slices *)

Section Slices.
Context {X : Type}.
Implicit Types l : list X.

Lemma slice_full l : slice 0 (length l) l = l.
Proof. by rewrite /slice Nat.sub_0_r /= firstn_all. Qed.

Lemma slice_empty lo l : slice lo lo l = [].
Proof. by rewrite /slice Nat.sub_diag. Qed.

Lemma slice_app lo mid hi l :
  lo ≤ mid → mid ≤ hi → slice lo hi l = slice lo mid l ++ slice mid hi l.
Proof.
  intros H1 H2. unfold slice.
  replace (hi - lo) with ((mid - lo) + (hi - mid)) by lia.
  rewrite -take_take_drop drop_drop. by replace (lo + (mid - lo)) with mid by lia.
Qed.

Lemma slice_cons lo hi l x :
  l !! lo = Some x → lo < hi → slice lo hi l = x :: slice (S lo) hi l.
Proof.
  intros Hx Hlt. unfold slice. rewrite (drop_S _ x) //.
  by replace (hi - lo) with (S (hi - S lo)) by lia.
Qed.

Lemma slice_lookup lo hi l d :
  d < hi - lo → slice lo hi l !! d = l !! (lo + d).
Proof. intros Hd. by rewrite /slice lookup_take_lt // lookup_drop. Qed.

Lemma slice_length lo hi l : hi ≤ length l → length (slice lo hi l) = hi - lo.
Proof. intros Hhi. rewrite /slice length_take length_drop. lia. Qed.

End Slices.

Lemma same_block_slice {X} (a b : list X) i j k :
  same_block a b i j k → i + k ≤ length a → j + k ≤ length b →
  slice i (i + k) a = slice j (j + k) b.
Proof.
  intros Hsame Ha Hb. apply list_eq. intros d.
  destruct (decide (d < k)) as [Hd|Hd].
  - rewrite !slice_lookup; [lia..|]. by destruct (Hsame d Hd) as (x & -> & ->).
  - rewrite !lookup_ge_None_2 // slice_length; lia.
Qed.

(** ** The opcodes tile both sequences *)

Section Opcodes.
Context `{Countable A}.
Variable isjunk : option (A → bool).
Variable autojunk : bool.
Variables a b : list A.

(** An opcode covers [a[i:i']] and [b[j:j']] as its tag says. *)
Definition op_ok (op : opcode) : Prop :=
  let '(tag, i, i', j, j') := op in
  i ≤ i' ∧ i' ≤ length a ∧ j ≤ j' ∧ j' ≤ length b
  ∧ match tag with
    | Replace => i < i' ∧ j < j'
    | Delete => i < i' ∧ j = j'
    | Insert => i = i' ∧ j < j'
    | Equal => i < i' ∧ slice i i' a = slice j j' b
    end.

(** The opcodes go from [(i, j)] to the ends of both sequences, each
    starting where the one before stops. *)
Inductive tiles : nat → nat → list opcode → Prop :=
| tiles_nil : tiles (length a) (length b) []
| tiles_cons tag i i' j j' ops :
    op_ok (tag, i, i', j, j') → tiles i' j' ops → tiles i j ((tag, i, i', j, j') :: ops).

Lemma opcode_step_acc st m :
  ∃ ops, (opcode_step st m).2 = st.2 ++ ops
         ∧ opcode_step (st.1.1, st.1.2, []) m = ((opcode_step st m).1, ops).
Proof.
  destruct st as [[i j] ans], m as [[ai bj] size]. unfold opcode_step. cbn.
  repeat case_bool_decide; cbn; rewrite -?app_assoc;
    first [by exists []; rewrite app_nil_r | by eexists; split; [reflexivity|]].
Qed.

Lemma opcodes_fold_acc l : ∀ st,
  ∃ ops, (foldl opcode_step st l).2 = st.2 ++ ops
         ∧ (foldl opcode_step (st.1.1, st.1.2, []) l).2 = ops.
Proof.
  induction l as [|m l IH]; intros st; cbn [foldl].
  { exists []. by rewrite app_nil_r. }
  destruct (opcode_step_acc st m) as (ops1 & H1 & H2).
  destruct (opcode_step st m) as [[i' j'] ans'] eqn:E. cbn [fst snd] in H1, H2. subst ans'.
  rewrite H2.
  destruct (IH (i', j', st.2 ++ ops1)) as (ops2 & H3 & H4).
  destruct (IH (i', j', ops1)) as (ops3 & H5 & H6).
  cbn [fst snd] in H3, H4, H5, H6. rewrite H6 in H4. subst ops3.
  exists (ops1 ++ ops2). split.
  - by rewrite H3 app_assoc.
  - by rewrite H5 H4.
Qed.

Lemma opcodes_tiles core : ∀ i0 j0,
  chained a b i0 j0 core → i0 ≤ length a → j0 ≤ length b →
  tiles i0 j0 (foldl opcode_step (i0, j0, []) (core ++ [(length a, length b, 0)])).2.
Proof.
  induction core as [|[[i j] k] core IH]; intros i0 j0 Hc Hi0 Hj0.
  - cbn. repeat case_bool_decide; try lia; cbn.
    + repeat constructor; cbn; lia.
    + repeat constructor; cbn; lia.
    + repeat constructor; cbn; lia.
    + replace i0 with (length a) by lia. replace j0 with (length b) by lia. constructor.
  - destruct Hc as (Hi & Hj & Hk & Hik & Hjk & Hsame & Hc).
    cbn [app foldl].
    destruct (opcodes_fold_acc (core ++ [(length a, length b, 0)])
                (opcode_step (i0, j0, []) (i, j, k))) as (ops & -> & Hops).
    assert ((opcode_step (i0, j0, []) (i, j, k)).1 = (i + k, j + k)) as Hst.
    { unfold opcode_step. by repeat case_bool_decide. }
    rewrite Hst in Hops. cbn in Hops.
    specialize (IH (i + k) (j + k) Hc Hik Hjk). rewrite Hops in IH.
    assert (op_ok (Equal, i, i + k, j, j + k)) as Heq.
    { repeat split; try lia. by apply same_block_slice. }
    unfold opcode_step. cbn.
    rewrite (bool_decide_eq_true_2 (k ≠ 0)); [lia|].
    repeat case_bool_decide; try lia; cbn;
      try (constructor; [repeat split; lia|]);
      try (replace i0 with i by lia; replace j0 with j by lia);
      by constructor.
Qed.

Lemma get_opcodes_tiles :
  ∃ ops, get_opcodes isjunk autojunk a b = Some ops ∧ tiles 0 0 ops.
Proof.
  unfold get_opcodes.
  destruct (get_matching_blocks_spec isjunk autojunk a b) as (core & -> & Hc).
  eexists. split; [done|]. apply opcodes_tiles; [done|lia..].
Qed.

End Opcodes.

(** * [Differ.compare] restores both sequences *)

Ltac ounfold := unfold mbind, outcome_bind, mret, outcome_ret.

Arguments ratio : simpl never.
Arguments quick_ratio : simpl never.
Arguments real_quick_ratio : simpl never.
Arguments get_opcodes : simpl never.
Arguments get_matching_blocks : simpl never.
Arguments Differ._dump : simpl never.
Arguments Differ._qformat : simpl never.
Arguments Differ._plain_replace : simpl never.
Arguments Differ._fancy_helper : simpl never.
Arguments Differ.fancy_search : simpl never.
Arguments unchanged_line : simpl never.
Arguments removed_line : simpl never.
Arguments added_line : simpl never.

(** ** The columns of the renderer *)

Lemma render_line_acc s t x :
  render_line (s, t) x
  = (s ++ (render_line ([], []) x).1, t ++ (render_line ([], []) x).2).
Proof.
  unfold render_line.
  repeat (destruct (startswith x _)); cbn; by rewrite ?app_nil_r.
Qed.

Lemma cols_acc d : ∀ s t,
  foldl render_line (s, t) d = (s ++ (cols d).1, t ++ (cols d).2).
Proof.
  unfold cols. induction d as [|x d IH]; intros s t; cbn [foldl].
  { by rewrite !app_nil_r. }
  rewrite render_line_acc.
  destruct (render_line ([], []) x) as [sx tx]. cbn [fst snd].
  rewrite IH (IH sx tx). cbn. by rewrite !app_assoc.
Qed.

Lemma cols_app d1 d2 :
  cols (d1 ++ d2) = ((cols d1).1 ++ (cols d2).1, (cols d1).2 ++ (cols d2).2).
Proof.
  unfold cols at 1. rewrite foldl_app. fold (cols d1).
  destruct (cols d1) as [s t]. apply cols_acc.
Qed.

Lemma cols_nil : cols [] = ([], []).
Proof. reflexivity. Qed.

Lemma startswith_2 (c1 c2 p1 p2 : N) (rest : str) :
  startswith (c1 :: c2 :: rest) [p1; p2] = bool_decide (c1 = p1 ∧ c2 = p2).
Proof.
  unfold startswith. cbn. apply bool_decide_ext. naive_solver.
Qed.

Lemma cols_unchanged c :
  cols [py "  " ++ c] = ([unchanged_line c], [unchanged_line c]).
Proof. reflexivity. Qed.

Lemma cols_removed c : cols [py "- " ++ c] = ([removed_line c], []).
Proof. reflexivity. Qed.

Lemma cols_added c : cols [py "+ " ++ c] = ([], [added_line c]).
Proof. reflexivity. Qed.

Lemma cols_hint c : cols [py "? " ++ c] = ([], []).
Proof. reflexivity. Qed.

Lemma cols_fmap_unchanged l :
  cols ((λ c, py "  " ++ c) <$> l) = (unchanged_line <$> l, unchanged_line <$> l).
Proof.
  induction l as [|c l IH]; [done|].
  change ((λ c, py "  " ++ c) <$> c :: l)
    with ([py "  " ++ c] ++ ((λ c, py "  " ++ c) <$> l)).
  by rewrite cols_app IH cols_unchanged.
Qed.

Lemma cols_fmap_removed l :
  cols ((λ c, py "- " ++ c) <$> l) = (removed_line <$> l, []).
Proof.
  induction l as [|c l IH]; [done|].
  change ((λ c, py "- " ++ c) <$> c :: l)
    with ([py "- " ++ c] ++ ((λ c, py "- " ++ c) <$> l)).
  by rewrite cols_app IH cols_removed.
Qed.

Lemma cols_fmap_added l :
  cols ((λ c, py "+ " ++ c) <$> l) = ([], added_line <$> l).
Proof.
  induction l as [|c l IH]; [done|].
  change ((λ c, py "+ " ++ c) <$> c :: l)
    with ([py "+ " ++ c] ++ ((λ c, py "+ " ++ c) <$> l)).
  by rewrite cols_app IH cols_added.
Qed.

Lemma shows_app c1 c2 la1 lb1 la2 lb2 :
  shows c1 la1 lb1 → shows c2 la2 lb2 →
  shows (c1.1 ++ c2.1, c1.2 ++ c2.2) (la1 ++ la2) (lb1 ++ lb2).
Proof. intros [??] [??]. split; by apply Forall2_app. Qed.

Lemma renders_app d1 d2 la1 lb1 la2 lb2 :
  renders d1 la1 lb1 → renders d2 la2 lb2 →
  renders (d1 ++ d2) (la1 ++ la2) (lb1 ++ lb2).
Proof. unfold renders. rewrite cols_app. apply shows_app. Qed.

Lemma renders_nil : renders [] [] [].
Proof. split; constructor. Qed.

Lemma shows_unchanged l : shows (unchanged_line <$> l, unchanged_line <$> l) l l.
Proof. split; cbn; apply Forall2_fmap_l, Forall_Forall2_diag, Forall_forall; auto. Qed.

Lemma shows_removed l : shows (removed_line <$> l, []) l [].
Proof.
  split; cbn; [|constructor].
  apply Forall2_fmap_l, Forall_Forall2_diag, Forall_forall; auto.
Qed.

Lemma shows_added l : shows ([], added_line <$> l) [] l.
Proof.
  split; cbn; [constructor|].
  apply Forall2_fmap_l, Forall_Forall2_diag, Forall_forall; auto.
Qed.

(** ** [_dump], [_qformat], [_plain_replace] *)

Lemma dump_seq (tag : str) (x : list str) n : ∀ lo,
  lo + n ≤ length x →
  mapM (λ i, line ← x !! i; Some (tag ++ py " " ++ line)) (seq lo n)
  = Some ((λ line, tag ++ py " " ++ line) <$> take n (drop lo x)).
Proof.
  induction n as [|n IH]; intros lo Hlen; [done|].
  destruct (lookup_lt_is_Some_2 x lo) as [v Hv]; [lia|].
  cbn [seq mapM]. rewrite Hv IH; [lia|]. cbn.
  by rewrite (drop_S _ v lo).
Qed.

Lemma dump_spec tag x lo hi :
  lo ≤ hi → hi ≤ length x →
  Differ._dump tag x lo hi = Some ((λ line, tag ++ py " " ++ line) <$> slice lo hi x).
Proof. intros Hlo Hhi. apply dump_seq. lia. Qed.

Lemma dump_removed x lo hi :
  lo ≤ hi → hi ≤ length x →
  ∃ d, Differ._dump (py "-") x lo hi = Some d ∧ cols d = (removed_line <$> slice lo hi x, []).
Proof.
  intros Hlo Hhi. rewrite dump_spec //. eexists. split; [done|].
  apply cols_fmap_removed.
Qed.

Lemma dump_added x lo hi :
  lo ≤ hi → hi ≤ length x →
  ∃ d, Differ._dump (py "+") x lo hi = Some d ∧ cols d = ([], added_line <$> slice lo hi x).
Proof.
  intros Hlo Hhi. rewrite dump_spec //. eexists. split; [done|].
  apply cols_fmap_added.
Qed.

Lemma dump_unchanged x lo hi :
  lo ≤ hi → hi ≤ length x →
  ∃ d, Differ._dump (py " ") x lo hi = Some d
       ∧ cols d = (unchanged_line <$> slice lo hi x, unchanged_line <$> slice lo hi x).
Proof.
  intros Hlo Hhi. rewrite dump_spec //. eexists. split; [done|].
  apply cols_fmap_unchanged.
Qed.

Lemma qformat_cols aline bline atags btags :
  cols (Differ._qformat aline bline atags btags) = ([removed_line aline], [added_line bline]).
Proof.
  unfold Differ._qformat.
  rewrite !cols_app cols_removed cols_added.
  repeat case_bool_decide; by rewrite ?cols_hint ?cols_nil.
Qed.

Lemma plain_replace_renders a alo ahi b blo bhi :
  alo < ahi → ahi ≤ length a → blo < bhi → bhi ≤ length b →
  ∃ d, Differ._plain_replace a alo ahi b blo bhi = Some d
       ∧ renders d (slice alo ahi a) (slice blo bhi b).
Proof.
  intros Ha Hla Hb Hlb. unfold Differ._plain_replace.
  rewrite bool_decide_eq_true_2 //.
  destruct (dump_removed a alo ahi) as (d1 & -> & H1); [lia..|].
  destruct (dump_added b blo bhi) as (d2 & -> & H2); [lia..|].
  case_bool_decide; cbn; (eexists; split; [done|]);
    unfold renders; rewrite cols_app H1 H2; cbn; rewrite ?app_nil_r;
    split; cbn; apply Forall2_fmap_l, Forall_Forall2_diag, Forall_forall; auto.
Qed.

(** ** The search of [_fancy_replace] *)

Lemma foldlM_inv {S X} (P : S → Prop) (Q : X → Prop) (f : S → X → option S) l : ∀ st,
  Forall Q l →
  (∀ st x, Q x → P st → ∃ st', f st x = Some st' ∧ P st') →
  P st →
  ∃ st', foldlM f st l = Some st' ∧ P st'.
Proof.
  induction l as [|x l IH]; intros st HQ Hf HP; cbn; [eauto|].
  apply Forall_cons in HQ as [Hx HQ].
  destruct (Hf st x Hx HP) as (st' & -> & HP'). cbn. by apply IH.
Qed.

Lemma ratio_total `{Countable A} isjunk autojunk (a b : list A) :
  ∃ r, ratio isjunk autojunk a b = Some r.
Proof.
  unfold ratio.
  destruct (get_matching_blocks_spec isjunk autojunk a b) as (core & -> & _).
  cbn. eauto.
Qed.

Section Fancy.
Variable linejunk : option (str → bool).
Variable charjunk : option (N → bool).
Variables a b : list str.

(** What the search knows about the pairs it keeps. *)
Definition fancy_inv (alo ahi blo bhi : nat) (st : Differ.fancy_state) : Prop :=
  let '(best_ratio, best, eq) := st in
  (∀ i j, eq = Some (i, j) →
          alo ≤ i ∧ i < ahi ∧ blo ≤ j ∧ j < bhi
          ∧ ∃ x, a !! i = Some x ∧ b !! j = Some x)
  ∧ (∀ i j, best = Some (i, j) → alo ≤ i ∧ i < ahi ∧ blo ≤ j ∧ j < bhi)
  ∧ (best = None → best_ratio = 0.74%float).

Lemma range_Forall lo hi : Forall (λ i, lo ≤ i ∧ i < hi) (range lo hi).
Proof. apply Forall_forall. intros i Hi%elem_of_seq. lia. Qed.

Lemma fancy_search_spec alo ahi blo bhi :
  ahi ≤ length a → bhi ≤ length b →
  ∃ st, Differ.fancy_search charjunk a alo ahi b blo bhi = Some st
        ∧ fancy_inv alo ahi blo bhi st.
Proof.
  intros Hla Hlb. unfold Differ.fancy_search.
  apply (foldlM_inv _ (λ j, blo ≤ j ∧ j < bhi)); [apply range_Forall| |by repeat split].
  intros st j [Hj1 Hj2] Hst.
  destruct (lookup_lt_is_Some_2 b j) as [bj Hbj]; [lia|]. rewrite Hbj. cbn.
  apply (foldlM_inv _ (λ i, alo ≤ i ∧ i < ahi)); [apply range_Forall| |done].
  clear st Hst. intros [[best_ratio best] eq] i [Hi1 Hi2] (Heq & Hbest & Hnone).
  destruct (lookup_lt_is_Some_2 a i) as [ai Hai]; [lia|].
  unfold Differ.fancy_cell. rewrite Hai. cbn.
  case_bool_decide as Hsame.
  { eexists. split; [done|]. split; [|done].
    intros i' j'. destruct eq as [[??]|]; [by apply Heq|].
    intros [= <- <-]. subst. eauto 10. }
  destruct (_ && _); [|by eexists; split].
  destruct (ratio_total charjunk true ai bj) as [r ->]. cbn.
  destruct (PrimFloat.ltb best_ratio r); (eexists; split; [done|]); [|done].
  split; [done|]. split; [|done]. by intros i' j' [= <- <-].
Qed.

Lemma settles_ok room d la lb : renders d la lb → settles room (Ok d) la lb.
Proof. left. eauto. Qed.

Lemma settles_deep room la lb :
  room < min (length la) (length lb) → settles room (Raise RecursionError) la lb.
Proof. by right. Qed.

Lemma fancy_helper_settles room rec alo ahi blo bhi :
  alo ≤ ahi → ahi ≤ length a → blo ≤ bhi → bhi ≤ length b →
  (alo < ahi → blo < bhi →
   settles room (rec alo ahi blo bhi) (slice alo ahi a) (slice blo bhi b)) →
  settles room (Differ._fancy_helper rec a alo ahi b blo bhi)
    (slice alo ahi a) (slice blo bhi b).
Proof.
  intros Ha Hla Hb Hlb Hrec. unfold Differ._fancy_helper.
  repeat case_bool_decide.
  - by apply Hrec.
  - replace bhi with blo by lia. rewrite slice_empty.
    destruct (dump_removed a alo ahi) as (d & -> & Hd); [lia..|].
    apply settles_ok. unfold renders. rewrite Hd. apply shows_removed.
  - replace ahi with alo by lia. rewrite slice_empty.
    destruct (dump_added b blo bhi) as (d & -> & Hd); [lia..|].
    apply settles_ok. unfold renders. rewrite Hd. apply shows_added.
  - replace ahi with alo by lia. replace bhi with blo by lia.
    rewrite !slice_empty. apply settles_ok, renders_nil.
Qed.

Lemma synch_middle_renders (identical : bool) (aelt belt : str) :
  (identical = true → aelt = belt) →
  ∃ d2, (if identical then Some [py "  " ++ aelt]
         else
           opcodes ← get_opcodes charjunk true aelt belt;
           let '(atags, btags) := foldl Differ.tags_step ([], []) opcodes in
           Some (Differ._qformat aelt belt atags btags)) = Some d2
        ∧ renders d2 [aelt] [belt].
Proof.
  intros Hid. destruct identical.
  - eexists. split; [done|]. rewrite -Hid //.
    unfold renders. rewrite cols_unchanged. apply (shows_unchanged [_]).
  - destruct (get_opcodes_tiles charjunk true aelt belt) as (ops & -> & _). cbn.
    destruct (foldl _ _ _) as [atags btags].
    eexists. split; [done|]. unfold renders. rewrite qformat_cols.
    split; cbn; (constructor; [auto|constructor]).
Qed.

Lemma fancy_replace_settles room : ∀ alo ahi blo bhi,
  alo < ahi → ahi ≤ length a → blo < bhi → bhi ≤ length b →
  settles room (Differ._fancy_replace charjunk room a b alo ahi blo bhi)
    (slice alo ahi a) (slice blo bhi b).
Proof.
  induction room as [|room IH]; intros alo ahi blo bhi Ha Hla Hb Hlb.
  { apply settles_deep. rewrite !slice_length; lia. }
  cbn [Differ._fancy_replace].
  destruct (fancy_search_spec alo ahi blo bhi Hla Hlb)
    as ([[best_ratio best] eq] & -> & Heq & Hbest & Hnone).
  cbn [computed]. ounfold. cbv beta iota.
  (* the synch point and what is pumped out around it *)
  assert (∀ best_i best_j (identical : bool),
            alo ≤ best_i → best_i < ahi → blo ≤ best_j → best_j < bhi →
            (identical = true → ∃ x, a !! best_i = Some x ∧ b !! best_j = Some x) →
            settles (S room)
              match Differ._fancy_helper (Differ._fancy_replace charjunk room a b)
                      a alo best_i b blo best_j with
              | Ok before =>
                  match computed (a !! best_i) with
                  | Ok aelt =>
                      match computed (b !! best_j) with
                      | Ok belt =>
                          match
                            computed
                              (if identical then Some [py "  " ++ aelt]
                               else
                                 opcodes ← get_opcodes charjunk true aelt belt;
                                 let '(atags, btags) :=
                                   foldl Differ.tags_step ([], []) opcodes in
                                 Some (Differ._qformat aelt belt atags btags))
                          with
                          | Ok middle =>
                              match Differ._fancy_helper
                                      (Differ._fancy_replace charjunk room a b)
                                      a (best_i + 1) ahi b (best_j + 1) bhi with
                              | Ok after => Ok (before ++ middle ++ after)
                              | Raise e => Raise e
                              | NoAnswer => NoAnswer
                              end
                          | Raise e => Raise e
                          | NoAnswer => NoAnswer
                          end
                      | Raise e => Raise e
                      | NoAnswer => NoAnswer
                      end
                  | Raise e => Raise e
                  | NoAnswer => NoAnswer
                  end
              | Raise e => Raise e
              | NoAnswer => NoAnswer
              end (slice alo ahi a) (slice blo bhi b)) as Hsynch.
  { intros best_i best_j identical Hi1 Hi2 Hj1 Hj2 Hid.
    destruct (fancy_helper_settles room (Differ._fancy_replace charjunk room a b)
                alo best_i blo best_j) as [(d1 & -> & Hd1) | [-> Hdeep]]; [lia..| | |].
    { intros ??. apply IH; lia. }
    2:{ apply settles_deep. rewrite !slice_length in Hdeep; [lia..|].
        rewrite !slice_length; lia. }
    destruct (lookup_lt_is_Some_2 a best_i) as [aelt Haelt]; [lia|].
    destruct (lookup_lt_is_Some_2 b best_j) as [belt Hbelt]; [lia|].
    rewrite Haelt Hbelt. cbn [computed].
    destruct (synch_middle_renders identical aelt belt) as (d2 & -> & Hd2).
    { intros Hi. destruct (Hid Hi) as (x & Hx1 & Hx2). congruence. }
    cbn [computed].
    destruct (fancy_helper_settles room (Differ._fancy_replace charjunk room a b)
                (best_i + 1) ahi (best_j + 1) bhi) as [(d3 & -> & Hd3) | [-> Hdeep]];
      [lia..| | |].
    { intros ??. apply IH; lia. }
    2:{ apply settles_deep. rewrite !slice_length in Hdeep; [lia..|].
        rewrite !slice_length; lia. }
    apply settles_ok.
    rewrite (slice_app alo best_i ahi a); [lia..|].
    rewrite (slice_app blo best_j bhi b); [lia..|].
    rewrite (slice_cons best_i ahi a aelt); [done|lia|].
    rewrite (slice_cons best_j bhi b belt); [done|lia|].
    rewrite !Nat.add_1_r in Hd3.
    apply renders_app; [done|]. by apply (renders_app _ _ [_] [_]). }
  destruct (PrimFloat.ltb best_ratio 0.75) eqn:Hcut.
  - destruct eq as [[eqi eqj]|].
    + destruct (Heq eqi eqj) as (Hi1 & Hi2 & Hj1 & Hj2 & Hx); [done|].
      exact (Hsynch eqi eqj true Hi1 Hi2 Hj1 Hj2 (λ _, Hx)).
    + destruct (plain_replace_renders a alo ahi b blo bhi) as (d & -> & Hd); [done..|].
      by apply settles_ok.
  - destruct best as [[best_i best_j]|].
    + destruct (Hbest best_i best_j) as (Hi1 & Hi2 & Hj1 & Hj2); [done|].
      cbn [computed].
      refine (Hsynch best_i best_j false Hi1 Hi2 Hj1 Hj2 _). discriminate.
    + rewrite Hnone in Hcut; [done|]. by vm_compute in Hcut.
Qed.

(** ** [compare] *)

Lemma compare_ops_settles room ops i j :
  tiles a b i j ops →
  settles room
    (gs ← mapM (λ op : opcode,
                  let '(tag, alo, ahi, blo, bhi) := op in
                  match tag with
                  | Replace => Differ._fancy_replace charjunk room a b alo ahi blo bhi
                  | Delete => computed (Differ._dump (py "-") a alo ahi)
                  | Insert => computed (Differ._dump (py "+") b blo bhi)
                  | Equal => computed (Differ._dump (py " ") a alo ahi)
                  end) ops;
     Ok (concat gs))
    (slice i (length a) a) (slice j (length b) b).
Proof.
  induction 1 as [|tag i i' j j' ops Hop Hops IH].
  { rewrite !slice_empty. apply settles_ok, renders_nil. }
  cbn [mapM].
  destruct Hop as (Hi & Hia & Hj & Hjb & Htag).
  assert (settles room
            match tag with
            | Replace => Differ._fancy_replace charjunk room a b i i' j j'
            | Delete => computed (Differ._dump (py "-") a i i')
            | Insert => computed (Differ._dump (py "+") b j j')
            | Equal => computed (Differ._dump (py " ") a i i')
            end (slice i i' a) (slice j j' b)) as Hg.
  { destruct tag.
    - destruct Htag. apply fancy_replace_settles; lia.
    - destruct Htag as [? <-]. rewrite slice_empty.
      destruct (dump_removed a i i') as (d & -> & Hd); [lia..|].
      apply settles_ok. unfold renders. rewrite Hd. apply shows_removed.
    - destruct Htag as [<- ?]. rewrite slice_empty.
      destruct (dump_added b j j') as (d & -> & Hd); [lia..|].
      apply settles_ok. unfold renders. rewrite Hd. apply shows_added.
    - destruct Htag as [? <-].
      destruct (dump_unchanged a i i') as (d & -> & Hd); [lia..|].
      apply settles_ok. unfold renders. rewrite Hd. apply shows_unchanged. }
  assert (length (slice i (length a) a) = length a - i
          ∧ length (slice j (length b) b) = length b - j) as [Hlena Hlenb].
  { rewrite !slice_length; lia. }
  destruct Hg as [(g & -> & Hg) | [-> Hdeep]].
  2:{ apply settles_deep. rewrite !slice_length in Hdeep; [lia..|]. lia. }
  revert IH. ounfold. cbv beta iota.
  intros [(d & Hd & Hr) | [Hd Hdeep]].
  - destruct (mapM _ ops) as [gs| |]; [|done..]. injection Hd as <-.
    apply settles_ok. cbn [concat].
    rewrite (slice_app i i' (length a) a); [lia..|].
    rewrite (slice_app j j' (length b) b); [lia..|].
    by apply renders_app.
  - destruct (mapM _ ops) as [gs| |]; [done| |done]. injection Hd as ->.
    apply settles_deep. rewrite !slice_length in Hdeep; [lia..|]. lia.
Qed.

Lemma compare_settles room :
  settles room (Differ.compare linejunk charjunk room a b) a b.
Proof.
  unfold Differ.compare.
  destruct (get_opcodes_tiles linejunk true a b) as (ops & -> & Hops).
  cbn [computed]. change (mbind ?f (Ok ops)) with (f ops). cbv beta.
  pose proof (compare_ops_settles room ops 0 0 Hops) as H.
  by rewrite !slice_full in H.
Qed.

End Fancy.

(** * A sequence compared with itself is one matching block *)

Arguments find_longest_match : simpl never.

Section Diagonal.
Context `{Countable A}.
Variable autojunk : bool.
Variable a : list A.

(** Row [i] is indexed when [a[i]] is a key of [b2j] (it is neither junk
    nor popular). *)
Definition indexed (i : nat) : bool :=
  match a !! i with
  | Some x => bool_decide (is_Some (b2j_of None autojunk a !! x))
  | None => false
  end.

(** The number of consecutive indexed rows that end at row [i]: the
    length the loop finds on the diagonal at [(i, i)]. *)
Fixpoint diag_run (i : nat) : nat :=
  match i with
  | O => if indexed 0 then 1 else 0
  | S i' => if indexed (S i') then S (diag_run i') else 0
  end.

Definition diag_prev (i : nat) : nat :=
  match i with O => 0 | S i' => diag_run i' end.

Definition k_of (j2len : gmap nat nat) (j : nat) : nat :=
  match j with O => 0 | S j' => default 0 (j2len !! j') end + 1.

Lemma diag_run_indexed i : indexed i = true → diag_run i = diag_prev i + 1.
Proof. destruct i; cbn; intros ->; lia. Qed.

Lemma diag_run_not_indexed i : indexed i = false → diag_run i = 0.
Proof. by destruct i; cbn; intros ->. Qed.

Lemma indexed_lookup i x js :
  a !! i = Some x → b2j_of None autojunk a !! x = Some js → indexed i = true.
Proof. intros Hx Hjs. unfold indexed. rewrite Hx Hjs. by apply bool_decide_eq_true_2. Qed.

(** What the table of the previous row says, seen from row [i]. *)
Definition j2len_ok (i : nat) (j2len : gmap nat nat) : Prop :=
  (∀ j k, j2len !! j = Some k → 0 < i ∧ k ≤ diag_run ((i - 1) `min` j))
  ∧ match i with O => True | S i' => default 0 (j2len !! i') = diag_run i' end.

Lemma k_of_bound i j x js j2len :
  a !! i = Some x → a !! j = Some x → b2j_of None autojunk a !! x = Some js →
  j2len_ok i j2len →
  k_of j2len j ≤ diag_run (i `min` j).
Proof.
  intros Hi Hj Hjs [Hbound _].
  assert (indexed (i `min` j) = true) as Hidx.
  { destruct (Nat.min_spec i j) as [[_ ->]|[_ ->]]; by eapply indexed_lookup. }
  rewrite (diag_run_indexed _ Hidx). unfold k_of.
  destruct j as [|j']; [lia|].
  destruct (j2len !! j') as [p|] eqn:E; cbn; [|lia].
  destruct (Hbound _ _ E) as [Hpos Hp].
  destruct i as [|i']; [lia|].
  replace (S i' - 1) with i' in Hp by lia.
  rewrite -Nat.succ_min_distr. cbn [diag_prev]. lia.
Qed.

Lemma k_of_diag i j2len :
  indexed i = true → j2len_ok i j2len → k_of j2len i = diag_run i.
Proof.
  intros Hidx [_ Hdiag]. rewrite (diag_run_indexed _ Hidx). unfold k_of.
  destruct i as [|i']; [done|]. cbn. by rewrite Hdiag.
Qed.

(** The columns off the diagonal never beat the best diagonal run. *)
Lemma flm_row_off_diagonal i x js j2len l : ∀ rest newj2len bi bj bk,
  a !! i = Some x → b2j_of None autojunk a !! x = Some js →
  j2len_ok i j2len →
  Forall (λ j, j ≠ i ∧ a !! j = Some x ∧ diag_run (i `min` j) ≤ bk) l →
  (∀ j k, newj2len !! j = Some k → k ≤ diag_run (i `min` j)) →
  ∃ newj2len',
    flm_row i 0 (length a) j2len (l ++ rest) newj2len (bi, bj, bk)
    = flm_row i 0 (length a) j2len rest newj2len' (bi, bj, bk)
    ∧ (∀ j k, newj2len' !! j = Some k → k ≤ diag_run (i `min` j))
    ∧ (i ∉ l → newj2len' !! i = newj2len !! i).
Proof.
  induction l as [|j l IH]; intros rest newj2len bi bj bk Hi Hjs Hok Hl Hnew.
  { by exists newj2len. }
  apply Forall_cons in Hl as [(Hne & Hj & Hbk) Hl].
  cbn [app flm_row].
  rewrite bool_decide_eq_false_2; [lia|].
  rewrite bool_decide_eq_false_2; [apply lookup_lt_Some in Hj; lia|].
  fold (k_of j2len j).
  pose proof (k_of_bound i j x js j2len Hi Hj Hjs Hok) as Hk.
  cbn [snd]. rewrite (bool_decide_eq_false_2 (bk < k_of j2len j)); [lia|].
  destruct (IH rest (<[j := k_of j2len j]> newj2len) bi bj bk)
    as (nj & -> & Hnj & Hnji); [done..| |].
  { intros j' k'. rewrite lookup_insert. case_decide; [|by apply Hnew].
    by intros [= <-]; subst. }
  exists nj. split; [done|]. split; [done|].
  intros Hnotin. rewrite Hnji; [set_solver|]. rewrite lookup_insert_ne //.
Qed.

(** One row keeps the best match on the diagonal, at least as long as
    every diagonal run seen so far. *)
Lemma flm_row_diagonal i x j2len d bk :
  a !! i = Some x → j2len_ok i j2len →
  (∀ m, m < i → diag_run m ≤ bk) →
  ∃ newj2len d' bk',
    flm_row i 0 (length a) j2len (default [] (b2j_of None autojunk a !! x)) ∅ (d, d, bk)
    = (newj2len, (d', d', bk'))
    ∧ j2len_ok (S i) newj2len
    ∧ (∀ m, m < S i → diag_run m ≤ bk').
Proof.
  intros Hi Hok Hbest.
  destruct (b2j_of None autojunk a !! x) as [js|] eqn:Hjs; cbn [default from_option id].
  2:{ exists ∅, d, bk. split; [done|].
      assert (diag_run i = 0) as H0.
      { apply diag_run_not_indexed. unfold indexed. rewrite Hi Hjs.
        apply bool_decide_eq_false_2. by intros [??]. }
      split; [split|].
      - intros j k. by rewrite lookup_empty.
      - by rewrite lookup_empty H0.
      - intros m Hm. destruct (decide (m = i)) as [->|]; [lia|]. apply Hbest. lia. }
  pose proof (indexed_lookup i x js Hi Hjs) as Hidx.
  pose proof (b2j_of_lookup _ _ _ _ _ Hjs) as Hpos.
  assert (i ∈ js) as Hin.
  { rewrite Hpos. apply elem_of_positions_from. split; [lia|by rewrite Nat.sub_0_r]. }
  assert (StronglySorted lt js) as Hsorted.
  { rewrite Hpos. apply positions_from_sorted. }
  assert (∀ j, j ∈ js → a !! j = Some x) as Hall.
  { intros j Hj. by eapply b2j_of_elem. }
  apply list_elem_of_split in Hin as (l1 & l2 & ->).
  apply StronglySorted_app in Hsorted as (Hlt & _ & Hs2).
  apply StronglySorted_inv in Hs2 as [_ Hgt].
  (* the columns before the diagonal *)
  destruct (flm_row_off_diagonal i x (l1 ++ i :: l2) j2len l1 (i :: l2) ∅ d d bk)
    as (nj1 & -> & Hnj1 & Hnj1i); [done..| | |].
  { apply Forall_forall. intros j Hj.
    assert (j < i) as Hji by (apply (Hlt j i); set_solver).
    split; [lia|]. split; [apply Hall; set_solver|].
    rewrite Nat.min_r; [lia|]. apply Hbest. lia. }
  { intros j k. by rewrite lookup_empty. }
  (* the diagonal *)
  cbn [flm_row].
  rewrite bool_decide_eq_false_2; [lia|].
  rewrite bool_decide_eq_false_2; [apply lookup_lt_Some in Hi; lia|].
  fold (k_of j2len i). rewrite (k_of_diag i j2len Hidx Hok). cbn [snd].
  set (best' := if bool_decide (bk < diag_run i)
                then (i + 1 - diag_run i, i + 1 - diag_run i, diag_run i)
                else (d, d, bk)).
  assert (∃ d' bk', best' = (d', d', bk') ∧ ∀ m, m < S i → diag_run m ≤ bk')
    as (d' & bk' & -> & Hbest').
  { unfold best'. case_bool_decide; eexists _, _; (split; [done|]);
      intros m Hm; destruct (decide (m = i)) as [->|]; try lia;
      specialize (Hbest m); lia. }
  (* the columns after the diagonal *)
  destruct (flm_row_off_diagonal i x (l1 ++ i :: l2) j2len l2 []
              (<[i := diag_run i]> nj1) d' d' bk')
    as (nj2 & Heq & Hnj2 & Hnj2i); [done..| | |].
  { apply Forall_forall. intros j Hj.
    assert (i < j) as Hij by (apply (proj1 (Forall_forall _ _) Hgt); done).
    split; [lia|]. split; [apply Hall; set_solver|].
    rewrite Nat.min_l; [lia|]. apply Hbest'. lia. }
  { intros j k. rewrite lookup_insert. case_decide; [|by apply Hnj1].
    intros [= <-]; subst. by rewrite Nat.min_id. }
  rewrite app_nil_r in Heq. rewrite Heq. cbn [flm_row].
  exists nj2, d', bk'. split; [done|]. split; [split|done].
  - intros j k Hjk. split; [lia|]. cbn. rewrite Nat.sub_0_r. by apply Hnj2.
  - rewrite Hnj2i ?lookup_insert_eq //.
    intros Hil2. pose proof (proj1 (Forall_forall _ _) Hgt _ Hil2). lia.
Qed.

Lemma flm_rows_diagonal rows : ∀ i0 j2len d bk,
  rows = seq i0 (length rows) → i0 + length rows ≤ length a →
  j2len_ok i0 j2len →
  (∀ m, m < i0 → diag_run m ≤ bk) →
  ∃ d' bk',
    flm_rows a (b2j_of None autojunk a) 0 (length a) rows j2len (d, d, bk)
    = Some (d', d', bk').
Proof.
  induction rows as [|i rows IH]; intros i0 j2len d bk Hrows Hlen Hok Hbest;
    cbn [flm_rows]; [eauto|].
  cbn in Hrows, Hlen. injection Hrows as -> Hrows.
  destruct (lookup_lt_is_Some_2 a i0) as [x Hx]; [lia|]. rewrite Hx.
  cbn [mbind option_bind].
  destruct (flm_row_diagonal i0 x j2len d bk Hx Hok Hbest)
    as (nj & d' & bk' & -> & Hok' & Hbest').
  apply (IH (S i0)); [done|lia|done|done].
Qed.

Lemma isbjunk_None (b : list A) (y : A) : isbjunk None autojunk b y = false.
Proof. unfold isbjunk, bjunk_of, chain_b. cbn. by apply bool_decide_eq_false_2. Qed.

Lemma extend_left_diagonal d : ∀ k,
  d + k ≤ length a →
  extend_left None autojunk a a false 0 0 d d k = Some (0, 0, k + d).
Proof.
  induction d as [|d IH]; intros k Hlen; cbn [extend_left].
  { by rewrite Nat.add_0_r. }
  rewrite bool_decide_eq_true_2; [lia|].
  replace (S d - 1) with d by lia.
  destruct (lookup_lt_is_Some_2 a d) as [x Hx]; [lia|]. rewrite Hx.
  cbn [mbind option_bind]. rewrite isbjunk_None.
  rewrite !bool_decide_eq_true_2 // IH; [lia|]. f_equal. f_equal. lia.
Qed.

Lemma extend_right_diagonal gap : ∀ k,
  k + gap = length a →
  extend_right None autojunk a a false (length a) (length a) 0 0 gap k
  = Some (0, 0, length a).
Proof.
  induction gap as [|gap IH]; intros k Hlen; cbn [extend_right].
  { by replace k with (length a) by lia. }
  rewrite bool_decide_eq_true_2; [lia|]. cbn [Nat.add].
  destruct (lookup_lt_is_Some_2 a k) as [x Hx]; [lia|]. rewrite Hx.
  cbn [mbind option_bind]. rewrite isbjunk_None.
  rewrite !bool_decide_eq_true_2 // IH //. lia.
Qed.

Lemma find_longest_match_self :
  find_longest_match None autojunk a a 0 (length a) 0 (length a)
  = Some (0, 0, length a).
Proof.
  unfold find_longest_match.
  destruct (flm_rows_diagonal (range 0 (length a)) 0 ∅ 0 0) as (d & k & Hrows).
  { by rewrite /range length_seq. }
  { rewrite /range length_seq. lia. }
  { split; [|done]. intros j k. by rewrite lookup_empty. }
  { intros m Hm. lia. }
  destruct (flm_rows_spec None autojunk a a 0 (length a) 0 (length a)
              (range 0 (length a)) 0 ∅ (0, 0, 0))
    as (m & Hm & Hgood).
  { by rewrite /range length_seq. }
  { done. }
  { rewrite /range length_seq. lia. }
  { done. }
  { intros j k'. by rewrite lookup_empty. }
  { repeat split; try lia. intros ? ?. lia. }
  rewrite Hrows in Hm. injection Hm as <-.
  destruct Hgood as (_ & Hdk & _).
  rewrite Hrows. cbn [mbind option_bind].
  rewrite extend_left_diagonal //. cbn [mbind option_bind].
  rewrite Nat.add_0_l (extend_right_diagonal (length a - (k + d)) (k + d)); [lia|].
  cbn [mbind option_bind extend_left].
  by rewrite Nat.add_0_l Nat.sub_diag.
Qed.

Lemma gmb_loop_done (b : list A) turns blocks :
  gmb_loop None autojunk a b turns [] blocks = Some blocks.
Proof. by destruct turns. Qed.

Lemma get_matching_blocks_self :
  get_matching_blocks None autojunk a a
  = Some (if bool_decide (0 < length a)
          then [(0, 0, length a); (length a, length a, 0)]
          else [(0, 0, 0)]).
Proof.
  unfold get_matching_blocks.
  replace (2 * length a + 1) with (S (2 * length a)) by lia.
  cbn [gmb_loop]. rewrite find_longest_match_self. cbn [mbind option_bind].
  destruct (decide (length a = 0)) as [Hz|Hnz].
  - rewrite Hz. rewrite (bool_decide_eq_false_2 (0 ≠ 0)); [lia|].
    rewrite gmb_loop_done. cbn. by rewrite (bool_decide_eq_false_2 (0 < 0)); [lia|].
  - rewrite (bool_decide_eq_true_2 (length a ≠ 0)) //.
    rewrite (bool_decide_eq_false_2 (0 < 0 ∧ 0 < 0)); [lia|].
    rewrite (bool_decide_eq_false_2 (0 + length a < length a ∧ _)); [lia|].
    rewrite gmb_loop_done. cbn.
    rewrite (bool_decide_eq_true_2 (0 = 0 ∧ 0 = 0)) //.
    rewrite (bool_decide_eq_true_2 (length a ≠ 0)) //.
    by rewrite (bool_decide_eq_true_2 (0 < length a)); [lia|].
Qed.

Lemma get_opcodes_self :
  get_opcodes None autojunk a a
  = Some (if bool_decide (0 < length a) then [(Equal, 0, length a, 0, length a)] else []).
Proof.
  unfold get_opcodes. rewrite get_matching_blocks_self. cbn [mbind option_bind].
  case_bool_decide as Hlen; cbn; repeat case_bool_decide; (lia || done).
Qed.

End Diagonal.

Lemma compare_self charjunk room (a : list str) :
  Differ.compare None charjunk room a a = Ok ((λ c, py "  " ++ c) <$> a).
Proof.
  unfold Differ.compare. rewrite get_opcodes_self. cbn [computed]. ounfold.
  case_bool_decide as Hlen.
  - cbn [mapM]. rewrite dump_spec; [lia..|]. cbn.
    by rewrite slice_full app_nil_r.
  - destruct a; [done|]. cbn in Hlen. lia.
Qed.

(** * A diff that recurses once per line *)

Local Close Scope Z_scope.

Lemma ratio_similar : ratio None true line_a line_b = Some similar_ratio.
Proof. vm_compute. reflexivity. Qed.

Lemma lines_differ : bool_decide (line_a = line_b) = false.
Proof. vm_compute. reflexivity. Qed.

Lemma splitlines_line (line : str) (rest : str) :
  Forall (λ c, is_linebreak c = false) line →
  ∀ read, splitlines_from read (line ++ 10%N :: rest)
          = (read ++ line) :: splitlines_from [] rest.
Proof.
  induction 1 as [|c line Hc _ IH]; intros read.
  - cbn [app splitlines_from]. rewrite app_nil_r.
    change (is_linebreak 10) with true. cbv iota. by destruct rest as [|[|?] ?].
  - cbn [app splitlines_from]. rewrite Hc IH. by rewrite -app_assoc.
Qed.

Lemma splitlines_replicate (line : str) (n : nat) :
  Forall (λ c, is_linebreak c = false) line →
  splitlines (join (replicate n (line ++ [10%N]))) = replicate n line.
Proof.
  intros Hline. unfold splitlines, join.
  induction n as [|n IH]; [done|].
  cbn [replicate concat]. rewrite -app_assoc. cbn [app].
  by rewrite (splitlines_line line _ Hline []) IH.
Qed.

Lemma similar_lines_lines (n : nat) :
  source_lines_of (similar_lines n) = replicate n line_a
  ∧ target_lines_of (similar_lines n) = Ok (replicate n line_b).
Proof.
  unfold source_lines_of, target_lines_of, target_sql_or_empty. cbn [similar_lines
    source_sql target_sql]. ounfold.
  rewrite !splitlines_replicate //; by vm_compute; repeat constructor.
Qed.

Section Deep.
Variable n : nat.

Lemma similar_cell_first (i j : nat) :
  i < n →
  Differ.fancy_cell None (replicate n line_a) j line_b (0.74%float, None, None) i
  = Some (similar_ratio, Some (i, j), None).
Proof.
  intros Hi. unfold Differ.fancy_cell. rewrite lookup_replicate_2; [lia|].
  cbn [mbind option_bind]. rewrite lines_differ.
  replace (PrimFloat.ltb 0.74 (real_quick_ratio line_a line_b)
           && PrimFloat.ltb 0.74 (quick_ratio line_a line_b)) with true
    by (vm_compute; reflexivity).
  rewrite ratio_similar. cbn [mbind option_bind].
  by replace (PrimFloat.ltb 0.74 similar_ratio) with true by (vm_compute; reflexivity).
Qed.

Lemma similar_cell_later (i j : nat) (best : option (nat * nat)) :
  i < n →
  Differ.fancy_cell None (replicate n line_a) j line_b (similar_ratio, best, None) i
  = Some (similar_ratio, best, None).
Proof.
  intros Hi. unfold Differ.fancy_cell. rewrite lookup_replicate_2; [lia|].
  cbn [mbind option_bind]. rewrite lines_differ.
  destruct (_ && _); [|done].
  rewrite ratio_similar. cbn [mbind option_bind].
  by replace (PrimFloat.ltb similar_ratio similar_ratio) with false
    by (vm_compute; reflexivity).
Qed.

Lemma similar_row_later (j : nat) (best : option (nat * nat)) (l : list nat) :
  Forall (λ i, i < n) l →
  foldlM (Differ.fancy_cell None (replicate n line_a) j line_b)
    (similar_ratio, best, None) l
  = Some (similar_ratio, best, None).
Proof.
  induction 1 as [|i l Hi _ IH]; [done|].
  cbn [foldlM]. rewrite similar_cell_later //.
Qed.

Lemma range_lt (lo hi : nat) : hi ≤ n → Forall (λ i, i < n) (range lo hi).
Proof. intros Hhi. apply Forall_forall. intros i Hi%elem_of_seq. lia. Qed.

Lemma range_cons (lo hi : nat) : lo < hi → range lo hi = lo :: range (S lo) hi.
Proof.
  intros Hlo. unfold range. replace (hi - lo) with (S (hi - S lo)) by lia. done.
Qed.

Lemma similar_row_first (alo ahi j : nat) :
  alo < ahi → ahi ≤ n →
  foldlM (Differ.fancy_cell None (replicate n line_a) j line_b)
    (0.74%float, None, None) (range alo ahi)
  = Some (similar_ratio, Some (alo, j), None).
Proof.
  intros Ha Hla. rewrite (range_cons alo ahi) //. cbn [foldlM].
  rewrite similar_cell_first; [lia|]. cbn [mbind option_bind].
  rewrite similar_row_later; [by apply range_lt|]. done.
Qed.

Lemma similar_search (alo ahi blo bhi : nat) :
  alo < ahi → ahi ≤ n → blo < bhi → bhi ≤ n →
  Differ.fancy_search None (replicate n line_a) alo ahi (replicate n line_b) blo bhi
  = Some (similar_ratio, Some (alo, blo), None).
Proof.
  intros Ha Hla Hb Hlb. unfold Differ.fancy_search.
  rewrite (range_cons blo bhi) //. cbn [foldlM].
  rewrite lookup_replicate_2; [lia|]. cbn [mbind option_bind].
  rewrite similar_row_first //. cbn [mbind option_bind].
  assert (Forall (λ j, j < n) (range (S blo) bhi)) as Hrows by by apply range_lt.
  induction Hrows as [|j l Hj _ IH]; [done|].
  cbn [foldlM]. rewrite lookup_replicate_2 //. cbn [mbind option_bind].
  rewrite similar_row_later; [by apply range_lt|]. exact IH.
Qed.

Lemma similar_replace_too_deep (room : nat) : ∀ alo ahi blo bhi,
  alo < ahi → ahi ≤ n → blo < bhi → bhi ≤ n →
  room < min (ahi - alo) (bhi - blo) →
  Differ._fancy_replace None room (replicate n line_a) (replicate n line_b)
    alo ahi blo bhi
  = Raise RecursionError.
Proof.
  induction room as [|room IH]; intros alo ahi blo bhi Ha Hla Hb Hlb Hroom; [done|].
  cbn [Differ._fancy_replace]. rewrite similar_search //.
  cbn [computed]. ounfold. cbv beta iota.
  replace (PrimFloat.ltb similar_ratio 0.75) with false by (vm_compute; reflexivity).
  cbn [computed].
  unfold Differ._fancy_helper at 1.
  rewrite (bool_decide_eq_false_2 (alo < alo)); [lia|].
  rewrite (bool_decide_eq_false_2 (blo < blo)); [lia|].
  rewrite !lookup_replicate_2; [lia..|]. cbn [computed].
  destruct (get_opcodes_tiles None true line_a line_b) as (ops & -> & _).
  cbn [mbind option_bind]. destruct (foldl Differ.tags_step _ ops) as [atags btags].
  cbn [computed].
  unfold Differ._fancy_helper.
  rewrite (bool_decide_eq_true_2 (alo + 1 < ahi)); [lia|].
  rewrite (bool_decide_eq_true_2 (blo + 1 < bhi)); [lia|].
  rewrite IH //; lia.
Qed.

Lemma similar_opcodes :
  0 < n →
  get_opcodes None true (replicate n line_a) (replicate n line_b)
  = Some [(Replace, 0, n, 0, n)].
Proof.
  intros Hn. unfold get_opcodes.
  destruct (get_matching_blocks_spec None true (replicate n line_a) (replicate n line_b))
    as (core & -> & Hc).
  assert (core = []) as ->.
  { destruct core as [|[[i j] k] core]; [done|].
    destruct Hc as (_ & _ & Hk & Hik & Hjk & Hsame & _).
    destruct (Hsame 0 Hk) as (x & Hx1 & Hx2).
    apply lookup_replicate_1 in Hx1 as [-> _]. apply lookup_replicate_1 in Hx2 as [Hx2 _].
    pose proof lines_differ as Hne. by rewrite bool_decide_eq_true_2 in Hne. }
  rewrite !length_replicate. cbn.
  rewrite (bool_decide_eq_true_2 (0 < n ∧ 0 < n)); [lia|].
  rewrite (bool_decide_eq_false_2 (0 ≠ 0)); [lia|]. done.
Qed.

Lemma similar_compare_too_deep (room : nat) :
  room < n →
  Differ.compare None None room (replicate n line_a) (replicate n line_b)
  = Raise RecursionError.
Proof.
  intros Hroom. unfold Differ.compare. rewrite similar_opcodes; [lia|].
  cbn [computed]. ounfold. cbn [mapM]. ounfold.
  rewrite similar_replace_too_deep //; lia.
Qed.

End Deep.

Lemma similar_lines_too_deep (room n : nat) :
  room < n → diff_columns room (similar_lines n) = Raise RecursionError.
Proof.
  intros Hroom. destruct (similar_lines_lines n) as [Hsource Htarget].
  unfold diff_columns, diff_of. rewrite Htarget Hsource. ounfold.
  by rewrite similar_compare_too_deep.
Qed.

(** * The diff renderer *)

Arguments diff_columns : simpl never.
Arguments Differ.compare : simpl never.

Lemma chained_nil_r `{Countable A} (a : list A) core i0 j0 :
  chained a [] i0 j0 core → core = [].
Proof.
  destruct core as [|[[i j] k] core]; [done|].
  intros (_ & _ & Hk & _ & Hjk & _). cbn in Hjk. lia.
Qed.

Lemma get_opcodes_nil_r `{Countable A} isjunk autojunk (a : list A) :
  get_opcodes isjunk autojunk a []
  = Some (if bool_decide (0 < length a) then [(Delete, 0, length a, 0, 0)] else []).
Proof.
  unfold get_opcodes.
  destruct (get_matching_blocks_spec isjunk autojunk a []) as (core & -> & Hc).
  apply chained_nil_r in Hc as ->. cbn.
  rewrite (bool_decide_eq_false_2 (0 < length a ∧ 0 < 0)); [lia|].
  by case_bool_decide.
Qed.

Lemma compare_nil_r linejunk charjunk room (a : list str) :
  Differ.compare linejunk charjunk room a [] = Ok ((λ c, py "- " ++ c) <$> a).
Proof.
  unfold Differ.compare. rewrite get_opcodes_nil_r. cbn [computed]. ounfold.
  case_bool_decide as Hlen.
  - cbn [mapM]. rewrite dump_spec; [lia..|]. cbn.
    by rewrite slice_full app_nil_r.
  - destruct a; [done|]. cbn in Hlen. lia.
Qed.

Lemma unchanged_is_not_removed_or_added c c' :
  unchanged_line c ≠ removed_line c' ∧ unchanged_line c ≠ added_line c'.
Proof.
  split; intros Heq; apply (f_equal (λ l : str, l !! 17)) in Heq; discriminate.
Qed.

Lemma target_lines_of_ok model target :
  target_sql_or_empty model = Ok target → target_lines_of model = Ok (splitlines target).
Proof. unfold target_lines_of. by intros ->. Qed.

Lemma diff_columns_compare room model target_lines :
  target_lines_of model = Ok target_lines →
  diff_columns room model
  = (diff ← Differ.compare None None room (source_lines_of model) target_lines;
     Ok (cols diff)).
Proof. unfold diff_columns, diff_of. by intros ->. Qed.

Lemma render_diff_columns room model columns :
  diff_columns room model = Ok columns →
  _render_translated_model_as_html room model
  = Ok (model_html (translation_status model) columns.1 columns.2).
Proof. unfold _render_translated_model_as_html. by intros ->. Qed.

Lemma render_diff_columns_raise room model e :
  diff_columns room model = Raise e →
  _render_translated_model_as_html room model = Raise e.
Proof. unfold _render_translated_model_as_html. by intros ->. Qed.

(** What the two columns come to, for a model that has its target key. *)
Lemma diff_columns_settles room model target_lines :
  target_lines_of model = Ok target_lines →
  (∃ diff, diff_columns room model = Ok (cols diff)
           ∧ renders diff (source_lines_of model) target_lines)
  ∨ (diff_columns room model = Raise RecursionError
     ∧ room < min (length (source_lines_of model)) (length target_lines)).
Proof.
  intros Htarget. rewrite (diff_columns_compare _ _ _ Htarget).
  destruct (compare_settles None None (source_lines_of model) target_lines room)
    as [(d & -> & Hd) | [-> Hdeep]]; [left|right]; eauto.
Qed.

Lemma diff_columns_renderable room model :
  renderable room model →
  ∃ diff target_lines,
    target_lines_of model = Ok target_lines
    ∧ diff_columns room model = Ok (cols diff)
    ∧ renders diff (source_lines_of model) target_lines.
Proof.
  intros (target_lines & Htarget & Hroom).
  destruct (diff_columns_settles room model target_lines Htarget)
    as [(d & Hd & Hr) | [_ Hdeep]]; [eauto 10|lia].
Qed.

Lemma diff_columns_ok room model columns :
  diff_columns room model = Ok columns →
  ∃ diff target_lines,
    target_lines_of model = Ok target_lines
    ∧ columns = cols diff
    ∧ renders diff (source_lines_of model) target_lines.
Proof.
  intros Hcols.
  destruct (target_lines_of model) as [target_lines|e|] eqn:Htarget.
  - destruct (diff_columns_settles room model target_lines Htarget)
      as [(d & Hd & Hr) | [Hd _]]; rewrite Hd in Hcols; [|done].
    injection Hcols as <-. eauto 10.
  - unfold diff_columns, diff_of in Hcols. by rewrite Htarget in Hcols.
  - unfold diff_columns, diff_of in Hcols. by rewrite Htarget in Hcols.
Qed.

(** C3. When the target text of a model (null read as the empty text) is
    its source text, every line the renderer emits, in either column, is
    classed unchanged: the columns hold the lines of the text as unchanged
    lines, and an unchanged line is never a removed or an added one. No
    recursion room is needed for it. *)
Theorem equal_texts_are_all_unchanged (room : nat) (model : TranslatedModel) :
  target_sql_or_empty model = Ok (source_sql model) →
  diff_columns room model
  = Ok (unchanged_line <$> source_lines_of model, unchanged_line <$> source_lines_of model)
  ∧ ∀ html, html ∈ unchanged_line <$> source_lines_of model →
            ∀ c, html ≠ removed_line c ∧ html ≠ added_line c.
Proof.
  intros Hsame. split.
  - rewrite (diff_columns_compare room model (source_lines_of model)).
    { by apply target_lines_of_ok. }
    rewrite compare_self. cbn. f_equal. apply cols_fmap_unchanged.
  - intros html (line & -> & _)%list_elem_of_fmap c.
    apply unchanged_is_not_removed_or_added.
Qed.

Lemma equal_texts_are_all_unchanged_witness :
  diff_columns 0 {| asset_name := py "q"; source_sql := py "SELECT 1
FROM t"; target_sql := Text (py "SELECT 1
FROM t"); translation_status := py "done" |}
  = Ok ([unchanged_line (py "SELECT 1"); unchanged_line (py "FROM t")],
        [unchanged_line (py "SELECT 1"); unchanged_line (py "FROM t")]).
Proof.
  apply (equal_texts_are_all_unchanged 0
           {| asset_name := py "q"; source_sql := py "SELECT 1
FROM t"; target_sql := Text (py "SELECT 1
FROM t"); translation_status := py "done" |}).
  reflexivity.
Defined.

(** C4. For every pair of texts the renderer either returns or raises
    [RecursionError]. When it returns, its source column holds
    exactly the lines of the source text, in order, each once, as
    unchanged or removed, and its target column holds exactly the lines of
    the target text, as unchanged or added. It returns whenever the
    shorter text has no more lines than the recursion room, and it raises
    only when both texts have more lines than that. A hint line of the
    differ adds nothing to either column. *)
Theorem diff_columns_show_both_texts (room : nat) (model : TranslatedModel)
    (target_lines : list str) :
  target_lines_of model = Ok target_lines →
  ((∃ columns,
      diff_columns room model = Ok columns
      ∧ _render_translated_model_as_html room model
        = Ok (model_html (translation_status model) columns.1 columns.2)
      ∧ shows columns (source_lines_of model) target_lines)
   ∨ (room < min (length (source_lines_of model)) (length target_lines)
      ∧ diff_columns room model = Raise RecursionError
      ∧ _render_translated_model_as_html room model = Raise RecursionError))
  ∧ (min (length (source_lines_of model)) (length target_lines) ≤ room →
     ∃ columns,
       diff_columns room model = Ok columns
       ∧ _render_translated_model_as_html room model
         = Ok (model_html (translation_status model) columns.1 columns.2)
       ∧ shows columns (source_lines_of model) target_lines)
  ∧ ∀ st hint, render_line st (py "? " ++ hint) = st.
Proof.
  intros Htarget.
  assert ((∃ columns,
             diff_columns room model = Ok columns
             ∧ _render_translated_model_as_html room model
               = Ok (model_html (translation_status model) columns.1 columns.2)
             ∧ shows columns (source_lines_of model) target_lines)
          ∨ (room < min (length (source_lines_of model)) (length target_lines)
             ∧ diff_columns room model = Raise RecursionError
             ∧ _render_translated_model_as_html room model = Raise RecursionError))
    as Hcases.
  { destruct (diff_columns_settles room model target_lines Htarget)
      as [(d & Hd & Hr) | [Hd Hdeep]].
    - left. exists (cols d). split; [done|]. split; [|done].
      by apply render_diff_columns.
    - right. split; [done|]. split; [done|]. by apply render_diff_columns_raise. }
  split; [exact Hcases|]. split.
  - intros Hroom. destruct Hcases as [Hok | [Hdeep _]]; [done|lia].
  - by intros [s t] hint.
Qed.

Lemma diff_columns_show_both_texts_witness :
  ∃ columns,
    diff_columns 3 {| asset_name := py "q"; source_sql := py "SELECT 1
FROM t"; target_sql := Text (py "SELECT 2
FROM t
LIMIT 1"); translation_status := py "done" |} = Ok columns
    ∧ shows columns [py "SELECT 1"; py "FROM t"] [py "SELECT 2"; py "FROM t"; py "LIMIT 1"].
Proof.
  destruct (diff_columns_show_both_texts 3
              {| asset_name := py "q"; source_sql := py "SELECT 1
FROM t"; target_sql := Text (py "SELECT 2
FROM t
LIMIT 1"); translation_status := py "done" |}
              [py "SELECT 2"; py "FROM t"; py "LIMIT 1"] eq_refl)
    as (_ & Hfits & _).
  destruct Hfits as (columns & Hcols & _ & Hshows); [vm_compute; lia|].
  exists columns. split; [exact Hcols|exact Hshows].
Defined.

(** Stated of every pair of texts as one on which the renderer returns,
    the property fails: six hundred source lines that each differ in one letter from their target
    line make the differ recurse six hundred levels deep, which is more
    than room for five hundred nested calls admits (and the default
    recursion limit of 1000 frames admits fewer than that): the renderer
    raises [RecursionError] instead of returning its columns. *)
Lemma diff_columns_show_both_texts_counterexample :
  ¬ ∃ columns,
      diff_columns 500 (similar_lines 600) = Ok columns
      ∧ shows columns (source_lines_of (similar_lines 600)) (replicate 600 line_b).
Proof.
  intros (columns & Hcols & _).
  rewrite (similar_lines_too_deep 500 600) in Hcols; [lia|]. discriminate.
Qed.

(** C5. When the target SQL of a model is null or the empty
    string, the target lines are the empty sequence, the renderer returns
    (whatever the recursion room), and every line of the source text is
    shown as removed. When the model has no key [target_sql], the
    renderer raises [KeyError]. *)
Theorem empty_target_removes_every_source_line (room : nat) (model : TranslatedModel) :
  (target_sql model = Null ∨ target_sql model = Text [] →
   target_lines_of model = Ok []
   ∧ diff_columns room model = Ok (removed_line <$> source_lines_of model, [])
   ∧ _render_translated_model_as_html room model
     = Ok (model_html (translation_status model)
             (removed_line <$> source_lines_of model) []))
  ∧ (target_sql model = Missing →
     target_lines_of model = Raise (KeyError (py "target_sql"))
     ∧ diff_columns room model = Raise (KeyError (py "target_sql"))
     ∧ _render_translated_model_as_html room model = Raise (KeyError (py "target_sql"))).
Proof.
  split.
  - intros Htarget.
    assert (target_lines_of model = Ok []) as Hnil.
    { unfold target_lines_of, target_sql_or_empty. by destruct Htarget as [-> | ->]. }
    assert (diff_columns room model = Ok (removed_line <$> source_lines_of model, []))
      as Hcols.
    { rewrite (diff_columns_compare _ _ _ Hnil) compare_nil_r. cbn.
      f_equal. apply cols_fmap_removed. }
    split; [exact Hnil|]. split; [exact Hcols|].
    rewrite (render_diff_columns _ _ _ Hcols). cbn [fst snd]. reflexivity.
  - intros Hmissing.
    assert (target_lines_of model = Raise (KeyError (py "target_sql"))) as Hraise.
    { unfold target_lines_of, target_sql_or_empty. by rewrite Hmissing. }
    assert (diff_columns room model = Raise (KeyError (py "target_sql"))) as Hcols.
    { unfold diff_columns, diff_of. by rewrite Hraise. }
    split; [exact Hraise|]. split; [exact Hcols|]. by apply render_diff_columns_raise.
Qed.

Lemma empty_target_removes_every_source_line_witness :
  diff_columns 0 {| asset_name := py "q"; source_sql := py "SELECT 1
FROM t"; target_sql := Null; translation_status := py "failed" |}
  = Ok ([removed_line (py "SELECT 1"); removed_line (py "FROM t")], []).
Proof.
  destruct (empty_target_removes_every_source_line 0
              {| asset_name := py "q"; source_sql := py "SELECT 1
FROM t"; target_sql := Null; translation_status := py "failed" |}) as [Hempty _].
  destruct Hempty as (_ & Hcols & _); [left; reflexivity|].
  exact Hcols.
Defined.

(** With an absent target read as the empty text, the property fails:
    on a model without the key the renderer has no target lines and no
    columns, it raises. *)
Lemma empty_target_removes_every_source_line_counterexample :
  ¬ (target_lines_of no_target_key = Ok []
     ∧ diff_columns 400 no_target_key
       = Ok (removed_line <$> source_lines_of no_target_key, [])).
Proof. intros [Hlines _]. discriminate. Qed.

(** * Further properties of the report *)

Local Close Scope Z_scope.

Lemma render_renderable (room : nat) (model : TranslatedModel) :
  renderable room model →
  ∃ rendered, _render_translated_model_as_html room model = Ok rendered.
Proof.
  intros (d & target_lines & _ & Hcols & _)%diff_columns_renderable.
  rewrite (render_diff_columns _ _ _ Hcols). eauto.
Qed.

Lemma sections_renderable (room : nat) (models : list TranslatedModel) :
  Forall (renderable room) models →
  ∃ sections,
    mapM (λ model,
            rendered ← _render_translated_model_as_html room model;
            Ok (section_html (asset_name model) rendered)) models = Ok sections
    ∧ Forall2 (λ model section,
                 ∃ rendered, _render_translated_model_as_html room model = Ok rendered
                             ∧ section = section_html (asset_name model) rendered)
              models sections.
Proof.
  induction 1 as [|model models Hmodel _ (sections & IHeq & IH)].
  { exists []. split; [done|constructor]. }
  destruct (render_renderable room model Hmodel) as [rendered Hr].
  cbn [mapM]. rewrite Hr IHeq. ounfold.
  eexists. split; [done|]. constructor; eauto.
Qed.

(** When each model of a result fits in the recursion room (it has its
    target key, and the shorter of its texts has no more lines than the
    room), the report of a result with models is the style sheet and the
    script followed by one section per model, in the order of the models,
    each section holding the name of its model and its rendered diff. *)
Theorem report_has_one_section_per_model_in_order (room : nat) (marker : str)
    (translation_results : TranslationJob) :
  translated_models translation_results ≠ [] →
  Forall (renderable room) (translated_models translation_results) →
  ∃ sections,
    translation_results_html room marker translation_results
    = Ok (style_html marker ++ script_html ++ concat sections)
    ∧ Forall2 (λ model section,
                 ∃ rendered, _render_translated_model_as_html room model = Ok rendered
                             ∧ section = section_html (asset_name model) rendered)
              (translated_models translation_results) sections.
Proof.
  intros Hne Hfit. unfold translation_results_html. cbv zeta.
  destruct (sections_renderable room (translated_models translation_results) Hfit)
    as (sections & -> & Hsections).
  ounfold. rewrite bool_decide_eq_false_2 //.
  exists sections. split; [|done].
  unfold join. cbn [concat]. by rewrite app_nil_r -app_assoc.
Qed.

Lemma report_has_one_section_per_model_in_order_witness :
  ∃ sections,
    _translation_results_html 1
      (job "done" [ {| asset_name := py "a"; source_sql := py "x"; target_sql := Text (py "y");
                       translation_status := py "done" |};
                    {| asset_name := py "b"; source_sql := py "x"; target_sql := Null;
                       translation_status := py "failed" |} ])
    = Ok (style_html [9654%N] ++ script_html ++ concat sections)
    ∧ length sections = 2.
Proof.
  destruct (report_has_one_section_per_model_in_order 1 [9654%N]
              (job "done" [ {| asset_name := py "a"; source_sql := py "x";
                               target_sql := Text (py "y");
                               translation_status := py "done" |};
                            {| asset_name := py "b"; source_sql := py "x"; target_sql := Null;
                               translation_status := py "failed" |} ]))
    as (sections & Heq & Hall).
  - discriminate.
  - repeat constructor; (eexists; split; [reflexivity|vm_compute; lia]).
  - exists sections. split; [exact Heq|].
    apply Forall2_length in Hall. symmetry. exact Hall.
Defined.



Lemma chained_nil_l `{Countable A} (b : list A) core i0 j0 :
  chained [] b i0 j0 core → core = [].
Proof.
  destruct core as [|[[i j] k] core]; [done|].
  intros (_ & _ & Hk & Hik & _). cbn in Hik. lia.
Qed.

Lemma get_opcodes_nil_l `{Countable A} isjunk autojunk (b : list A) :
  get_opcodes isjunk autojunk [] b
  = Some (if bool_decide (0 < length b) then [(Insert, 0, 0, 0, length b)] else []).
Proof.
  unfold get_opcodes.
  destruct (get_matching_blocks_spec isjunk autojunk [] b) as (core & -> & Hc).
  apply chained_nil_l in Hc as ->. cbn.
  rewrite (bool_decide_eq_false_2 (0 < 0 ∧ 0 < length b)); [lia|].
  rewrite (bool_decide_eq_false_2 (0 < 0)); [lia|].
  by case_bool_decide.
Qed.

Lemma compare_nil_l linejunk charjunk room (b : list str) :
  Differ.compare linejunk charjunk room [] b = Ok ((λ c, py "+ " ++ c) <$> b).
Proof.
  unfold Differ.compare. rewrite get_opcodes_nil_l. cbn [computed]. ounfold.
  case_bool_decide as Hlen.
  - cbn [mapM]. rewrite dump_spec; [lia..|]. cbn.
    by rewrite slice_full app_nil_r.
  - destruct b; [done|]. cbn in Hlen. lia.
Qed.

(** When the source SQL of a model is the empty string, the source column
    is empty and every line of the target text is shown as added,
    whatever the recursion room (a model without the target key raises as
    it always does). *)
Theorem empty_source_adds_every_target_line (room : nat) (model : TranslatedModel) :
  source_sql model = [] →
  diff_columns room model
  = (target_lines ← target_lines_of model;
     Ok (@nil str, added_line <$> (target_lines : list str))).
Proof.
  intros Hsource. unfold diff_columns, diff_of, source_lines_of.
  rewrite Hsource. change (splitlines []) with (@nil str).
  destruct (target_lines_of model) as [target_lines|e|]; [|done..].
  ounfold. rewrite compare_nil_l. f_equal. apply cols_fmap_added.
Qed.

Lemma empty_source_adds_every_target_line_witness :
  diff_columns 0 {| asset_name := py "q"; source_sql := []; target_sql := Text (py "SELECT 1");
                    translation_status := py "done" |}
  = Ok ([], [added_line (py "SELECT 1")]).
Proof.
  apply (empty_source_adds_every_target_line 0
           {| asset_name := py "q"; source_sql := []; target_sql := Text (py "SELECT 1");
              translation_status := py "done" |}).
  reflexivity.
Defined.

Lemma is_unchanged_unchanged c : is_unchanged (unchanged_line c) = true.
Proof. reflexivity. Qed.

Lemma is_unchanged_removed c : is_unchanged (removed_line c) = false.
Proof. reflexivity. Qed.

Lemma is_unchanged_added c : is_unchanged (added_line c) = false.
Proof. reflexivity. Qed.

Lemma cols_agree_on_unchanged (diff : list str) :
  filter (λ html, is_unchanged html = true) (cols diff).1
  = filter (λ html, is_unchanged html = true) (cols diff).2.
Proof.
  induction diff as [|line diff IH]; [done|].
  change (line :: diff) with ([line] ++ diff).
  rewrite cols_app. cbn [fst snd]. rewrite !filter_app IH. f_equal.
  unfold cols. cbn [foldl]. unfold render_line.
  repeat (destruct (startswith line _)); cbn [fst snd]; done.
Qed.

#[local] Instance unchanged_line_inj : Inj (=) (=) unchanged_line.
Proof.
  intros c c' Heq. unfold unchanged_line in Heq.
  do 5 apply app_inv_head in Heq. by apply app_inv_tail in Heq.
Qed.

Lemma unchanged_of_column (other : str → str) (column lines : list str) :
  (∀ c, is_unchanged (other c) = false) →
  Forall2 (λ html line, html = unchanged_line line ∨ html = other line) column lines →
  ∃ common,
    sublist common lines
    ∧ filter (λ html, is_unchanged html = true) column = unchanged_line <$> common.
Proof.
  intros Hother. induction 1 as [|html line column lines [-> | ->] _ (common & Hsub & IH)].
  - by exists [].
  - exists (line :: common). split; [by apply sublist_skip|].
    rewrite filter_cons_True; [apply is_unchanged_unchanged|]. by rewrite IH.
  - exists common. split; [by apply sublist_cons|].
    rewrite filter_cons_False; [by rewrite Hother|]. done.
Qed.

(** The lines the renderer shows as unchanged are the same in both
    columns, in the same order, and they are a common subsequence of the
    lines of the source text and of the lines of the target text: a line
    is never shown unchanged unless both texts hold it. This holds of
    every pair of columns the renderer returns, and it returns them for
    every model that fits in the recursion room. *)
Theorem unchanged_lines_are_a_common_subsequence (room : nat) (model : TranslatedModel) :
  (renderable room model → ∃ columns, diff_columns room model = Ok columns)
  ∧ (∀ columns,
       diff_columns room model = Ok columns →
       ∃ common target_lines,
         target_lines_of model = Ok target_lines
         ∧ sublist common (source_lines_of model)
         ∧ sublist common target_lines
         ∧ filter (λ html, is_unchanged html = true) columns.1 = unchanged_line <$> common
         ∧ filter (λ html, is_unchanged html = true) columns.2 = unchanged_line <$> common).
Proof.
  split.
  { intros (d & target_lines & _ & Hcols & _)%diff_columns_renderable. eauto. }
  intros columns (d & target_lines & Htarget & -> & Hs & Ht)%diff_columns_ok.
  apply (unchanged_of_column removed_line) in Hs as (common & Hsub & Hs);
    [|apply is_unchanged_removed].
  apply (unchanged_of_column added_line) in Ht as (common' & Hsub' & Ht);
    [|apply is_unchanged_added].
  assert (common' = common) as ->.
  { apply (inj (fmap unchanged_line)). by rewrite -Hs -Ht cols_agree_on_unchanged. }
  exists common, target_lines. by repeat split.
Qed.

Lemma unchanged_lines_are_a_common_subsequence_witness :
  ∃ columns common target_lines,
    diff_columns 2 {| asset_name := py "q"; source_sql := py "SELECT 1
FROM t"; target_sql := Text (py "SELECT 2
FROM t"); translation_status := py "done" |} = Ok columns
    ∧ target_lines_of {| asset_name := py "q"; source_sql := py "SELECT 1
FROM t"; target_sql := Text (py "SELECT 2
FROM t"); translation_status := py "done" |} = Ok target_lines
    ∧ sublist common target_lines
    ∧ filter (λ html, is_unchanged html = true) columns.1 = unchanged_line <$> common.
Proof.
  destruct (unchanged_lines_are_a_common_subsequence 2
              {| asset_name := py "q"; source_sql := py "SELECT 1
FROM t"; target_sql := Text (py "SELECT 2
FROM t"); translation_status := py "done" |}) as [Hreturns Hcommon].
  destruct Hreturns as [columns Hcols].
  { eexists. split; [reflexivity|vm_compute; lia]. }
  destruct (Hcommon columns Hcols) as (common & target_lines & Htarget & _ & Ht & Hf & _).
  exists columns, common, target_lines.
  split; [exact Hcols|]. split; [exact Htarget|]. split; [exact Ht|exact Hf].
Defined.

(** The texts are compared line by line after [splitlines]: when they
    have the same lines (they differ at most in their line terminators or
    in a final line break), every line is shown unchanged in both
    columns, whatever the recursion room. *)
Theorem line_terminators_are_not_compared (room : nat) (model : TranslatedModel) :
  target_lines_of model = Ok (source_lines_of model) →
  diff_columns room model
  = Ok (unchanged_line <$> source_lines_of model, unchanged_line <$> source_lines_of model).
Proof.
  intros Hlines. rewrite (diff_columns_compare _ _ _ Hlines) compare_self.
  cbn. f_equal. apply cols_fmap_unchanged.
Qed.

Lemma line_terminators_are_not_compared_witness :
  diff_columns 0 {| asset_name := py "q";
                    source_sql := py "SELECT 1" ++ [13%N; 10%N] ++ py "FROM t";
                    target_sql := Text (py "SELECT 1" ++ [10%N] ++ py "FROM t" ++ [10%N]);
                    translation_status := py "done" |}
  = Ok ([unchanged_line (py "SELECT 1"); unchanged_line (py "FROM t")],
        [unchanged_line (py "SELECT 1"); unchanged_line (py "FROM t")]).
Proof.
  apply (line_terminators_are_not_compared 0
           {| asset_name := py "q";
              source_sql := py "SELECT 1" ++ [13%N; 10%N] ++ py "FROM t";
              target_sql := Text (py "SELECT 1" ++ [10%N] ++ py "FROM t" ++ [10%N]);
              translation_status := py "done" |}).
  reflexivity.
Defined.

(** The bound on the lines of the shorter text cannot be improved: for
    every recursion room there are texts with one line more than the room
    on which the renderer raises [RecursionError] (lines that each differ
    in one letter from their counterpart), and the renderer returns on
    them as soon as there is room for one more nested call. *)
Theorem one_line_more_than_the_room_is_too_deep (room : nat) :
  diff_columns room (similar_lines (S room)) = Raise RecursionError
  ∧ _render_translated_model_as_html room (similar_lines (S room)) = Raise RecursionError
  ∧ ∃ columns, diff_columns (S room) (similar_lines (S room)) = Ok columns.
Proof.
  assert (diff_columns room (similar_lines (S room)) = Raise RecursionError) as Hdeep.
  { apply similar_lines_too_deep. lia. }
  split; [exact Hdeep|]. split; [by apply render_diff_columns_raise|].
  destruct (similar_lines_lines (S room)) as [Hsource Htarget].
  destruct (diff_columns_renderable (S room) (similar_lines (S room)))
    as (d & target_lines & _ & Hcols & _); [|eauto].
  eexists. split; [exact Htarget|]. rewrite Hsource !length_replicate. lia.
Qed.

(** * Further properties of the workflow *)

Local Open Scope Z_scope.

Arguments json_headers : simpl never.
Arguments resolved_host : simpl never.

Lemma first_id_head l w :
  first_id l w = match head l with
                 | Some d => (Ok (ds_id d), w)
                 | None => (Raise IndexError, w)
                 end.
Proof. by destruct l. Qed.

Lemma get_host_run host w :
  _get_host host w
  = (Ok (resolved_host host w),
     set_notebook_host (from_option Some (_notebook_host w) host) w).
Proof.
  destruct host as [h|]; [done|]. unfold _get_host, resolved_host. cbn.
  rewrite set_notebook_host_same. by destruct (_notebook_host w).
Qed.

Lemma filter_nil_Forall {X} (P : X → Prop) `{∀ x, Decision (P x)} (l : list X) :
  Forall (λ x, ¬ P x) l → filter P l = [].
Proof.
  induction 1 as [|x l Hx Hl IH]; [done|]. by rewrite filter_cons_False.
Qed.

Lemma poll_fail_run longest url headers iv pending : ∀ turns w e rest,
  script w = (Answer ∘ JobBody <$> pending) ++ Fails e :: rest →
  Forall (λ j, is_terminal (status j) = false) pending →
  (pending ≠ [] → sleepable longest iv) →
  (length pending < turns)%nat →
  poll longest turns url headers iv w
  = (Raise e,
     {| _notebook_host := _notebook_host w; _current_api_key := _current_api_key w;
        script := rest;
        calls := calls w ++ replicate (S (length pending)) (GET_request url headers);
        sleeps := sleeps w ++ replicate (length pending) iv;
        stdout := stdout w; displayed := displayed w |}).
Proof.
  induction pending as [|j pending IH]; intros turns w e rest Hs Hp Hiv Hlt;
    (destruct turns as [|turns]; [simpl in Hlt; lia|]);
    cbn [poll]; munfold; unfold get_data, send; rewrite Hs; cbn.
  - by rewrite app_nil_r.
  - apply Forall_cons in Hp as [Hj Hp]. rewrite Hj.
    rewrite sleep_run; [by apply Hiv|].
    erewrite IH; [|done|done|by intros _; apply Hiv|simpl in Hlt; lia].
    cbn. by rewrite -!app_assoc.
Qed.

Section Workflow.
Variable prepare_api_url : str → str → str.
Variable prepare_headers : str → gmap str str.
Variable room : nat.
Variable longest_sleep : Z.

Lemma translate_queries_run
    (api_key : str) (queries : list str) (host : option str) (w : world)
    (data_sources : list DataSource) (s t : DataSource) (p : Project) (uploaded : body)
    (task : Z) (rest : list reply) :
  script w = Answer (DataSourcesBody data_sources) :: Answer (ProjectBody p)
             :: Answer uploaded :: Answer (TaskBody task) :: rest →
  head (filter (λ d, ds_type d ≠ py "databricks") data_sources) = Some s →
  head (filter (λ d, ds_type d = py "databricks") data_sources) = Some t →
  ∃ w',
    translate_queries prepare_api_url prepare_headers api_key queries host w
    = (Ok (project_id p, task), w')
    ∧ calls w' = calls w ++ translation_requests prepare_api_url prepare_headers
                              (resolved_host host w) api_key queries
                              (ds_id s) (ds_id t) (project_id p)
    ∧ script w' = rest
    ∧ _notebook_host w' = Some (resolved_host host w)
    ∧ _current_api_key w' = _current_api_key w
    ∧ sleeps w' = sleeps w
    ∧ displayed w' = displayed w.
Proof.
  intros Hs Hsrc Htgt.
  destruct w as [nh key scr cls sl out disp]. cbn in Hs. subst scr.
  unfold translate_queries, _get_data_sources, _create_dma_project, _upload_queries,
    _start_translation, select_source, select_target.
  munfold.
  assert (∃ h, _get_host host
                 {| _notebook_host := nh; _current_api_key := key;
                    script := Answer (DataSourcesBody data_sources) :: Answer (ProjectBody p)
                              :: Answer uploaded :: Answer (TaskBody task) :: rest;
                    calls := cls; sleeps := sl; stdout := out; displayed := disp |}
               = (Ok h, {| _notebook_host := from_option Some nh host; _current_api_key := key;
                           script := Answer (DataSourcesBody data_sources)
                                     :: Answer (ProjectBody p)
                                     :: Answer uploaded :: Answer (TaskBody task) :: rest;
                           calls := cls; sleeps := sl; stdout := out; displayed := disp |})
               ∧ h = resolved_host host
                       {| _notebook_host := nh; _current_api_key := key;
                          script := Answer (DataSourcesBody data_sources)
                                    :: Answer (ProjectBody p)
                                    :: Answer uploaded :: Answer (TaskBody task) :: rest;
                          calls := cls; sleeps := sl; stdout := out; displayed := disp |})
    as (h & -> & Hh).
  { destruct host as [x|]; [by exists x|]. destruct nh; by eexists. }
  rewrite -Hh. cbn. rewrite first_id_head Hsrc. cbn. rewrite first_id_head Htgt. cbn.
  eexists. split; [reflexivity|]. cbn. rewrite -!app_assoc. by repeat split.
Qed.



(** Against a service that answers, [translate_queries] sends exactly
    four requests, in this order: the data sources are fetched, the
    project is created, the files are uploaded to that project, the
    translation of that project is started; all four go to the host the
    call resolved, which is cached afterwards; the ids of the project and
    of the task are returned. *)
Theorem translate_queries_sends_four_requests_in_order
    (api_key : str) (queries : list str) (host : option str) (w : world)
    (data_sources : list DataSource) (s t : DataSource) (p : Project) (uploaded : body)
    (task : Z) (rest : list reply) :
  script w = Answer (DataSourcesBody data_sources) :: Answer (ProjectBody p)
             :: Answer uploaded :: Answer (TaskBody task) :: rest →
  head (filter (λ d, ds_type d ≠ py "databricks") data_sources) = Some s →
  head (filter (λ d, ds_type d = py "databricks") data_sources) = Some t →
  ∃ w',
    translate_queries prepare_api_url prepare_headers api_key queries host w
    = (Ok (project_id p, task), w')
    ∧ calls w' = calls w ++ translation_requests prepare_api_url prepare_headers
                              (resolved_host host w) api_key queries
                              (ds_id s) (ds_id t) (project_id p)
    ∧ script w' = rest
    ∧ _notebook_host w' = Some (resolved_host host w)
    ∧ _current_api_key w' = _current_api_key w
    ∧ sleeps w' = sleeps w
    ∧ displayed w' = displayed w.
Proof.
  intros Hs Hsrc Htgt.
  destruct (translate_queries_run api_key queries host w data_sources s t p uploaded task rest
              Hs Hsrc Htgt) as (w' & Hrun & Hcalls & Hscript & Hhost & Hkey & Hsl & Hdisp).
  exists w'. repeat split; assumption.
Qed.

(** When no data source can be the source, or none can be the target
    (all of them are of type "databricks", or none is; in particular when
    there is none at all), [translate_queries] raises [IndexError] after
    the single request that fetched the data sources: no project is
    created. *)
Theorem translate_queries_needs_a_source_and_a_target
    (api_key : str) (queries : list str) (host : option str) (w : world)
    (data_sources : list DataSource) (rest : list reply) :
  script w = Answer (DataSourcesBody data_sources) :: rest →
  Forall (λ d, ds_type d = py "databricks") data_sources
  ∨ Forall (λ d, ds_type d ≠ py "databricks") data_sources →
  ∃ w',
    translate_queries prepare_api_url prepare_headers api_key queries host w
    = (Raise IndexError, w')
    ∧ calls w' = calls w ++ [GET_request
                               (prepare_api_url (resolved_host host w)
                                  (py "api/v1/data_sources"))
                               (prepare_headers api_key)]
    ∧ script w' = rest.
Proof.
  intros Hs Hds.
  unfold translate_queries, _get_data_sources, select_source, select_target.
  munfold. rewrite get_host_run. cbn. unfold get_data, send. cbn. rewrite Hs. cbn.
  rewrite !first_id_head.
  destruct Hds as [Hall|Hnone].
  - rewrite (filter_nil_Forall (λ d, ds_type d ≠ py "databricks")).
    { eapply Forall_impl; [done|]. naive_solver. }
    cbn. eauto.
  - rewrite (filter_nil_Forall (λ d, ds_type d = py "databricks")) //.
    destruct (head _); cbn; eauto.
Qed.

(** A failure of the transport while polling is not swallowed: after any
    number of non-terminal statuses, the exception of the failing fetch is
    raised to the caller of the polling operation (of both modules), one
    sleep having been taken per status seen before. The poll interval has
    to be one that [time.sleep] and the platform accept when there is
    such a status. *)
Theorem polling_propagates_a_transport_failure
    (api_key : str) (project_id translation_id poll_interval : Z)
    (host : option str) (h : str)
    (w : world) (pending : list TranslationJob) (e : exn) (rest : list reply) :
  script w = (Answer ∘ JobBody <$> pending) ++ Fails e :: rest →
  Forall (λ j, status j ≠ py "done" ∧ status j ≠ py "failed") pending →
  (pending ≠ [] → sleepable longest_sleep poll_interval) →
  ∀ wait,
    wait = _wait_for_translation_results prepare_api_url prepare_headers longest_sleep
             api_key project_id translation_id poll_interval host
    ∨ wait = Notebook._wait_for_translation_results prepare_api_url prepare_headers
               longest_sleep h api_key project_id translation_id poll_interval →
    ∃ w',
      wait w = (Raise e, w')
      ∧ sleeps w' = sleeps w ++ replicate (length pending) poll_interval
      ∧ length (calls w') = (length (calls w) + S (length pending))%nat
      ∧ script w' = rest.
Proof.
  intros Hs Hp Hiv wait Hwait.
  assert (Forall (λ j, is_terminal (status j) = false) pending) as Hp'.
  { eapply Forall_impl; [done|]. intros j. by rewrite is_terminal_false. }
  destruct Hwait as [-> | ->].
  - unfold _wait_for_translation_results. munfold. rewrite get_host_run.
    cbv beta iota zeta.
    erewrite poll_fail_run; [|exact Hs|done|done|].
    + eexists. split; [done|]. cbn [sleeps calls script _notebook_host set_notebook_host].
      by rewrite length_app length_replicate.
    + change (script (set_notebook_host _ w)) with (script w).
      rewrite Hs length_app length_fmap /=. lia.
  - unfold Notebook._wait_for_translation_results.
    erewrite poll_fail_run; [|done|done|done|].
    + eexists. split; [done|]. cbn [sleeps calls script _notebook_host set_notebook_host].
      by rewrite length_app length_replicate.
    + rewrite Hs length_app length_fmap /=. lia.
Qed.

Arguments poll : simpl never.
Arguments translation_results_html : simpl never.
Arguments _translation_results_html : simpl never.
Arguments Notebook._translation_results_html : simpl never.

Lemma view_run (api_key : str) (project_id translation_id : Z) (host : option str)
    (w : world) (pending : list TranslationJob) (r : TranslationJob) (rest : list reply) :
  script w = (Answer ∘ JobBody <$> pending) ++ Answer (JobBody r) :: rest →
  Forall (λ j, status j ≠ py "done" ∧ status j ≠ py "failed") pending →
  status r = py "done" ∨ status r = py "failed" →
  (pending ≠ [] → 5 ≤ longest_sleep) →
  ∃ w',
    view_translation_results_as_html prepare_api_url prepare_headers room longest_sleep
      api_key project_id translation_id host w
    = (_translation_results_html room r, w')
    ∧ calls w' = calls w ++ replicate (S (length pending))
                   (GET_request
                      (prepare_api_url (resolved_host host w)
                         (job_path project_id translation_id))
                      (json_headers prepare_headers api_key))
    ∧ sleeps w' = sleeps w ++ replicate (length pending) 5
    ∧ script w' = rest
    ∧ _notebook_host w' = Some (resolved_host host w)
    ∧ _current_api_key w' = _current_api_key w
    ∧ displayed w' = displayed w.
Proof.
  intros Hs Hp Hr Hsleep.
  assert (Forall (λ j, is_terminal (status j) = false) pending) as Hp'.
  { eapply Forall_impl; [done|]. intros j. by rewrite is_terminal_false. }
  apply is_terminal_spec in Hr.
  unfold view_translation_results_as_html, _wait_for_translation_results.
  munfold. rewrite get_host_run. cbv beta iota zeta. unfold print at 1.
  rewrite get_host_run. cbv beta iota zeta.
  erewrite poll_run;
    [|exact Hs|done|done|intros Hne; apply Hsleep in Hne; unfold sleepable; lia|].
  2:{ change (length (script _)) with (length (script w)).
      rewrite Hs length_app length_fmap /=. lia. }
  cbv beta iota zeta. unfold print, lift_pure.
  eexists. split; [reflexivity|].
  by repeat split.
Qed.

(** [view_translation_results_as_html] polls every 5 seconds and ends as
    the rendering of the first result whose status is terminal does,
    "failed" as well as "done": it returns its report, a failed job is
    rendered, not raised, and the call raises only what the rendering
    raises. All fetches go to the host the call resolved. (When there is
    a status to wait after, the platform has to accept a sleep of 5
    seconds.) *)
Theorem view_renders_the_terminal_result (api_key : str) (project_id translation_id : Z)
    (host : option str) (w : world) (pending : list TranslationJob) (r : TranslationJob)
    (rest : list reply) :
  script w = (Answer ∘ JobBody <$> pending) ++ Answer (JobBody r) :: rest →
  Forall (λ j, status j ≠ py "done" ∧ status j ≠ py "failed") pending →
  status r = py "done" ∨ status r = py "failed" →
  (pending ≠ [] → 5 ≤ longest_sleep) →
  ∃ w',
    view_translation_results_as_html prepare_api_url prepare_headers room longest_sleep
      api_key project_id translation_id host w
    = (_translation_results_html room r, w')
    ∧ calls w' = calls w ++ replicate (S (length pending))
                   (GET_request
                      (prepare_api_url (resolved_host host w)
                         (job_path project_id translation_id))
                      (json_headers prepare_headers api_key))
    ∧ sleeps w' = sleeps w ++ replicate (length pending) 5
    ∧ script w' = rest.
Proof.
  intros Hs Hp Hr Hsleep.
  destruct (view_run api_key project_id translation_id host w pending r rest
              Hs Hp Hr Hsleep)
    as (w' & Hrun & Hcalls & Hsl & Hscript & _).
  exists w'. repeat split; assumption.
Qed.

Lemma create_organization_run (org_token : str) (host : option str) (w : world)
    (api_token : str) (org_id : Z) (rest : list reply) :
  script w = Answer (OrgBody api_token org_id) :: rest →
  ∃ w',
    create_organization prepare_api_url org_token host w
    = (Ok (api_token, org_id), w')
    ∧ calls w' = calls w ++ [POST_request (prepare_api_url (resolved_host host w) (py "org"))
                               (org_headers org_token) None]
    ∧ script w' = rest
    ∧ _notebook_host w' = from_option Some (_notebook_host w) host
    ∧ _current_api_key w' = Some api_token
    ∧ sleeps w' = sleeps w
    ∧ displayed w' = displayed w.
Proof.
  intros Hs. unfold create_organization. munfold. rewrite get_host_run.
  cbv beta iota zeta. unfold print at 1. unfold post_data, send.
  cbn [script set_notebook_host]. rewrite Hs.
  cbn [org_fields]. munfold. cbv beta iota zeta. unfold _set_current_api_key, print.
  eexists. split; [reflexivity|]. by repeat split.
Qed.

(** [create_organization] sends one POST to the [org] endpoint of the
    resolved host, with the organization token as bearer, returns the key
    and the id of the answer and caches the key: afterwards
    [_get_current_api_key] returns that key, for any token and host,
    without sending anything. *)
Theorem create_organization_caches_the_key (org_token : str) (host : option str)
    (w : world) (api_token : str) (org_id : Z) (rest : list reply) :
  script w = Answer (OrgBody api_token org_id) :: rest →
  ∃ w' r,
    create_organization prepare_api_url org_token host w
    = (Ok (api_token, org_id), w')
    ∧ calls w' = calls w ++ [r]
    ∧ req_method r = POST
    ∧ req_url r = prepare_api_url (resolved_host host w) (py "org")
    ∧ req_headers r !! py "Authorization" = Some (py "Bearer " ++ org_token)
    ∧ ∀ org_token' host',
        _get_current_api_key prepare_api_url org_token' host' w'
        = (Ok (Some api_token), w').
Proof.
  intros Hs.
  destruct (create_organization_run org_token host w api_token org_id rest Hs)
    as (w' & Hrun & Hcalls & _ & _ & Hkey & _).
  eexists w', _. split; [done|]. split; [done|]. split; [done|]. split; [done|].
  split; [apply lookup_insert_eq|].
  intros org_token' host'. unfold _get_current_api_key. by rewrite Hkey.
Qed.

Lemma resolved_host_cached (w : world) (h : str) :
  _notebook_host w = Some h → resolved_host None w = h.
Proof. unfold resolved_host. by intros ->. Qed.

Lemma translate_then_view (api_key : str) (queries : list str) (host : option str)
    (w : world) (data_sources : list DataSource) (s t : DataSource) (p : Project)
    (uploaded : body) (task : Z) (pending : list TranslationJob) (r : TranslationJob)
    (rest : list reply) :
  script w = Answer (DataSourcesBody data_sources) :: Answer (ProjectBody p)
             :: Answer uploaded :: Answer (TaskBody task)
             :: (Answer ∘ JobBody <$> pending) ++ Answer (JobBody r) :: rest →
  head (filter (λ d, ds_type d ≠ py "databricks") data_sources) = Some s →
  head (filter (λ d, ds_type d = py "databricks") data_sources) = Some t →
  Forall (λ j, status j ≠ py "done" ∧ status j ≠ py "failed") pending →
  status r = py "done" ∨ status r = py "failed" →
  (pending ≠ [] → 5 ≤ longest_sleep) →
  ∃ w',
    (r0 ← translate_queries prepare_api_url prepare_headers api_key queries host;
     html ← view_translation_results_as_html prepare_api_url prepare_headers room
              longest_sleep api_key r0.1 r0.2 None;
     display_HTML html) w = (after_display (_translation_results_html room r), w')
    ∧ displayed w' = displayed w ++ displayed_report (_translation_results_html room r)
    ∧ calls w' = calls w
                 ++ translation_requests prepare_api_url prepare_headers
                      (resolved_host host w) api_key queries
                      (ds_id s) (ds_id t) (project_id p)
                 ++ replicate (S (length pending))
                      (GET_request
                         (prepare_api_url (resolved_host host w)
                            (job_path (project_id p) task))
                         (json_headers prepare_headers api_key))
    ∧ sleeps w' = sleeps w ++ replicate (length pending) 5
    ∧ script w' = rest
    ∧ _current_api_key w' = _current_api_key w.
Proof.
  intros Hs Hsrc Htgt Hp Hr Hsleep.
  destruct (translate_queries_run api_key queries host w data_sources s t p uploaded task _
              Hs Hsrc Htgt)
    as (w1 & Hrun & Hcalls1 & Hscript1 & Hhost1 & Hkey1 & Hsl1 & Hdisp1).
  destruct (view_run api_key (project_id p) task None w1 pending r rest Hscript1 Hp Hr
              Hsleep)
    as (w2 & Hview & Hcalls2 & Hsl2 & Hscript2 & _ & Hkey2 & Hdisp2).
  rewrite (resolved_host_cached w1 _ Hhost1) in Hcalls2.
  munfold. rewrite Hrun. cbv beta iota zeta. cbn [fst snd]. rewrite Hview.
  destruct (_translation_results_html room r) as [html|e|];
    cbv beta iota zeta; unfold display_HTML, after_display, displayed_report; ounfold;
    (eexists; split; [reflexivity|]);
    cbn [displayed calls sleeps script _current_api_key];
    rewrite ?Hdisp2 ?Hdisp1 ?Hcalls2 ?Hcalls1 ?Hsl2 ?Hsl1 ?Hkey2 ?Hkey1 -?app_assoc
      ?app_nil_r;
    by repeat split.
Qed.

(** With an API key already cached, [translate_queries_and_render_results]
    ignores the organization token: against a service that answers, it
    sends the four requests of the translation and then polls, all on the
    host it resolved, and it ends as the rendering of the terminal result
    (a failed one as well) does: a rendered report is displayed, once, and
    nothing is displayed when the rendering raises. (When there is a
    status to wait after, the platform has to accept a sleep of 5
    seconds.) *)
Theorem cached_key_run_displays_the_report (queries : list str)
    (org_token host : option str) (api_key : str)
    (w : world) (data_sources : list DataSource) (s t : DataSource) (p : Project)
    (uploaded : body) (task : Z) (pending : list TranslationJob) (r : TranslationJob)
    (rest : list reply) :
  _current_api_key w = Some api_key →
  script w = Answer (DataSourcesBody data_sources) :: Answer (ProjectBody p)
             :: Answer uploaded :: Answer (TaskBody task)
             :: (Answer ∘ JobBody <$> pending) ++ Answer (JobBody r) :: rest →
  head (filter (λ d, ds_type d ≠ py "databricks") data_sources) = Some s →
  head (filter (λ d, ds_type d = py "databricks") data_sources) = Some t →
  Forall (λ j, status j ≠ py "done" ∧ status j ≠ py "failed") pending →
  status r = py "done" ∨ status r = py "failed" →
  (pending ≠ [] → 5 ≤ longest_sleep) →
  ∃ w',
    translate_queries_and_render_results prepare_api_url prepare_headers room
      longest_sleep queries org_token host w = (after_display (_translation_results_html room r), w')
    ∧ displayed w' = displayed w ++ displayed_report (_translation_results_html room r)
    ∧ calls w' = calls w
                 ++ translation_requests prepare_api_url prepare_headers
                      (resolved_host host w) api_key queries
                      (ds_id s) (ds_id t) (project_id p)
                 ++ replicate (S (length pending))
                      (GET_request
                         (prepare_api_url (resolved_host host w)
                            (job_path (project_id p) task))
                         (json_headers prepare_headers api_key))
    ∧ sleeps w' = sleeps w ++ replicate (length pending) 5
    ∧ script w' = rest.
Proof.
  intros Hkey Hs Hsrc Htgt Hp Hr Hsleep.
  destruct (translate_then_view api_key queries host w data_sources s t p uploaded task
              pending r rest Hs Hsrc Htgt Hp Hr Hsleep)
    as (w' & Hrun & Hdisp & Hcalls & Hsl & Hscript & _).
  exists w'. split; [|by repeat split].
  unfold translate_queries_and_render_results, _get_current_api_key.
  munfold. rewrite Hkey. exact Hrun.
Qed.

(** Without a cached key and with an organization token,
    [translate_queries_and_render_results] first creates the organization
    (one POST, the token as bearer), caches the key of the answer and uses
    it for everything that follows; every request of the run goes to the
    host the call resolved, and the run ends as the rendering of the
    terminal result does: a rendered report is displayed, once. (When
    there is a status to wait after, the platform has to accept a sleep
    of 5 seconds.) *)
Theorem provisioning_run_displays_the_report (queries : list str)
    (org_token : str) (host : option str) (api_key : str) (org_id : Z)
    (w : world) (data_sources : list DataSource) (s t : DataSource) (p : Project)
    (uploaded : body) (task : Z) (pending : list TranslationJob) (r : TranslationJob)
    (rest : list reply) :
  _current_api_key w = None →
  script w = Answer (OrgBody api_key org_id)
             :: Answer (DataSourcesBody data_sources) :: Answer (ProjectBody p)
             :: Answer uploaded :: Answer (TaskBody task)
             :: (Answer ∘ JobBody <$> pending) ++ Answer (JobBody r) :: rest →
  head (filter (λ d, ds_type d ≠ py "databricks") data_sources) = Some s →
  head (filter (λ d, ds_type d = py "databricks") data_sources) = Some t →
  Forall (λ j, status j ≠ py "done" ∧ status j ≠ py "failed") pending →
  status r = py "done" ∨ status r = py "failed" →
  (pending ≠ [] → 5 ≤ longest_sleep) →
  ∃ w',
    translate_queries_and_render_results prepare_api_url prepare_headers room
      longest_sleep queries (Some org_token) host w
    = (after_display (_translation_results_html room r), w')
    ∧ displayed w' = displayed w ++ displayed_report (_translation_results_html room r)
    ∧ calls w' = calls w
                 ++ [POST_request (prepare_api_url (resolved_host host w) (py "org"))
                       (org_headers org_token) None]
                 ++ translation_requests prepare_api_url prepare_headers
                      (resolved_host host w) api_key queries
                      (ds_id s) (ds_id t) (project_id p)
                 ++ replicate (S (length pending))
                      (GET_request
                         (prepare_api_url (resolved_host host w)
                            (job_path (project_id p) task))
                         (json_headers prepare_headers api_key))
    ∧ _current_api_key w' = Some api_key
    ∧ script w' = rest.
Proof.
  intros Hkey Hs Hsrc Htgt Hp Hr Hsleep.
  set (w0 := set_notebook_host (from_option Some (_notebook_host w) host) w).
  destruct (create_organization_run org_token (Some (resolved_host host w)) w0
              api_key org_id _ Hs)
    as (w1 & Horg & Hcalls1 & Hscript1 & Hhost1 & Hkey1 & Hsl1 & Hdisp1).
  assert (resolved_host host w1 = resolved_host host w) as Hh.
  { unfold resolved_host. destruct host; [done|]. by rewrite Hhost1. }
  destruct (translate_then_view api_key queries host
              (set_current_api_key (Some api_key) w1) data_sources s t p uploaded task
              pending r rest Hscript1 Hsrc Htgt Hp Hr Hsleep)
    as (w' & Hrun & Hdisp & Hcalls & Hsl & Hscript & Hkey').
  exists w'. split.
  - unfold translate_queries_and_render_results, _get_current_api_key.
    munfold. rewrite Hkey get_host_run. cbv beta iota zeta. fold w0.
    rewrite Horg. cbv beta iota zeta. unfold _set_current_api_key. cbn [fst].
    exact Hrun.
  - split; [by rewrite Hdisp /= Hdisp1|].
    split; [|by split].
    change (resolved_host host (set_current_api_key (Some api_key) w1))
      with (resolved_host host w1) in Hcalls.
    rewrite Hh in Hcalls. rewrite Hcalls /= Hcalls1. by rewrite -app_assoc.
Qed.

(** The first failure of the transport aborts [translate_queries]: the
    exception is raised to the caller and nothing more is sent, whichever
    of the four requests failed (so a failed project creation is followed
    by no upload, and a failed upload by no job). *)
Theorem translate_queries_stops_at_the_first_failure
    (api_key : str) (queries : list str) (host : option str) (w : world)
    (data_sources : list DataSource) (s t : DataSource) (p : Project) (uploaded : body)
    (task : Z) (answered : nat) (e : exn) (rest : list reply) :
  (answered < 4)%nat →
  script w = (Answer <$> take answered [DataSourcesBody data_sources; ProjectBody p;
                                         uploaded; TaskBody task])
             ++ Fails e :: rest →
  head (filter (λ d, ds_type d ≠ py "databricks") data_sources) = Some s →
  head (filter (λ d, ds_type d = py "databricks") data_sources) = Some t →
  ∃ w',
    translate_queries prepare_api_url prepare_headers api_key queries host w
    = (Raise e, w')
    ∧ length (calls w') = (length (calls w) + S answered)%nat
    ∧ script w' = rest.
Proof.
  intros Hlt Hs Hsrc Htgt.
  destruct w as [nh key scr cls sl out disp]. cbn [script] in Hs. subst scr.
  unfold translate_queries, _get_data_sources, _create_dma_project, _upload_queries,
    _start_translation, select_source, select_target.
  munfold. rewrite !get_host_run.
  destruct answered as [|[|[|[|]]]]; try lia; cbn;
    rewrite ?first_id_head ?Hsrc /= ?first_id_head ?Htgt /=;
    (eexists; split; [reflexivity|]; cbn; rewrite !length_app /=; split; [lia|done]).
Qed.

End Workflow.

(** ** The theorems above at concrete runs *)

Lemma translate_queries_sends_four_requests_in_order_witness :
  ∃ w',
    translate_queries (λ host path, host ++ path) (λ _, ∅) (py "key") [py "SELECT 1"] None
      (initial_world [Answer (DataSourcesBody snowflake_and_databricks);
                      Answer (ProjectBody {| project_id := 7 |});
                      Answer UploadBody; Answer (TaskBody 9)])
    = (Ok (7, 9), w')
    ∧ length (calls w') = 4%nat
    ∧ req_method <$> calls w' = [GET; POST; POST; POST]
    ∧ _notebook_host w' = Some DEFAULT_HOST.
Proof.
  destruct (translate_queries_sends_four_requests_in_order
              (λ host path, host ++ path) (λ _, ∅) (py "key") [py "SELECT 1"] None
              (initial_world [Answer (DataSourcesBody snowflake_and_databricks);
                              Answer (ProjectBody {| project_id := 7 |});
                              Answer UploadBody; Answer (TaskBody 9)])
              snowflake_and_databricks
              {| ds_id := 1; ds_type := py "snowflake" |}
              {| ds_id := 2; ds_type := py "databricks" |}
              {| project_id := 7 |} UploadBody 9 [])
    as (w' & Hrun & Hcalls & _ & Hhost & _); [reflexivity..|].
  exists w'. rewrite Hcalls. split; [exact Hrun|]. split; [reflexivity|].
  split; [reflexivity|exact Hhost].
Defined.

Lemma translate_queries_needs_a_source_and_a_target_witness :
  ∃ w',
    translate_queries (λ host path, host ++ path) (λ _, ∅) (py "key") [py "SELECT 1"] None
      (initial_world [Answer (DataSourcesBody [{| ds_id := 2; ds_type := py "databricks" |}]);
                      Answer (ProjectBody {| project_id := 7 |})])
    = (Raise IndexError, w')
    ∧ length (calls w') = 1%nat
    ∧ script w' = [Answer (ProjectBody {| project_id := 7 |})].
Proof.
  destruct (translate_queries_needs_a_source_and_a_target
              (λ host path, host ++ path) (λ _, ∅) (py "key") [py "SELECT 1"] None
              (initial_world
                 [Answer (DataSourcesBody [{| ds_id := 2; ds_type := py "databricks" |}]);
                  Answer (ProjectBody {| project_id := 7 |})])
              [{| ds_id := 2; ds_type := py "databricks" |}]
              [Answer (ProjectBody {| project_id := 7 |})])
    as (w' & Hrun & Hcalls & Hscript);
    [reflexivity|left; repeat constructor|].
  exists w'. rewrite Hcalls. split; [exact Hrun|]. split; [reflexivity|exact Hscript].
Defined.

Lemma polling_propagates_a_transport_failure_witness :
  ∃ w',
    _wait_for_translation_results (λ host path, host ++ path) (λ _, ∅) 9000000000
      (py "key") 7 9 5 None
      (initial_world [Answer (JobBody (job "running" []));
                      Fails (TransportError (py "timeout"));
                      Answer (JobBody (job "done" []))])
    = (Raise (TransportError (py "timeout")), w')
    ∧ sleeps w' = [5]
    ∧ script w' = [Answer (JobBody (job "done" []))].
Proof.
  destruct (polling_propagates_a_transport_failure
              (λ host path, host ++ path) (λ _, ∅) 9000000000
              (py "key") 7 9 5 None DEFAULT_HOST
              (initial_world [Answer (JobBody (job "running" []));
                              Fails (TransportError (py "timeout"));
                              Answer (JobBody (job "done" []))])
              [job "running" []] (TransportError (py "timeout"))
              [Answer (JobBody (job "done" []))]
              eq_refl
              ltac:(repeat constructor; discriminate)
              ltac:(intros _; unfold sleepable; lia)
              _ (or_introl eq_refl))
    as (w' & Hrun & Hsl & _ & Hscript).
  exists w'. split; [exact Hrun|]. split; [exact Hsl|exact Hscript].
Defined.

Lemma view_renders_the_terminal_result_witness :
  ∃ w',
    view_translation_results_as_html (λ host path, host ++ path) (λ _, ∅) 400 9000000000
      (py "key") 7 9 None
      (initial_world [Answer (JobBody (job "running" []));
                      Answer (JobBody (job "failed" []))])
    = (Ok (py "No queries were translated."), w')
    ∧ length (calls w') = 2%nat
    ∧ sleeps w' = [5].
Proof.
  destruct (view_renders_the_terminal_result
              (λ host path, host ++ path) (λ _, ∅) 400 9000000000 (py "key") 7 9 None
              (initial_world [Answer (JobBody (job "running" []));
                              Answer (JobBody (job "failed" []))])
              [job "running" []] (job "failed" []) [])
    as (w' & Hrun & Hcalls & Hsl & _);
    [reflexivity|repeat constructor; discriminate|right; reflexivity|intros _; lia|].
  exists w'. rewrite Hcalls.
  split; [exact Hrun|]. split; [reflexivity|exact Hsl].
Defined.

Lemma create_organization_caches_the_key_witness :
  ∃ w',
    create_organization (λ host path, host ++ path) (py "token") None
      (initial_world [Answer (OrgBody (py "key") 3)])
    = (Ok (py "key", 3), w')
    ∧ length (calls w') = 1%nat
    ∧ _get_current_api_key (λ host path, host ++ path) None None w' = (Ok (Some (py "key")), w').
Proof.
  destruct (create_organization_caches_the_key
              (λ host path, host ++ path) (py "token") None
              (initial_world [Answer (OrgBody (py "key") 3)]) (py "key") 3 [])
    as (w' & r & Hrun & Hcalls & _ & _ & _ & Hkey); [reflexivity|].
  exists w'. rewrite Hcalls. split; [exact Hrun|]. split; [reflexivity|apply Hkey].
Defined.

Lemma cached_key_run_displays_the_report_witness :
  ∃ w',
    translate_queries_and_render_results (λ host path, host ++ path) (λ _, ∅) 400
      9000000000 [py "SELECT 1"] None None
      (set_current_api_key (Some (py "key"))
         (initial_world [Answer (DataSourcesBody snowflake_and_databricks);
                         Answer (ProjectBody {| project_id := 7 |});
                         Answer UploadBody; Answer (TaskBody 9);
                         Answer (JobBody (job "running" []));
                         Answer (JobBody (job "done" []))]))
    = (Ok (), w')
    ∧ displayed w' = [py "No queries were translated."]
    ∧ length (calls w') = 6%nat
    ∧ sleeps w' = [5].
Proof.
  destruct (cached_key_run_displays_the_report
              (λ host path, host ++ path) (λ _, ∅) 400 9000000000
              [py "SELECT 1"] None None (py "key")
              (set_current_api_key (Some (py "key"))
                 (initial_world [Answer (DataSourcesBody snowflake_and_databricks);
                                 Answer (ProjectBody {| project_id := 7 |});
                                 Answer UploadBody; Answer (TaskBody 9);
                                 Answer (JobBody (job "running" []));
                                 Answer (JobBody (job "done" []))]))
              snowflake_and_databricks
              {| ds_id := 1; ds_type := py "snowflake" |}
              {| ds_id := 2; ds_type := py "databricks" |}
              {| project_id := 7 |} UploadBody 9 [job "running" []] (job "done" []) [])
    as (w' & Hrun & Hdisp & Hcalls & Hsl & _);
    [reflexivity|reflexivity|reflexivity|reflexivity
    |repeat constructor; discriminate|left; reflexivity|intros _; lia|].
  exists w'. rewrite Hcalls.
  split; [exact Hrun|]. split; [exact Hdisp|].
  split; [reflexivity|exact Hsl].
Defined.

Lemma provisioning_run_displays_the_report_witness :
  ∃ w',
    translate_queries_and_render_results (λ host path, host ++ path) (λ _, ∅) 400
      9000000000 [py "SELECT 1"] (Some (py "token")) (Some (py "https://eu.datafold.com"))
      (initial_world [Answer (OrgBody (py "key") 3);
                      Answer (DataSourcesBody snowflake_and_databricks);
                      Answer (ProjectBody {| project_id := 7 |});
                      Answer UploadBody; Answer (TaskBody 9);
                      Answer (JobBody (job "done" []))])
    = (Ok (), w')
    ∧ displayed w' = [py "No queries were translated."]
    ∧ length (calls w') = 6%nat
    ∧ _current_api_key w' = Some (py "key").
Proof.
  destruct (provisioning_run_displays_the_report
              (λ host path, host ++ path) (λ _, ∅) 400 9000000000
              [py "SELECT 1"] (py "token")
              (Some (py "https://eu.datafold.com")) (py "key") 3
              (initial_world [Answer (OrgBody (py "key") 3);
                              Answer (DataSourcesBody snowflake_and_databricks);
                              Answer (ProjectBody {| project_id := 7 |});
                              Answer UploadBody; Answer (TaskBody 9);
                              Answer (JobBody (job "done" []))])
              snowflake_and_databricks
              {| ds_id := 1; ds_type := py "snowflake" |}
              {| ds_id := 2; ds_type := py "databricks" |}
              {| project_id := 7 |} UploadBody 9 [] (job "done" []) [])
    as (w' & Hrun & Hdisp & Hcalls & Hkey & _);
    [reflexivity|reflexivity|reflexivity|reflexivity|constructor|left; reflexivity
    |intros _; lia|].
  exists w'. rewrite Hcalls.
  split; [exact Hrun|]. split; [exact Hdisp|].
  split; [reflexivity|exact Hkey].
Defined.

Lemma translate_queries_stops_at_the_first_failure_witness :
  ∃ w',
    translate_queries (λ host path, host ++ path) (λ _, ∅) (py "key") [py "SELECT 1"] None
      (initial_world [Answer (DataSourcesBody snowflake_and_databricks);
                      Answer (ProjectBody {| project_id := 7 |});
                      Fails (TransportError (py "500"));
                      Answer (TaskBody 9)])
    = (Raise (TransportError (py "500")), w')
    ∧ length (calls w') = 3%nat
    ∧ script w' = [Answer (TaskBody 9)].
Proof.
  apply (translate_queries_stops_at_the_first_failure
           (λ host path, host ++ path) (λ _, ∅) (py "key") [py "SELECT 1"] None
           (initial_world [Answer (DataSourcesBody snowflake_and_databricks);
                           Answer (ProjectBody {| project_id := 7 |});
                           Fails (TransportError (py "500"));
                           Answer (TaskBody 9)])
           snowflake_and_databricks
           {| ds_id := 1; ds_type := py "snowflake" |}
           {| ds_id := 2; ds_type := py "databricks" |}
           {| project_id := 7 |} UploadBody 9 2%nat (TransportError (py "500"))
           [Answer (TaskBody 9)]);
    [lia|reflexivity|reflexivity|reflexivity].
Defined.

(** * The two modules side by side *)














Section Modules.
Variable prepare_api_url : str → str → str.
Variable prepare_headers : str → gmap str str.
Variable longest_sleep : Z.











End Modules.

(** * Edge cases *)

Local Open Scope Z_scope.

Lemma py_inj : Inj (=) (=) py.
Proof.
  intros s1 s2 Heq. unfold py in Heq.
  assert (Inj (=) (=) N_of_ascii) as Hinj.
  { intros a1 a2 Ha. by rewrite -(ascii_N_embedding a1) -(ascii_N_embedding a2) Ha. }
  apply (inj (fmap N_of_ascii)) in Heq.
  by rewrite -(string_of_list_ascii_of_string s1) -(string_of_list_ascii_of_string s2) Heq.
Qed.

Lemma to_int_nonnil (z : Z) : Z.to_int z ≠ Decimal.Pos Decimal.Nil ∧ Z.to_int z ≠ Decimal.Neg Decimal.Nil.
Proof.
  destruct z as [|p|p]; cbn; split; try discriminate;
    intros [= Hp]; by apply DecimalPos.Unsigned.to_uint_nonnil in Hp.
Qed.

Lemma str_of_int_inj : Inj (=) (=) str_of_int.
Proof.
  intros x y Heq. unfold str_of_int in Heq. apply py_inj in Heq.
  apply (f_equal NilZero.int_of_string) in Heq.
  destruct (to_int_nonnil x), (to_int_nonnil y).
  rewrite !NilZero.isi // in Heq. injection Heq as Heq.
  by apply DecimalZ.to_int_inj.
Qed.

Lemma uploaded_filenames_from (queries : list str) (start : nat) :
  omap (λ file, match file with
                | JDict ((_, JStr name) :: _) => Some name
                | _ => None
                end)
    ((λ iq : nat * str,
        JDict [(py "filename",
                JStr (py "query_" ++ str_of_int (Z.of_nat (fst iq) + 1) ++ py ".sql"));
               (py "content", JStr (snd iq))])
     <$> enumerate_from start queries)
  = (λ i, py "query_" ++ str_of_int (Z.of_nat i + 1) ++ py ".sql")
    <$> seq start (length queries).
Proof.
  revert start. induction queries as [|q queries IH]; intros start; [done|].
  cbn. by rewrite -IH.
Qed.

(** The files of an upload have pairwise different names, one per query,
    also when a query occurs twice in the list: no file of the payload
    can replace another one. *)
Theorem uploaded_filenames_are_distinct (queries : list str) :
  length (uploaded_filenames (upload_payload queries)) = length queries
  ∧ NoDup (uploaded_filenames (upload_payload queries)).
Proof.
  unfold upload_payload, uploaded_filenames, enumerate.
  rewrite uploaded_filenames_from. split.
  - by rewrite length_fmap length_seq.
  - apply NoDup_fmap_2; [|apply NoDup_seq].
    intros i j Heq. apply app_inv_head, app_inv_tail, str_of_int_inj in Heq. lia.
Qed.

Section Edges.
Variable prepare_api_url : str → str → str.
Variable prepare_headers : str → gmap str str.
Variable longest_sleep : Z.

(** A poll interval that [time.sleep] does not accept is only noticed
    when the loop has to sleep: a first answer with a terminal status is
    returned as with any other interval, and a first answer with another
    status makes the call raise the exception of [time.sleep] after this
    single fetch and without having slept: [OverflowError] for a length
    beyond 9223372036 seconds either way, [ValueError] for the other
    negative lengths. *)
Theorem invalid_interval_fails_at_the_first_sleep
    (api_key : str) (project_id translation_id poll_interval : Z)
    (host : option str) (w : world) (first : TranslationJob) (rest : list reply) :
  script w = Answer (JobBody first) :: rest →
  poll_interval < 0 ∨ 9223372036 < poll_interval →
  ∃ w',
    _wait_for_translation_results prepare_api_url prepare_headers longest_sleep
      api_key project_id translation_id poll_interval host w
    = (if is_terminal (status first) then Ok first
       else Raise (sleep_error poll_interval), w')
    ∧ length (calls w') = (length (calls w) + 1)%nat
    ∧ sleeps w' = sleeps w
    ∧ script w' = rest.
Proof.
  intros Hs Hbad.
  unfold _wait_for_translation_results. munfold. rewrite get_host_run.
  cbv beta iota zeta. cbn [poll]. munfold. unfold get_data, send.
  cbn [script set_notebook_host]. rewrite Hs. cbn -[poll is_terminal].
  destruct (is_terminal (status first)).
  - eexists. split; [reflexivity|]. cbn. rewrite length_app /=. by repeat split.
  - unfold sleep, sleep_error. case_bool_decide.
    + eexists. split; [reflexivity|]. cbn. rewrite length_app /=. by repeat split.
    + rewrite bool_decide_eq_true_2; [lia|].
      eexists. split; [reflexivity|]. cbn. rewrite length_app /=. by repeat split.
Qed.

End Edges.

Lemma invalid_interval_fails_at_the_first_sleep_witness :
  (∃ w',
     _wait_for_translation_results (λ host path, host ++ path) (λ _, ∅) 9000000000
       (py "key") 7 9 (-1) None
       (initial_world [Answer (JobBody (job "running" [])); Answer (JobBody (job "done" []))])
     = (Raise (ValueError (py "sleep length must be non-negative")), w')
     ∧ length (calls w') = 1%nat
     ∧ sleeps w' = []
     ∧ script w' = [Answer (JobBody (job "done" []))])
  ∧ (∃ w',
       _wait_for_translation_results (λ host path, host ++ path) (λ _, ∅) 9000000000
         (py "key") 7 9 10000000000 None
         (initial_world [Answer (JobBody (job "running" [])); Answer (JobBody (job "done" []))])
       = (Raise (OverflowError (py "timestamp too large to convert to C _PyTime_t")), w')
       ∧ length (calls w') = 1%nat
       ∧ sleeps w' = []
       ∧ script w' = [Answer (JobBody (job "done" []))]).
Proof.
  split.
  - apply (invalid_interval_fails_at_the_first_sleep
             (λ host path, host ++ path) (λ _, ∅) 9000000000 (py "key") 7 9 (-1) None
             (initial_world [Answer (JobBody (job "running" []));
                             Answer (JobBody (job "done" []))])
             (job "running" []) [Answer (JobBody (job "done" []))]);
      [reflexivity|lia].
  - apply (invalid_interval_fails_at_the_first_sleep
             (λ host path, host ++ path) (λ _, ∅) 9000000000
             (py "key") 7 9 10000000000 None
             (initial_world [Answer (JobBody (job "running" []));
                             Answer (JobBody (job "done" []))])
             (job "running" []) [Answer (JobBody (job "done" []))]);
      [reflexivity|lia].
Defined.
